(** * Verification and access-code bot: a shallow embedding of the handlers

    The bot keeps two kinds of state: documents in a managed document store
    (collections [pending_verifications], [otp_sessions], [access_codes]) and
    an in-memory map [addCodeSessions] for the admin dialog.  Every handler is
    embedded as a function from the state before the event to the state after
    it, together with the list of messages it sends.

    Conventions.
    - A JavaScript string is a [string] holding the UTF-8 encoding of its text.
    - A JavaScript integer-valued number is a [Z]; the result of
      [Math.random()] is a binary64 value ([spec_float], precision 53,
      maximal exponent 1024).
    - A property that may be [undefined] has an [option] type.
    - The outcome of every awaited call to the document store or to the chat
      platform inside a [try] block is read from an environment record: the
      call either resolves or rejects, and a rejection transfers control to
      the [catch] block, as in the source. *)

From Stdlib Require Import ZArith String Ascii List Bool Lia.
From Stdlib Require Import Floats.SpecFloat.
From stdpp Require Import base option list gmap strings pretty.

Local Open Scope string_scope.
Local Open Scope Z_scope.

(** ** Platform built-ins used by the handlers *)

Module JS.

Definition code (c : ascii) : Z := Z.of_N (N_of_ascii c).

Definition between (lo hi : Z) (c : ascii) : bool :=
  (lo <=? code c) && (code c <=? hi).

(** White space and line terminators of one, two and three UTF-8 bytes:
    U+0009..U+000D and U+0020; U+00A0; U+1680, U+2000..U+200A, U+2028,
    U+2029, U+202F, U+205F, U+3000 and U+FEFF. *)
Definition ws1 (a : ascii) : bool :=
  between 9 13 a || (code a =? 32).

Definition ws2 (a b : ascii) : bool :=
  (code a =? 194) && (code b =? 160).

Definition ws3 (a b c : ascii) : bool :=
  ((code a =? 225) && (code b =? 154) && (code c =? 128))
  || ((code a =? 226) && (code b =? 128)
      && (between 128 138 c || between 168 169 c || (code c =? 175)))
  || ((code a =? 226) && (code b =? 129) && (code c =? 159))
  || ((code a =? 227) && (code b =? 128) && (code c =? 128))
  || ((code a =? 239) && (code b =? 187) && (code c =? 191)).

(** [String.prototype.trimStart]. *)
Fixpoint trimStart (s : string) : string :=
  match s with
  | EmptyString => EmptyString
  | String a s1 =>
      if ws1 a then trimStart s1
      else match s1 with
           | EmptyString => s
           | String b s2 =>
               if ws2 a b then trimStart s2
               else match s2 with
                    | EmptyString => s
                    | String c s3 => if ws3 a b c then trimStart s3 else s
                    end
           end
  end.

Definition rev_string (s : string) : string :=
  string_of_list_ascii (List.rev (list_ascii_of_string s)).

(** The same scan from the right end, on the reversed byte sequence. *)
Fixpoint trimStart_rev (s : string) : string :=
  match s with
  | EmptyString => EmptyString
  | String c s1 =>
      if ws1 c then trimStart_rev s1
      else match s1 with
           | EmptyString => s
           | String b s2 =>
               if ws2 b c then trimStart_rev s2
               else match s2 with
                    | EmptyString => s
                    | String a s3 => if ws3 a b c then trimStart_rev s3 else s
                    end
           end
  end.

Definition trimEnd (s : string) : string :=
  rev_string (trimStart_rev (rev_string s)).

(** [String.prototype.trim]. *)
Definition trim (s : string) : string := trimEnd (trimStart s).

(** [String.prototype.substring(start, end)]: the characters at positions
    [start], ..., [end - 1] that exist; the arguments are swapped when
    [start > end]. *)
Definition substring (start end_ : nat) (s : string) : string :=
  String.substring (Nat.min start end_)
                   (Nat.max start end_ - Nat.min start end_) s.

Definition upper (c : ascii) : ascii :=
  if between 97 122 c then ascii_of_N (N_of_ascii c - 32) else c.

(** [String.prototype.toUpperCase] on the Basic Latin letters; the handlers
    apply it to radix-36 renderings only. *)
Fixpoint toUpperCase (s : string) : string :=
  match s with
  | EmptyString => EmptyString
  | String c s' => String (upper c) (toUpperCase s')
  end.

(** Value of a character as a digit in the given radix, if it is one. *)
Definition digit_value (radix : Z) (c : ascii) : option Z :=
  let v :=
    if between 48 57 c then Some (code c - 48)
    else if between 97 122 c then Some (code c - 87)
    else if between 65 90 c then Some (code c - 55)
    else None in
  match v with
  | Some d => if d <? radix then Some d else None
  | None => None
  end.

(** The longest prefix of radix digits, as a number; [acc] is [None] until
    the first digit has been read. *)
Fixpoint parse_digits (radix : Z) (s : string) (acc : option Z) : option Z :=
  match s with
  | EmptyString => acc
  | String c s' =>
      match digit_value radix c with
      | Some d => parse_digits radix s' (Some (radix * default 0 acc + d))
      | None => acc
      end
  end.

Definition strip_sign (s : string) : bool * string :=
  match s with
  | String "-" r => (true, r)
  | String "+" r => (false, r)
  | _ => (false, s)
  end.

Definition strip_hex_prefix (s : string) : Z * string :=
  match s with
  | String "0" (String "x" r) => (16, r)
  | String "0" (String "X" r) => (16, r)
  | _ => (10, s)
  end.

(** [parseInt(s)] with no radix argument; [None] stands for [NaN].  The
    result is the mathematical value of the digits: the handlers compare
    it with 0 and 50 only and keep it when it is at most 50, where the
    conversion to a number is exact. *)
Definition parseInt (s : string) : option Z :=
  let '(neg, s2) := strip_sign (trimStart s) in
  let '(radix, s3) := strip_hex_prefix s2 in
  match parse_digits radix s3 None with
  | None => None
  | Some n => Some (if neg then - n else n)
  end.

(** [isNaN(count) || count <= 0 || count > 50] *)
Definition count_rejected (count : option Z) : bool :=
  match count with
  | None => true
  | Some n => (n <=? 0) || (50 <? n)
  end.

(** [ToLength] of an optional integer, as used by [Array.from]. *)
Definition ToLength (v : option Z) : nat :=
  match v with
  | None => O
  | Some n => Z.to_nat (Z.min (Z.max n 0) (2 ^ 53 - 1))
  end.

(** Truthiness of an optional string: [undefined] and the empty string are
    falsy. *)
Definition truthy (v : option string) : bool :=
  match v with
  | None | Some EmptyString => false
  | Some _ => true
  end.

(** [xs.filter(Boolean).join(' ')] on optional strings. *)
Fixpoint join_truthy (xs : list (option string)) : string :=
  match xs with
  | [] => ""
  | x :: rest =>
      if truthy x then
        match List.filter truthy rest with
        | [] => default "" x
        | _ => default "" x +:+ " " +:+ join_truthy rest
        end
      else join_truthy rest
  end.

End JS.

(** ** Numbers: binary64 arithmetic, [Math.floor], [Number.prototype.toString] *)

Module Binary64.

Definition prec : Z := 53.
Definition emax : Z := 1024.

Definition mul : spec_float → spec_float → spec_float := SFmul prec emax.
Definition add : spec_float → spec_float → spec_float := SFadd prec emax.

(** The binary64 value of an integer literal. *)
Definition of_Z (n : Z) : spec_float := binary_normalize prec emax n 0 false.

(** What [Math.random()] may return: a well-formed binary64 value with
    positive sign, at least 0 and less than 1. *)
Definition unit_interval (r : spec_float) : bool :=
  match r with
  | S754_zero false => true
  | S754_finite false m e =>
      bounded prec emax m e && (e <? 0) && (Z.pos m <? 2 ^ (- e))
  | _ => false
  end.

(** An integral number, or one of the three values that are not finite. *)
Inductive Integral :=
| Int (z : Z)
| PosInfinity
| NegInfinity
| NotANumber.

(** [Math.floor]: the largest integer not above [±m·2^e]; a shift by a
    negative amount is a shift to the right, which rounds down. *)
Definition floor (x : spec_float) : Integral :=
  match x with
  | S754_zero _ => Int 0
  | S754_infinity s => if s then NegInfinity else PosInfinity
  | S754_nan => NotANumber
  | S754_finite s m e => Int (Z.shiftl (cond_Zopp s (Z.pos m)) e)
  end.

(** [toString()] of an integral number: decimal digits (the exponent form
    that starts at 10^21 is not modelled). *)
Definition toString (v : Integral) : string :=
  match v with
  | Int z => pretty z
  | PosInfinity => "Infinity"
  | NegInfinity => "-Infinity"
  | NotANumber => "NaN"
  end.

(** A radix-36 digit: [0-9a-z]. *)
Definition radix36_digit (d : Z) : ascii :=
  ascii_of_N (Z.to_N (if d <? 10 then 48 + d else 87 + d)).

(** The radix-36 expansion of [num / den], for [0 <= num < den]: [Some] of
    its digits when it ends within [fuel] digits. *)
Fixpoint radix36_fraction (fuel : nat) (num den : Z) : option string :=
  if num =? 0 then Some ""
  else match fuel with
       | O => None
       | S fuel' =>
           rest ← radix36_fraction fuel' ((36 * num) mod den) den;
           Some (String (radix36_digit (36 * num / den)) rest)
       end.

(** [x.toString(36)] for [0 <= x < 1], on the numbers whose radix-36
    expansion ends within eight digits.  For these the rendering is the
    expansion itself: a string with other digits, or fewer, denotes a number
    that is at least [36 ^ -8] away, which no rounding to binary64 bridges. *)
Definition toString36 (x : spec_float) : option string :=
  match x with
  | S754_zero _ => Some "0"
  | S754_finite false m e =>
      if (e <? 0) && (Z.pos m <? 2 ^ (- e))
      then rest ← radix36_fraction 8 (Z.pos m) (2 ^ (- e)); Some ("0." +:+ rest)
      else None
  | _ => None
  end.

End Binary64.

(** ** Code generators *)

(** [generateOTP], as a function of the value [r] of [Math.random()]:
    [Math.floor(100000 + r * 900000).toString()]. *)
Definition generateOTP (r : spec_float) : string :=
  Binary64.toString
    (Binary64.floor
       (Binary64.add (Binary64.of_Z 100000)
                     (Binary64.mul r (Binary64.of_Z 900000)))).

(** [generateResourceCode], as a function of the value [r36] of
    [Math.random().toString(36)]:
    [`REDM-${r36.substring(2, 8).toUpperCase()}`]. *)
Definition generateResourceCode (r36 : string) : string :=
  "REDM-" +:+ JS.toUpperCase (JS.substring 2 8 r36).

(** ** Data model *)

(** Chat platform objects. *)
Module Tg.
Record User := {
  id : Z;
  first_name : string;
  last_name : option string;
  username : option string
}.

Record Contact := {
  phone_number : string;
  user_id : option Z
}.
End Tg.

(** Documents of [pending_verifications], keyed by the user id as a string. *)
Record PendingVerification := {
  session_id : string;
  timestamp : Z
}.

(** Documents of [otp_sessions], keyed by the path that the session id of
    the website names below the collection (a session id without a slash
    names itself). *)
Record OtpSession := {
  otp : string;
  telegram_id : Z;
  telegram_name : string;
  telegram_username : string;
  phone_number : string;
  verified : bool;
  created_at : Z
}.

(** Documents of [access_codes]; [ac_created_at] is the field [created_at]. *)
Record AccessCode := {
  code : string;
  resourceName : string;
  downloadUrl : string;
  isUsed : bool;
  ac_created_at : Z
}.

(** The document store.  The documents of [access_codes] are created under
    ids that the store generates and that the bot never reads back, so the
    collection is the list of its documents in the order of creation. *)
Record Db := {
  pending_verifications : gmap string PendingVerification;
  otp_sessions : gmap string OtpSession;
  access_codes : list AccessCode
}.

Inductive Step := ASK_COUNT | ASK_NAME | ASK_LINK | PREVIEW.

(** A value of [addCodeSessions]: [{ step, count, name, link, codes }], where
    every property but [step] is absent until the dialog sets it. *)
Record Session := {
  step : Step;
  count : option Z;
  name : option string;
  link : option string;
  codes : option (list string)
}.

Record World := {
  db : Db;
  addCodeSessions : gmap Z Session
}.

(** Calls to the chat platform, by the text they carry. *)
Inductive Outbound :=
| Welcome
| SecurityCheck
| SystemError
| Unauthorized
| AskCount
| InvalidNumber
| AskName
| AskLink
| Preview (name : option string) (codes : list string) (link : option string)
| AnswerSessionExpired
| EditAdded (count : option Z) (name : option string)
| DatabaseError
| OwnContactError
| SessionExpired
| VerificationSuccessful (otp : string)
| ContactError.

(** What the surroundings of one event decide: which awaited calls resolve,
    the time of the store, and the values of [Math.random()].  [send_ok]
    stands for the one call to the chat platform, on the path taken, whose
    promise the handler waits for or returns. *)
Record Env := {
  db_get_ok : bool;
  db_set_ok : bool;
  db_delete_ok : bool;
  batch_commit_ok : bool;
  send_ok : bool;
  server_time : Z;
  random : spec_float;
  random36 : nat → string
}.

(** ** The store client: document references *)

(** [s.split(sep)] for a separator of one character. *)
Fixpoint split_string (sep : ascii) (s : string) : list string :=
  match s with
  | EmptyString => [""]
  | String c s' =>
      if Ascii.eqb c sep then "" :: split_string sep s'
      else match split_string sep s' with
           | segment :: segments => String c segment :: segments
           | [] => [String c ""]
           end
  end.

(** [xs.join(sep)] *)
Fixpoint join (sep : string) (xs : list string) : string :=
  match xs with
  | [] => ""
  | [x] => x
  | x :: rest => x +:+ sep +:+ join sep rest
  end.

(** [s.indexOf('//') >= 0] *)
Fixpoint has_double_slash (s : string) : bool :=
  match s with
  | String a s' =>
      match s' with
      | String b _ => (Ascii.eqb a "/" && Ascii.eqb b "/") || has_double_slash s'
      | EmptyString => false
      end
  | EmptyString => false
  end.

(** [collection.doc(documentPath)] of the store client.  The path must be a
    non-empty string without ["//"]; it is split at the slashes, and empty
    segments, which only a slash at either end leaves, are dropped; what
    remains must name a document of the collection or of a collection below
    it, that is, have an odd number of segments.  [None] is the exception
    that [doc] throws; [Some] holds the path of the document relative to the
    collection, by which the collections of the store are keyed here. *)
Definition document_path (documentPath : string) : option string :=
  if String.eqb documentPath "" || has_double_slash documentPath then None
  else
    let segments :=
      List.filter (λ segment, negb (String.eqb segment ""))
        (split_string "/" documentPath) in
    if Nat.odd (length segments) then Some (join "/" segments) else None.

(** ** The handler monad: state, sent messages, exceptions *)

Record St := {
  world : World;
  sent : list Outbound
}.

(** [None] in the first component: an exception is in flight. *)
Definition M (A : Type) : Type := St → option A * St.

#[global] Instance M_ret : MRet M := λ A a s, (Some a, s).

#[global] Instance M_bind : MBind M := λ A B f m s,
  match m s with
  | (Some a, s') => f a s'
  | (None, s') => (None, s')
  end.

Definition throw {A} : M A := λ s, (None, s).

(** [try { body } catch { handler }] *)
Definition try_catch {A} (body handler : M A) : M A := λ s,
  match body s with
  | (Some a, s') => (Some a, s')
  | (None, s') => handler s'
  end.

Definition gets {A} (f : World → A) : M A := λ s, (Some (f (world s)), s).

Definition modify (f : World → World) : M unit := λ s,
  (Some tt, {| world := f (world s); sent := sent s |}).

(** A call to the chat platform whose result is not waited for. *)
Definition send (msg : Outbound) : M unit := λ s,
  (Some tt, {| world := world s; sent := sent s ++ [msg] |}).

(** [await] of a call to the store: it takes effect and resolves, or it
    rejects and leaves the store as it was. *)
Definition await (ok : bool) (effect : World → World) : M unit :=
  if ok then modify effect else throw.

(** [await] of a call to the chat platform. *)
Definition await_send (ok : bool) (msg : Outbound) : M unit :=
  send msg ;; if ok then mret tt else throw.

(** [return] of the promise of a call to the chat platform: the handler
    ends, and its own promise is rejected when the call is. *)
Definition return_send (ok : bool) (msg : Outbound) : M unit :=
  await_send ok msg.

(** The end of a handler that left a [try] block by [return] of a promise:
    the [catch] block does not see the rejection, the handler's promise
    does. *)
Definition settle (ok : bool) : M unit := if ok then mret tt else throw.

Definition run {A} (m : M A) (w : World) : option A * St :=
  m {| world := w; sent := [] |}.

(** State and messages after a handler has run on [w]. *)
Definition world_after {A} (m : M A) (w : World) : World := world (snd (run m w)).
Definition sent_by {A} (m : M A) (w : World) : list Outbound := sent (snd (run m w)).
Definition result_of {A} (m : M A) (w : World) : option A := fst (run m w).

(** ** Updates of the state *)

Definition with_db (f : Db → Db) (w : World) : World :=
  {| db := f (db w); addCodeSessions := addCodeSessions w |}.

Definition with_sessions (f : gmap Z Session → gmap Z Session) (w : World) : World :=
  {| db := db w; addCodeSessions := f (addCodeSessions w) |}.

(** [db.collection('pending_verifications').doc(key).set(d)] *)
Definition set_pending (key : string) (d : PendingVerification) : World → World :=
  with_db (λ b, {| pending_verifications := <[key := d]> (pending_verifications b);
                   otp_sessions := otp_sessions b;
                   access_codes := access_codes b |}).

(** [db.collection('pending_verifications').doc(key).delete()] *)
Definition delete_pending (key : string) : World → World :=
  with_db (λ b, {| pending_verifications := delete key (pending_verifications b);
                   otp_sessions := otp_sessions b;
                   access_codes := access_codes b |}).

(** [ref.set(d)] on the reference that [db.collection('otp_sessions').doc]
    returned for the document at the path [key]. *)
Definition set_otp_session (key : string) (d : OtpSession) : World → World :=
  with_db (λ b, {| pending_verifications := pending_verifications b;
                   otp_sessions := <[key := d]> (otp_sessions b);
                   access_codes := access_codes b |}).

(** [batch.commit()] of a batch of [set]s on new documents of
    [access_codes]: all of them are created. *)
Definition commit_batch (batch : list AccessCode) : World → World :=
  with_db (λ b, {| pending_verifications := pending_verifications b;
                   otp_sessions := otp_sessions b;
                   access_codes := access_codes b ++ batch |}).

Definition set_count (v : option Z) (s : Session) : Session :=
  {| step := step s; count := v; name := name s; link := link s; codes := codes s |}.
Definition set_name (v : option string) (s : Session) : Session :=
  {| step := step s; count := count s; name := v; link := link s; codes := codes s |}.
Definition set_link (v : option string) (s : Session) : Session :=
  {| step := step s; count := count s; name := name s; link := v; codes := codes s |}.
Definition set_codes (v : option (list string)) (s : Session) : Session :=
  {| step := step s; count := count s; name := name s; link := link s; codes := v |}.
Definition set_step (v : Step) (s : Session) : Session :=
  {| step := v; count := count s; name := name s; link := link s; codes := codes s |}.

(** Assignment to properties of the session object held in the map under
    [key]: the object is shared with the map, so the map sees the change. *)
Definition assign (key : Z) (f : Session → Session) : M unit :=
  modify (with_sessions (alter f key)).

(** ** Handlers *)

Definition ADMIN_ID : Z := 1299129410.

(** [user.id.toString()]: a decimal numeral, which [doc] takes as the id of
    a document of the collection ([document_path_doc_key] below). *)
Definition doc_key (user : Tg.User) : string := pretty (Tg.id user).

(** A. [bot.start]: [ctx.from] and [ctx.startPayload]. *)
Definition bot_start (env : Env) (from : Tg.User) (startPayload : option string)
  : M unit :=
  let sessionId := startPayload in
  let user := from in
  if negb (JS.truthy sessionId) then return_send (send_ok env) Welcome
  else
    try_catch
      (await (db_set_ok env)
         (set_pending (doc_key user)
            {| session_id := default "" sessionId;
               timestamp := server_time env |}) ;;
       await_send (send_ok env) SecurityCheck)
      (send SystemError).

(** C. [bot.command('addcodes')] *)
Definition addcodes (env : Env) (from : Tg.User) : M unit :=
  if negb (bool_decide (Tg.id from = ADMIN_ID))
  then return_send (send_ok env) Unauthorized
  else
    modify (with_sessions
      (<[Tg.id from :=
           {| step := ASK_COUNT; count := None; name := None;
              link := None; codes := None |}]>)) ;;
    send AskCount.

(** [Array.from({ length: n }, () => generateResourceCode())]: the i-th code
    is made from the i-th value of [Math.random().toString(36)]. *)
Definition generate_codes (env : Env) (n : option Z) : list string :=
  List.map (λ i, generateResourceCode (random36 env i)) (seq 0 (JS.ToLength n)).

(** Whether the text handler called [next()]. *)
Inductive Dispatch := Consumed | PassedOn.

(** D. [bot.on('text')]: [ctx.from] and [ctx.message.text]. *)
Definition on_text (env : Env) (from : Tg.User) (text : string) : M Dispatch :=
  session ← gets (λ w, addCodeSessions w !! Tg.id from);
  match session with
  | None => mret PassedOn
  | Some session =>
      let input := JS.trim text in
      match step session with
      | ASK_COUNT =>
          let count := JS.parseInt input in
          if JS.count_rejected count
          then return_send (send_ok env) InvalidNumber ;; mret Consumed
          else
            assign (Tg.id from) (set_count count) ;;
            assign (Tg.id from) (set_step ASK_NAME) ;;
            send AskName ;;
            mret Consumed
      | ASK_NAME =>
          assign (Tg.id from) (set_name (Some input)) ;;
          assign (Tg.id from) (set_step ASK_LINK) ;;
          send AskLink ;;
          mret Consumed
      | ASK_LINK =>
          assign (Tg.id from) (set_link (Some input)) ;;
          assign (Tg.id from) (set_step PREVIEW) ;;
          let codes := generate_codes env (count session) in
          assign (Tg.id from) (set_codes (Some codes)) ;;
          send (Preview (name session) codes (Some input)) ;;
          mret Consumed
      | PREVIEW => mret Consumed
      end
  end.

(** The documents that [confirm_add] puts into its batch.  [None] is an
    exception before the commit: [session.codes] is [undefined], or a
    document would hold an [undefined] field, which the store client
    refuses. *)
Definition build_batch (env : Env) (session : Session) : option (list AccessCode) :=
  codes ← codes session;
  mapM (λ code,
          name ← name session;
          link ← link session;
          Some {| code := code;
                  resourceName := name;
                  downloadUrl := link;
                  isUsed := false;
                  ac_created_at := server_time env |})
       codes.

(** E. [bot.action('confirm_add')] *)
Definition confirm_add (env : Env) (from : Tg.User) : M unit :=
  session ← gets (λ w, addCodeSessions w !! Tg.id from);
  match session with
  | None => return_send (send_ok env) AnswerSessionExpired
  | Some session =>
      try_catch
        (batch ← from_option mret throw (build_batch env session);
         await (batch_commit_ok env) (commit_batch batch) ;;
         await_send (send_ok env) (EditAdded (count session) (name session)) ;;
         modify (with_sessions (delete (Tg.id from))))
        (send DatabaseError)
  end.

(** F. [bot.on('contact')]: [ctx.from] and [ctx.message.contact].  The
    [try] block yields whether the promise it returned, if any, resolves. *)
Definition on_contact (env : Env) (from : Tg.User) (contact : Tg.Contact)
  : M unit :=
  let user := from in
  if negb (bool_decide (Tg.user_id contact = Some (Tg.id user)))
  then return_send (send_ok env) OwnContactError
  else
    returned ← try_catch
      (pendingDoc ← (await (db_get_ok env) id ;;
                     gets (λ w, pending_verifications (db w) !! doc_key user));
       match pendingDoc with
       | None => send SessionExpired ;; mret (send_ok env)
       | Some pendingDoc =>
           let sessionId := session_id pendingDoc in
           let otp := generateOTP (random env) in
           ref ← from_option mret throw (document_path sessionId);
           await (db_set_ok env)
             (set_otp_session ref
                {| otp := otp;
                   telegram_id := Tg.id user;
                   telegram_name :=
                     JS.join_truthy [Some (Tg.first_name user); Tg.last_name user];
                   telegram_username :=
                     if JS.truthy (Tg.username user)
                     then default "" (Tg.username user)
                     else "No Username";
                   phone_number := Tg.phone_number contact;
                   verified := false;
                   created_at := server_time env |}) ;;
           await (db_delete_ok env) (delete_pending (doc_key user)) ;;
           await_send (send_ok env) (VerificationSuccessful otp) ;;
           mret true
       end)
      (send ContactError ;; mret true);
    settle returned.

(** ** Notions used to state the properties *)

Definition is_digit (c : ascii) : bool := JS.between 48 57 c.

(** The reading of "the input text is an integer": the text is a non-empty
    run of decimal digits, and denotes their value. *)
Fixpoint numeral_value (s : string) (acc : Z) : option Z :=
  match s with
  | EmptyString => Some acc
  | String c s' =>
      if JS.between 48 57 c
      then numeral_value s' (10 * acc + (JS.code c - 48))
      else None
  end.

Definition decimal_numeral (s : string) : option Z :=
  match s with
  | EmptyString => None
  | _ => numeral_value s 0
  end.

(** "The input text is a positive integer less than or equal to 50." *)
Definition count_text (t : string) : bool :=
  match decimal_numeral t with
  | Some n => (1 <=? n) && (n <=? 50)
  | None => false
  end.

Fixpoint string_forall (p : ascii → bool) (s : string) : bool :=
  match s with
  | EmptyString => true
  | String c s' => p c && string_forall p s'
  end.

(** A document id of the usual kind: not empty, and without a slash. *)
Definition document_id (s : string) : bool :=
  negb (String.eqb s "") && string_forall (λ c, negb (Ascii.eqb c "/")) s.

(** [A-Z0-9] *)
Definition code_char (c : ascii) : bool :=
  JS.between 65 90 c || JS.between 48 57 c.

(** [0-9a-z], the digits of a radix-36 rendering. *)
Definition radix36_char (c : ascii) : bool :=
  JS.between 48 57 c || JS.between 97 122 c.

(** [/^REDM-[A-Z0-9]{6}$/.test(s)] *)
Definition matches_code_pattern (s : string) : bool :=
  match s with
  | String "R" (String "E" (String "D" (String "M" (String "-" t)))) =>
      (String.length t =? 6)%nat && string_forall code_char t
  | _ => false
  end.

(** The shape of [x.toString(36)] for a number [x] with [0 <= x < 1]:
    ["0"], or ["0."] followed by at least one radix-36 digit. *)
Definition radix36_rendering (s : string) : bool :=
  match s with
  | String "0" EmptyString => true
  | String "0" (String "." t) =>
      negb (String.length t =? 0)%nat && string_forall radix36_char t
  | _ => false
  end.

(** Number of digits after the point. *)
Definition fraction_length (s : string) : nat := String.length s - 2.

(** The documents for the codes [cs] of a resource. *)
Definition access_code_docs (env : Env) (nm lk : string) (cs : list string)
  : list AccessCode :=
  List.map (λ c, {| code := c; resourceName := nm; downloadUrl := lk;
                    isUsed := false; ac_created_at := server_time env |}) cs.

(** A session as the dialog leaves it at [PREVIEW]. *)
Definition preview_of (session : Session) (n : Z) (nm lk : string)
    (cs : list string) : Prop :=
  step session = PREVIEW ∧ count session = Some n ∧ name session = Some nm
  ∧ link session = Some lk ∧ codes session = Some cs
  ∧ length cs = Z.to_nat n.

(** ** Values of binary64 numbers *)

(** Dyadic values are compared after scaling by [2 ^ bias], which makes every
    value that occurs below an integer. *)
Definition bias : Z := 1200.

Definition scaled (m e : Z) : Z := m * 2 ^ (e + bias).

(** The scaled value of a number that is zero or positive and finite. *)
Definition scaled_value (x : spec_float) (v : Z) : Prop :=
  (x = S754_zero false ∧ v = 0)
  ∨ (∃ p e, x = S754_finite false p e ∧ 0 ≤ e + bias ∧ v = scaled (Z.pos p) e).

(** The spacing of binary64 numbers around [m * 2 ^ e], scaled. *)
Definition grid (m : positive) (e : Z) : Z :=
  2 ^ (fexp 53 1024 (Z.pos (digits2_pos m) + e) + bias).

(** ** Sample values *)

Definition empty_db : Db :=
  {| pending_verifications := ∅; otp_sessions := ∅; access_codes := [] |}.

Definition empty_world : World := {| db := empty_db; addCodeSessions := ∅ |}.

Definition alice : Tg.User :=
  {| Tg.id := 4711; Tg.first_name := "Alice"; Tg.last_name := None;
     Tg.username := Some "alice" |}.

Definition the_admin : Tg.User :=
  {| Tg.id := ADMIN_ID; Tg.first_name := "Sid"; Tg.last_name := None;
     Tg.username := None |}.

Definition alice_contact : Tg.Contact :=
  {| Tg.phone_number := "+15550100"; Tg.user_id := Some 4711 |}.

Definition bob_contact : Tg.Contact :=
  {| Tg.phone_number := "+15550199"; Tg.user_id := Some 4712 |}.

(** The binary64 value 0.5. *)
Definition one_half : spec_float := S754_finite false 4503599627370496 (-53).

(** Every awaited call resolves; [Math.random()] returns 0.5, whose radix-36
    rendering is ["0.i"], whenever it is called. *)
Definition env_ok : Env :=
  {| db_get_ok := true; db_set_ok := true; db_delete_ok := true;
     batch_commit_ok := true; send_ok := true; server_time := 1700000000;
     random := one_half; random36 := λ _, "0.i" |}.

(** Every awaited call resolves but the edit of the preview message. *)
Definition env_edit_rejected : Env :=
  {| db_get_ok := true; db_set_ok := true; db_delete_ok := true;
     batch_commit_ok := true; send_ok := false; server_time := 1700000000;
     random := one_half; random36 := λ _, "0.i" |}.

Definition fresh_session : Session :=
  {| step := ASK_COUNT; count := None; name := None; link := None;
     codes := None |}.

(** A state in which the admin's dialog holds [s] and the store is empty. *)
Definition admin_world (s : Session) : World :=
  {| db := empty_db; addCodeSessions := {[ADMIN_ID := s]} |}.

Definition preview_session : Session :=
  {| step := PREVIEW; count := Some 2; name := Some "Premium Pack";
     link := Some "http://example.com/x";
     codes := Some ["REDM-4FZYO8"; "REDM-K2M9QA"] |}.

(** The renderings of three successive values of [Math.random()]. *)
Definition env_three_codes : Env :=
  {| db_get_ok := true; db_set_ok := true; db_delete_ok := true;
     batch_commit_ok := true; send_ok := true; server_time := 1700000000;
     random := one_half;
     random36 := λ i, match i with
                      | O => "0.4fzyo82mvyr"
                      | S O => "0.k2m9qa71b3"
                      | _ => "0.z00x1c9d2e"
                      end |}.

(** ** The remaining handlers: regenerate, cancel, the list of codes *)

(** Calls to the chat platform, with the text they carry. *)
Inductive Call :=
| Reply (text : string)
| EditMessageText (text : string)
| AnswerCbQuery (text : option string).

(** The handler monad over these calls. *)
Module CallM.

Record St := {
  world : World;
  calls : list Call
}.

Definition C (A : Type) : Type := St → option A * St.

#[global] Instance C_ret : MRet C := λ A a s, (Some a, s).

#[global] Instance C_bind : MBind C := λ A B f m s,
  match m s with
  | (Some a, s') => f a s'
  | (None, s') => (None, s')
  end.

Definition throw {A} : C A := λ s, (None, s).

Definition try_catch {A} (body handler : C A) : C A := λ s,
  match body s with
  | (Some a, s') => (Some a, s')
  | (None, s') => handler s'
  end.

Definition gets {A} (f : World → A) : C A := λ s, (Some (f (world s)), s).

Definition modify (f : World → World) : C unit := λ s,
  (Some tt, {| world := f (world s); calls := calls s |}).

(** A call whose result is not waited for. *)
Definition call (c : Call) : C unit := λ s,
  (Some tt, {| world := world s; calls := (calls s ++ [c])%list |}).

(** [await] of a call: it resolves or rejects. *)
Definition await_call (ok : bool) (c : Call) : C unit :=
  call c ;; if ok then mret tt else throw.

Definition run {A} (m : C A) (w : World) : option A * St :=
  m {| world := w; calls := [] |}.

Definition world_after {A} (m : C A) (w : World) : World := world (snd (run m w)).
Definition calls_by {A} (m : C A) (w : World) : list Call := calls (snd (run m w)).
Definition result_of {A} (m : C A) (w : World) : option A := fst (run m w).

End CallM.

(** The line feed. *)
Definition nl : string := String "010" "".

(** [`${v}`] for a property that may be [undefined]. *)
Definition interpolate (v : option string) : string := default "undefined" v.

(** [bot.action('regenerate_codes')]: the promise of the answer is returned
    to the router, which waits for it. *)
Definition regenerate_codes (env : Env) (from : Tg.User) : CallM.C unit :=
  session ← CallM.gets (λ w, addCodeSessions w !! Tg.id from);
  match session with
  | None => CallM.await_call (send_ok env) (AnswerCbQuery None)
  | Some session =>
      let codes := generate_codes env (count session) in
      CallM.modify (with_sessions (alter (set_codes (Some codes)) (Tg.id from))) ;;
      let preview :=
        "🔄 *Regenerated Codes for " +:+ interpolate (name session) +:+ "*"
        +:+ nl +:+ nl
        +:+ join nl (List.map (λ c, "`" +:+ c +:+ "`") codes) in
      CallM.call (EditMessageText preview)
  end.

(** [bot.action('cancel_add')] *)
Definition cancel_add (from : Tg.User) : CallM.C unit :=
  CallM.modify (with_sessions (delete (Tg.id from))) ;;
  CallM.call (EditMessageText "❌ Cancelled.").

(** What the surroundings of a request for the list of codes decide: whether
    the query resolves and with which documents (those of [access_codes]
    with [isUsed == false], ordered by [resourceName]), and which awaited
    calls to the chat platform resolve; the answer to a button in a [catch]
    block is a call of its own. *)
Record ListEnv := {
  query_ok : bool;
  snapshot : list AccessCode;
  reply_ok : bool;
  edit_ok : bool;
  answer_ok : bool;
  answer_in_catch_ok : bool
}.

(** The body of [snapshot.forEach] in [fetchAvailableCodes], on the pair of
    [message] and [currentResource]. *)
Definition list_entry (acc : string * string) (data : AccessCode)
  : string * string :=
  let '(message, currentResource) := acc in
  let '(message, currentResource) :=
    if negb (String.eqb currentResource (resourceName data))
    then (message +:+ nl +:+ "📂 *" +:+ resourceName data +:+ "*" +:+ nl,
          resourceName data)
    else (message, currentResource) in
  (message +:+ "• `" +:+ code data +:+ "`" +:+ nl, currentResource).

Definition list_title : string := "📋 *Available Resource Codes*" +:+ nl +:+ nl.

(** The message that [fetchAvailableCodes] builds from a snapshot. *)
Definition list_message (docs : list AccessCode) : string :=
  match docs with
  | [] => "📭 No available codes found in the database."
  | _ => fst (fold_left list_entry docs (list_title, ""))
  end.

(** [fetchAvailableCodes]: a rejected query is logged and thrown again. *)
Definition fetchAvailableCodes (lenv : ListEnv) : CallM.C string :=
  CallM.try_catch
    (if query_ok lenv then mret (list_message (snapshot lenv)) else CallM.throw)
    CallM.throw.

(** [bot.command('getcodes')]: the handler is [async], so the promise it
    returns to the unauthorized is waited for; the reply in [catch] is not. *)
Definition getcodes (lenv : ListEnv) (from : Tg.User) : CallM.C unit :=
  if negb (bool_decide (Tg.id from = ADMIN_ID))
  then CallM.await_call (reply_ok lenv) (Reply "⛔ Unauthorized.")
  else
    CallM.try_catch
      (message ← fetchAvailableCodes lenv;
       CallM.await_call (reply_ok lenv) (Reply message))
      (CallM.call
         (Reply "⚠️ Failed to fetch codes. Check Render logs for details.")).

(** [bot.action('refresh_codes_list')], [async] as well. *)
Definition refresh_codes_list (lenv : ListEnv) (from : Tg.User) : CallM.C unit :=
  if negb (bool_decide (Tg.id from = ADMIN_ID))
  then CallM.await_call (answer_ok lenv) (AnswerCbQuery (Some "Unauthorized."))
  else
    CallM.try_catch
      (message ← fetchAvailableCodes lenv;
       CallM.await_call (edit_ok lenv) (EditMessageText message) ;;
       CallM.await_call (answer_ok lenv)
         (AnswerCbQuery (Some "List Refreshed! ✨")))
      (CallM.await_call (answer_in_catch_ok lenv)
         (AnswerCbQuery (Some "No changes found or Error."))).

(** [bot.command('admin_socials')] *)
Definition admin_socials : CallM.C unit :=
  CallM.call (Reply "📞 *Contact Admin*").

(** A message with the command [/admin_socials]: [text] is the text of a
    message that the router matches with that command, the command with
    whatever follows it.  The text handler is registered before the handler
    of the command and gets the message first; the handler of the command
    runs if the text handler calls [next()].  The result: what the text
    handler sent, the calls of the command, the state. *)
Definition admin_socials_message (env : Env) (from : Tg.User) (text : string)
    (w : World) : list Outbound * list Call * World :=
  let '(result, st) := run (on_text env from text) w in
  match result with
  | Some PassedOn =>
      (sent st, CallM.calls_by admin_socials (world st),
       CallM.world_after admin_socials (world st))
  | _ => (sent st, [], world st)
  end.

(** ** Events *)

(** A run of one handler on an update from the chat platform, with what its
    surroundings decide. *)
Inductive Event :=
| EvStart (env : Env) (from : Tg.User) (startPayload : option string)
| EvContact (env : Env) (from : Tg.User) (contact : Tg.Contact)
| EvGetcodes (lenv : ListEnv) (from : Tg.User)
| EvRefreshCodesList (lenv : ListEnv) (from : Tg.User)
| EvAddcodes (env : Env) (from : Tg.User)
| EvText (env : Env) (from : Tg.User) (text : string)
| EvConfirmAdd (env : Env) (from : Tg.User)
| EvRegenerateCodes (env : Env) (from : Tg.User)
| EvCancelAdd (from : Tg.User).

(** [ctx.from] *)
Definition sender (ev : Event) : Tg.User :=
  match ev with
  | EvStart _ from _ | EvContact _ from _ | EvGetcodes _ from
  | EvRefreshCodesList _ from | EvAddcodes _ from | EvText _ from _
  | EvConfirmAdd _ from | EvRegenerateCodes _ from | EvCancelAdd from => from
  end.

(** The state after the handler of the event has run. *)
Definition handle (ev : Event) (w : World) : World :=
  match ev with
  | EvStart env from startPayload => world_after (bot_start env from startPayload) w
  | EvContact env from contact => world_after (on_contact env from contact) w
  | EvGetcodes lenv from => CallM.world_after (getcodes lenv from) w
  | EvRefreshCodesList lenv from =>
      CallM.world_after (refresh_codes_list lenv from) w
  | EvAddcodes env from => world_after (addcodes env from) w
  | EvText env from text => world_after (on_text env from text) w
  | EvConfirmAdd env from => world_after (confirm_add env from) w
  | EvRegenerateCodes env from => CallM.world_after (regenerate_codes env from) w
  | EvCancelAdd from => CallM.world_after (cancel_add from) w
  end.

(** The state after a sequence of events, first to last. *)
Definition run_events (evs : list Event) (w : World) : World :=
  fold_left (λ w ev, handle ev w) evs w.

(** What holds of a session of the dialog at each step: the properties set
    so far, a count from 1 to 50, at most 50 codes, and at [PREVIEW] as many
    codes as the count says. *)
Definition session_ok (s : Session) : Prop :=
  (∀ cs, codes s = Some cs → (length cs ≤ 50)%nat)
  ∧ match step s with
    | ASK_COUNT => count s = None ∧ name s = None ∧ link s = None
    | ASK_NAME =>
        (∃ n, count s = Some n ∧ 1 ≤ n ≤ 50) ∧ name s = None ∧ link s = None
    | ASK_LINK =>
        (∃ n, count s = Some n ∧ 1 ≤ n ≤ 50) ∧ is_Some (name s)
        ∧ link s = None
    | PREVIEW =>
        ∃ n nm lk cs, 1 ≤ n ≤ 50 ∧ preview_of s n nm lk cs
    end.

(** Only the admin has a session, and it is well formed. *)
Definition sessions_ok (w : World) : Prop :=
  ∀ k s, addCodeSessions w !! k = Some s → k = ADMIN_ID ∧ session_ok s.

(** The record that [bot.on('contact')] writes to [otp_sessions]. *)
Definition otp_record (env : Env) (user : Tg.User) (contact : Tg.Contact)
  : OtpSession :=
  {| otp := generateOTP (random env);
     telegram_id := Tg.id user;
     telegram_name :=
       JS.join_truthy [Some (Tg.first_name user); Tg.last_name user];
     telegram_username :=
       if JS.truthy (Tg.username user)
       then default "" (Tg.username user)
       else "No Username";
     phone_number := Tg.phone_number contact;
     verified := false;
     created_at := server_time env |}.

(** The session after a text of the dialog, by the step it is at. *)
Definition text_step (env : Env) (text : string) (session : Session) : Session :=
  match step session with
  | ASK_COUNT =>
      if JS.count_rejected (JS.parseInt (JS.trim text)) then session
      else set_step ASK_NAME (set_count (JS.parseInt (JS.trim text)) session)
  | ASK_NAME => set_step ASK_LINK (set_name (Some (JS.trim text)) session)
  | ASK_LINK =>
      set_codes (Some (generate_codes env (count session)))
        (set_step PREVIEW (set_link (Some (JS.trim text)) session))
  | PREVIEW => session
  end.

(** The lines of the list of codes: a header with a resource name, or a
    code. *)
Inductive Line :=
| HeaderLine (name : string)
| CodeLine (code : string).

Definition render_line (l : Line) : string :=
  match l with
  | HeaderLine n => nl +:+ "📂 *" +:+ n +:+ "*" +:+ nl
  | CodeLine c => "• `" +:+ c +:+ "`" +:+ nl
  end.

(** The lines for a snapshot, [current] being the resource name of the last
    header (the empty string before the first). *)
Fixpoint list_lines (current : string) (docs : list AccessCode) : list Line :=
  match docs with
  | [] => []
  | d :: rest =>
      (if String.eqb current (resourceName d) then []
       else [HeaderLine (resourceName d)])
      ++ CodeLine (code d) :: list_lines (resourceName d) rest
  end%list.

(** Reading the lines back: every code with the name of the header it
    stands under ([current] before the first header). *)
Fixpoint read_lines (current : string) (lines : list Line)
  : list (string * string) :=
  match lines with
  | [] => []
  | HeaderLine n :: rest => read_lines n rest
  | CodeLine c :: rest => (current, c) :: read_lines current rest
  end.

Definition header_names (lines : list Line) : list string :=
  omap (λ l, match l with HeaderLine n => Some n | CodeLine _ => None end) lines.

(** Reading the text of the message.  [strip_prefix p s] is the rest of [s]
    after the prefix [p]; [drop_last c s] is [s] without its last character
    [c]. *)
Fixpoint strip_prefix (p s : string) : option string :=
  match p with
  | EmptyString => Some s
  | String a p' =>
      match s with
      | String b s' => if Ascii.eqb a b then strip_prefix p' s' else None
      | EmptyString => None
      end
  end.

Fixpoint drop_last (c : ascii) (s : string) : option string :=
  match s with
  | EmptyString => None
  | String a s' =>
      match s' with
      | EmptyString => if Ascii.eqb a c then Some "" else None
      | String _ _ => String a <$> drop_last c s'
      end
  end.

(** A line of the text as a header or a code; [None] for any other line. *)
Definition read_line (line : string) : option Line :=
  match strip_prefix "📂 *" line with
  | Some rest => HeaderLine <$> drop_last "*" rest
  | None =>
      match strip_prefix "• `" line with
      | Some rest => CodeLine <$> drop_last "`" rest
      | None => None
      end
  end.

(** The headers and codes in the text of a list of codes, top to bottom. *)
Definition message_lines (message : string) : option (list Line) :=
  rest ← strip_prefix list_title message;
  Some (omap read_line (split_string "010" rest)).

(** What an admin reads in the message: the codes, each with the resource
    name it stands under; and the resource names in the headers. *)
Definition read_message (message : string) : option (list (string * string)) :=
  read_lines "" <$> message_lines message.

Definition message_headers (message : string) : option (list string) :=
  header_names <$> message_lines message.

(** No line feed in the resource names and codes of the documents. *)
Definition no_line_feed (s : string) : bool :=
  string_forall (λ c, negb (Ascii.eqb c "010")) s.

Definition one_line_each (docs : list AccessCode) : Prop :=
  Forall (λ d, no_line_feed (resourceName d) = true
               ∧ no_line_feed (code d) = true) docs.

Fixpoint concat_strings (xs : list string) : string :=
  match xs with
  | [] => ""
  | x :: rest => x +:+ concat_strings rest
  end.

(** Ordered by [resourceName], as the query asks: byte by byte, every
    document before the ones that follow it. *)
Fixpoint ordered_by_name (docs : list AccessCode) : Prop :=
  match docs with
  | [] => True
  | d :: rest =>
      Forall (λ b, String.leb (resourceName d) (resourceName b) = true) rest
      ∧ ordered_by_name rest
  end.

(** Sample values for the list of codes. *)
Definition sample_docs : list AccessCode :=
  [ {| code := "REDM-AAAAAA"; resourceName := "Alpha"; downloadUrl := "http://a";
       isUsed := false; ac_created_at := 1 |};
    {| code := "REDM-BBBBBB"; resourceName := "Alpha"; downloadUrl := "http://a";
       isUsed := false; ac_created_at := 2 |};
    {| code := "REDM-CCCCCC"; resourceName := "Beta"; downloadUrl := "http://b";
       isUsed := false; ac_created_at := 3 |} ].

Definition bob : Tg.User :=
  {| Tg.id := 4712; Tg.first_name := "Bob"; Tg.last_name := Some "Builder";
     Tg.username := None |}.

(** The query and every awaited call resolve. *)
Definition lenv_ok : ListEnv :=
  {| query_ok := true; snapshot := sample_docs; reply_ok := true;
     edit_ok := true; answer_ok := true; answer_in_catch_ok := true |}.

(** Every awaited call resolves but the deletion of the pending record. *)
Definition env_delete_rejected : Env :=
  {| db_get_ok := true; db_set_ok := true; db_delete_ok := false;
     batch_commit_ok := true; send_ok := true; server_time := 1700000000;
     random := one_half; random36 := λ _, "0.i" |}.

(** ** The uptime *)

(** [/] and [%] of numbers. *)
Module Float64.

Definition div : spec_float → spec_float → spec_float :=
  SFdiv Binary64.prec Binary64.emax.

(** [x % y]: the remainder of the truncating division, with the sign of
    [x]; it is computed without rounding, being a binary64 number itself. *)
Definition rem (x y : spec_float) : spec_float :=
  match x, y with
  | S754_nan, _ | _, S754_nan => S754_nan
  | S754_infinity _, _ => S754_nan
  | _, S754_zero _ => S754_nan
  | S754_zero _, _ => x
  | S754_finite _ _ _, S754_infinity _ => x
  | S754_finite sx mx ex, S754_finite _ my ey =>
      let e := Z.min ex ey in
      let r := (Z.pos mx * 2 ^ (ex - e)) mod (Z.pos my * 2 ^ (ey - e)) in
      binary_normalize Binary64.prec Binary64.emax (cond_Zopp sx r) e sx
  end.

End Float64.

(** [getUptime], as a function of the value of [process.uptime()]. *)
Definition getUptime (uptime : spec_float) : string :=
  let hours :=
    Binary64.floor (Float64.div uptime (Binary64.of_Z 3600)) in
  let minutes :=
    Binary64.floor
      (Float64.div (Float64.rem uptime (Binary64.of_Z 3600))
         (Binary64.of_Z 60)) in
  let seconds := Binary64.floor (Float64.rem uptime (Binary64.of_Z 60)) in
  Binary64.toString hours +:+ "h " +:+ Binary64.toString minutes +:+ "m "
  +:+ Binary64.toString seconds +:+ "s".

(** A number of seconds that [process.uptime()] may return: a well-formed
    binary64 value, zero or positive. *)
Definition uptime_value (x : spec_float) : bool :=
  match x with
  | S754_zero false => true
  | S754_finite false m e => bounded Binary64.prec Binary64.emax m e
  | _ => false
  end.

(** The place of the exact value between a mantissa and its successor, as
    two more bits of the mantissa. *)
Definition location_code (l : location) : Z :=
  match l with
  | loc_Exact => 0
  | loc_Inexact Lt => 1
  | loc_Inexact Eq => 2
  | loc_Inexact Gt => 3
  end.

(** A scaled value that lies on the grid of binary64 numbers of its
    magnitude. *)
Definition on_format_grid (v : Z) : Prop :=
  ∀ a, 0 ≤ a + bias → 2 ^ (a - 1 + bias) ≤ v →
       (2 ^ (fexp 53 1024 a + bias) | v).

(** One hour, one minute and eleven seconds, and a half. *)
Definition sample_uptime : spec_float :=
  S754_finite false 8073713882759168 (-41).

(** ** Where the verification records come from *)

(** A pending record under [key] after the events [evs]: its session id is
    the non-empty payload of a [/start] of the user whose key it is. *)
Definition pending_from (evs : list Event) (key : string)
    (d : PendingVerification) : Prop :=
  session_id d ≠ ""
  ∧ ∃ env from,
      EvStart env from (Some (session_id d)) ∈ evs ∧ key = doc_key from.

(** An OTP session under [key] after the events [evs]: [key] is the path
    that the payload [p] of a [/start] names (a payload without a slash
    names itself), sent by the user whom the session names, who also shared
    a contact of their own, with the phone number stored; the code is the
    one made at that share, and the session is not verified. *)
Definition otp_session_from (evs : list Event) (key : string)
    (r : OtpSession) : Prop :=
  key ≠ "" ∧ verified r = false
  ∧ ∃ p env from env' from' contact,
      EvStart env from (Some p) ∈ evs
      ∧ document_path p = Some key
      ∧ (document_id p = true → key = p)
      ∧ EvContact env' from' contact ∈ evs
      ∧ Tg.id from' = Tg.id from
      ∧ telegram_id r = Tg.id from
      ∧ Tg.user_id contact = Some (Tg.id from)
      ∧ phone_number r = Tg.phone_number contact
      ∧ otp r = generateOTP (random env').

(** The values of [Math.random()] in the events are numbers from 0 up to,
    not including, 1. *)
Definition event_random_ok (ev : Event) : Prop :=
  match ev with
  | EvContact env _ _ => Binary64.unit_interval (random env) = true
  | _ => True
  end.

(** ** Basic facts about the monad *)

Section MonadFacts.
Context {A B : Type}.

Lemma run_bind (m : M A) (f : A → M B) (s : St) :
  (m ≫= f) s = match m s with
               | (Some a, s') => f a s'
               | (None, s') => (None, s')
               end.
Proof. reflexivity. Qed.

Lemma run_ret (a : A) (s : St) : mret (M := M) a s = (Some a, s).
Proof. reflexivity. Qed.
End MonadFacts.

(** Unfolds a handler applied to an initial state. *)
Ltac run_handler :=
  unfold world_after, sent_by, result_of, run;
  cbn [mbind mret M_bind M_ret];
  unfold settle, return_send;
  unfold try_catch, await, await_send, assign, modify, send, gets, throw,
    mbind, mret, M_bind, M_ret, id;
  cbn [world sent fst snd].

(** ** The model on examples *)

Example trim_example : JS.trim "  Premium Pack " = "Premium Pack".
Proof. reflexivity. Qed.

Example parseInt_examples :
  JS.parseInt "42" = Some 42 ∧ JS.parseInt "abc" = None
  ∧ JS.parseInt "" = None ∧ JS.parseInt "7 apples" = Some 7
  ∧ JS.parseInt "3.7" = Some 3 ∧ JS.parseInt "0x1f" = Some 31
  ∧ JS.parseInt "-5" = Some (-5) ∧ JS.parseInt "+5" = Some 5
  ∧ JS.parseInt "051" = Some 51.
Proof. repeat split. Qed.

Example count_rejected_examples :
  JS.count_rejected (JS.parseInt "0") = true
  ∧ JS.count_rejected (JS.parseInt "51") = true
  ∧ JS.count_rejected (JS.parseInt "abc") = true
  ∧ JS.count_rejected (JS.parseInt "1") = false
  ∧ JS.count_rejected (JS.parseInt "50") = false.
Proof. repeat split. Qed.

Example join_truthy_examples :
  JS.join_truthy [Some "Ada"; None] = "Ada"
  ∧ JS.join_truthy [Some "Ada"; Some "Byron"] = "Ada Byron"
  ∧ JS.join_truthy [Some "Ada"; Some ""] = "Ada".
Proof. repeat split. Qed.

(** [Math.random()] returning 0, 0.5 and the largest number below 1. *)
Example generateOTP_examples :
  generateOTP (S754_zero false) = "100000"
  ∧ generateOTP one_half = "550000"
  ∧ generateOTP (S754_finite false 9007199254740991 (-53)) = "999999".
Proof. repeat split. Qed.

Example generateResourceCode_example :
  generateResourceCode "0.4fzyo82mvyr" = "REDM-4FZYO8".
Proof. reflexivity. Qed.

(** [/addcodes], ["3"], ["Premium Pack"], ["http://example.com/x"], confirm. *)
Example admin_dialog_end_to_end :
  let env := env_three_codes in
  let w1 := world_after (addcodes env the_admin) empty_world in
  let w2 := world_after (on_text env the_admin "3") w1 in
  let w3 := world_after (on_text env the_admin "Premium Pack") w2 in
  let w4 := world_after (on_text env the_admin "http://example.com/x") w3 in
  let w5 := world_after (confirm_add env the_admin) w4 in
  sent_by (on_text env the_admin "http://example.com/x") w3
  = [Preview (Some "Premium Pack")
       ["REDM-4FZYO8"; "REDM-K2M9QA"; "REDM-Z00X1C"]
       (Some "http://example.com/x")]
  ∧ access_codes (db w5)
    = access_code_docs env "Premium Pack" "http://example.com/x"
        ["REDM-4FZYO8"; "REDM-K2M9QA"; "REDM-Z00X1C"]
  ∧ addCodeSessions w5 !! ADMIN_ID = None.
Proof. vm_compute. repeat split. Qed.

(** ** Document references *)

Lemma split_string_one (sep : ascii) (s : string) :
  string_forall (λ c, negb (Ascii.eqb c sep)) s = true →
  split_string sep s = [s].
Proof.
  induction s as [|c s IH]; [reflexivity|].
  cbn [string_forall split_string]. intros [Hc Hs]%andb_true_iff.
  apply negb_true_iff in Hc. by rewrite Hc, (IH Hs).
Qed.

Lemma has_double_slash_without_slash (s : string) :
  string_forall (λ c, negb (Ascii.eqb c "/")) s = true →
  has_double_slash s = false.
Proof.
  induction s as [|a s IH]; [reflexivity|].
  cbn [string_forall]. intros [Ha Hs]%andb_true_iff.
  apply negb_true_iff in Ha. cbn [has_double_slash].
  destruct s as [|b s']; [reflexivity|].
  by rewrite Ha, (IH Hs).
Qed.

(** A document id names the document of that id. *)
Lemma document_path_id (p : string) :
  document_id p = true → document_path p = Some p.
Proof.
  unfold document_id, document_path.
  intros [Hne Hslash]%andb_true_iff. apply negb_true_iff in Hne.
  rewrite Hne, (has_double_slash_without_slash p Hslash),
    (split_string_one "/" p Hslash).
  cbn [orb List.filter]. by rewrite Hne.
Qed.

Lemma join_nonempty (sep x : string) (xs : list string) :
  x ≠ "" → join sep (x :: xs) ≠ "".
Proof.
  intros Hx. destruct xs as [|y ys]; [exact Hx|].
  destruct x as [|c x]; [done|]. discriminate.
Qed.

(** The path of a document is never empty. *)
Lemma document_path_nonempty (p key : string) :
  document_path p = Some key → key ≠ "".
Proof.
  unfold document_path.
  destruct (String.eqb p "" || has_double_slash p); [discriminate|].
  set (segments := List.filter _ _).
  assert (Hall : Forall (λ x, x ≠ "") segments).
  { subst segments. apply Forall_forall. intros x Hx.
    apply list_elem_of_In, filter_In in Hx as [_ Hx].
    apply negb_true_iff, String.eqb_neq in Hx. exact Hx. }
  destruct segments as [|x xs]; [discriminate|].
  destruct (Nat.odd _); [|discriminate]. intros [= <-].
  apply join_nonempty. by apply Forall_inv in Hall.
Qed.

(** ** Contact sharing *)

Lemma own_contact_check (from : Tg.User) (contact : Tg.Contact) :
  Tg.user_id contact ≠ Some (Tg.id from) →
  bool_decide (Tg.user_id contact = Some (Tg.id from)) = false.
Proof. intros H. by apply bool_decide_eq_false. Qed.

(** C2. A shared contact that belongs to another user (or to nobody) is
    answered with the own-contact error, and neither the store nor the
    session map changes, whatever the store holds for the sender. *)
Theorem contact_of_another_user_changes_nothing
    (env : Env) (from : Tg.User) (contact : Tg.Contact) (w : World) :
  Tg.user_id contact ≠ Some (Tg.id from) →
  world_after (on_contact env from contact) w = w
  ∧ sent_by (on_contact env from contact) w = [OwnContactError].
Proof.
  intros H. unfold on_contact. rewrite (own_contact_check _ _ H). cbn [negb].
  run_handler. destruct (send_ok env); by destruct w.
Qed.

Lemma contact_of_another_user_changes_nothing_witness :
  world_after (on_contact env_ok alice bob_contact) empty_world = empty_world
  ∧ sent_by (on_contact env_ok alice bob_contact) empty_world = [OwnContactError].
Proof.
  apply (contact_of_another_user_changes_nothing env_ok alice bob_contact empty_world).
  vm_compute. discriminate.
Defined.

Lemma world_eta (w : World) :
  {| db := db w; addCodeSessions := addCodeSessions w |} = w.
Proof. by destruct w. Qed.

Lemma st_world_eta (w : World) (out : list Outbound) :
  world {| world := w; sent := out |} = w.
Proof. reflexivity. Qed.

(** Every run of the contact handler. *)
Lemma on_contact_run
    (env : Env) (from : Tg.User) (contact : Tg.Contact) (w : World) :
  run (on_contact env from contact) w
  = if negb (bool_decide (Tg.user_id contact = Some (Tg.id from)))
    then (if send_ok env then Some tt else None,
          {| world := w; sent := [OwnContactError] |})
    else if negb (db_get_ok env)
    then (Some tt, {| world := w; sent := [ContactError] |})
    else
      match pending_verifications (db w) !! doc_key from with
      | None => (if send_ok env then Some tt else None,
                 {| world := w; sent := [SessionExpired] |})
      | Some pendingDoc =>
          match document_path (session_id pendingDoc) with
          | None => (Some tt, {| world := w; sent := [ContactError] |})
          | Some key =>
              if negb (db_set_ok env)
              then (Some tt, {| world := w; sent := [ContactError] |})
              else
                let w1 := set_otp_session key (otp_record env from contact) w in
                if negb (db_delete_ok env)
                then (Some tt, {| world := w1; sent := [ContactError] |})
                else
                  let w2 := delete_pending (doc_key from) w1 in
                  let code := generateOTP (random env) in
                  if send_ok env
                  then (Some tt,
                        {| world := w2;
                           sent := [VerificationSuccessful code] |})
                  else (Some tt,
                        {| world := w2;
                           sent := [VerificationSuccessful code;
                                    ContactError] |})
          end
      end.
Proof.
  unfold on_contact.
  destruct (bool_decide (Tg.user_id contact = Some (Tg.id from)));
    cbn [negb]; [|run_handler; by destruct (send_ok env)].
  destruct (db_get_ok env); cbn [negb]; run_handler; [|reflexivity].
  destruct (pending_verifications (db w) !! doc_key from) as [pendingDoc|].
  2: { by destruct (send_ok env). }
  destruct (document_path (session_id pendingDoc)) as [key|];
    cbn [from_option]; [|reflexivity].
  destruct (db_set_ok env); cbn [negb world sent fst snd]; [|reflexivity].
  destruct (db_delete_ok env); cbn [negb world sent fst snd]; [|reflexivity].
  destruct (send_ok env); reflexivity.
Qed.

(** Without a pending record the handler leaves the state alone, whichever
    awaited calls resolve and whomever the contact belongs to. *)
Lemma on_contact_no_pending_world
    (env : Env) (from : Tg.User) (contact : Tg.Contact) (w : World) :
  pending_verifications (db w) !! doc_key from = None →
  world_after (on_contact env from contact) w = w.
Proof.
  intros Hnone. unfold world_after. rewrite on_contact_run, Hnone.
  by destruct (negb _), (negb (db_get_ok env)), (send_ok env).
Qed.

Lemma on_contact_no_pending_sent
    (env : Env) (from : Tg.User) (contact : Tg.Contact) (w : World) :
  pending_verifications (db w) !! doc_key from = None →
  Tg.user_id contact = Some (Tg.id from) →
  db_get_ok env = true →
  sent_by (on_contact env from contact) w = [SessionExpired].
Proof.
  intros Hnone Hown Hget. unfold sent_by.
  rewrite on_contact_run, (bool_decide_eq_true_2 _ Hown), Hget, Hnone.
  reflexivity.
Qed.

(** A session id that names no document: the handler leaves the state
    alone. *)
Lemma on_contact_no_document_world
    (env : Env) (from : Tg.User) (contact : Tg.Contact) (w : World)
    (pendingDoc : PendingVerification) :
  pending_verifications (db w) !! doc_key from = Some pendingDoc →
  document_path (session_id pendingDoc) = None →
  world_after (on_contact env from contact) w = w.
Proof.
  intros Hp Hpath. unfold world_after. rewrite on_contact_run, Hp, Hpath.
  by destruct (negb _), (negb (db_get_ok env)), (send_ok env).
Qed.

(** The state after a contact share on which every call to the store
    resolved. *)
Lemma on_contact_success_world
    (env : Env) (from : Tg.User) (contact : Tg.Contact) (w : World)
    (pendingDoc : PendingVerification) (key : string) :
  Tg.user_id contact = Some (Tg.id from) →
  db_get_ok env = true → db_set_ok env = true → db_delete_ok env = true →
  pending_verifications (db w) !! doc_key from = Some pendingDoc →
  document_path (session_id pendingDoc) = Some key →
  world_after (on_contact env from contact) w =
  delete_pending (doc_key from)
    (set_otp_session key
       {| otp := generateOTP (random env);
          telegram_id := Tg.id from;
          telegram_name :=
            JS.join_truthy [Some (Tg.first_name from); Tg.last_name from];
          telegram_username :=
            if JS.truthy (Tg.username from)
            then default "" (Tg.username from)
            else "No Username";
          phone_number := Tg.phone_number contact;
          verified := false;
          created_at := server_time env |} w).
Proof.
  intros Hown Hget Hset Hdel Hpending Hpath. unfold world_after.
  rewrite on_contact_run, (bool_decide_eq_true_2 _ Hown), Hget, Hset, Hdel,
    Hpending, Hpath.
  cbn [negb]. by destruct (send_ok env).
Qed.

(** C3. A contact share by a sender without a pending record writes and
    deletes nothing; when the contact is the sender's own and the lookup
    resolves, the reply is the session-expired message.  In particular a
    second contact share after one that went through changes nothing. *)
Theorem contact_without_pending_is_noop :
  (∀ (env : Env) (from : Tg.User) (contact : Tg.Contact) (w : World),
      pending_verifications (db w) !! doc_key from = None →
      world_after (on_contact env from contact) w = w
      ∧ (Tg.user_id contact = Some (Tg.id from) → db_get_ok env = true →
         sent_by (on_contact env from contact) w = [SessionExpired]))
  ∧ (∀ (env1 env2 : Env) (from : Tg.User) (contact1 contact2 : Tg.Contact)
       (w : World) (pendingDoc : PendingVerification),
      Tg.user_id contact1 = Some (Tg.id from) →
      db_get_ok env1 = true → db_set_ok env1 = true → db_delete_ok env1 = true →
      pending_verifications (db w) !! doc_key from = Some pendingDoc →
      let w1 := world_after (on_contact env1 from contact1) w in
      world_after (on_contact env2 from contact2) w1 = w1).
Proof.
  split.
  - intros env from contact w Hnone. split.
    + by apply on_contact_no_pending_world.
    + intros. by apply on_contact_no_pending_sent.
  - intros env1 env2 from contact1 contact2 w pendingDoc Hown Hget Hset Hdel Hp w1.
    destruct (document_path (session_id pendingDoc)) as [key|] eqn:Hpath.
    + apply on_contact_no_pending_world. subst w1.
      rewrite (on_contact_success_world _ _ _ _ _ key Hown Hget Hset Hdel Hp
                 Hpath).
      cbn. apply lookup_delete_eq.
    + assert (Hw1 : w1 = w)
        by (subst w1; by apply (on_contact_no_document_world _ _ _ _ pendingDoc)).
      rewrite Hw1. by apply (on_contact_no_document_world _ _ _ _ pendingDoc).
Qed.

Lemma contact_without_pending_is_noop_witness :
  (world_after (on_contact env_ok alice alice_contact) empty_world = empty_world
   ∧ sent_by (on_contact env_ok alice alice_contact) empty_world = [SessionExpired])
  ∧ (let w := set_pending (doc_key alice)
                {| session_id := "abc"; timestamp := 0 |} empty_world in
     let w1 := world_after (on_contact env_ok alice alice_contact) w in
     world_after (on_contact env_ok alice alice_contact) w1 = w1).
Proof.
  split.
  - destruct (proj1 contact_without_pending_is_noop
                env_ok alice alice_contact empty_world) as [Hw Hs].
    + reflexivity.
    + split; [exact Hw | apply Hs; reflexivity].
  - exact (proj2 contact_without_pending_is_noop env_ok env_ok alice
             alice_contact alice_contact _
             {| session_id := "abc"; timestamp := 0 |}
             eq_refl eq_refl eq_refl eq_refl
             (lookup_insert_eq _ _ _)).
Defined.

(** C1, as the code has it.  [/start p] with a payload that is a document
    id (not empty, no slash), followed by a share of the sender's own
    contact, with every call to the store resolving: after [/start] the
    pending record under the sender's id, written as a decimal numeral,
    holds [p]; after the share the collection of OTP sessions is the old one
    with the key [p] set to a record that carries the code made at the
    share, the sender's id, the shared phone number and [verified = false];
    the pending record of the sender is gone, and the pending records of the
    other users are as before. *)
Theorem start_then_contact_issues_otp
    (env1 env2 : Env) (from : Tg.User) (contact : Tg.Contact)
    (p : string) (w : World) :
  document_id p = true →
  Tg.user_id contact = Some (Tg.id from) →
  db_set_ok env1 = true →
  db_get_ok env2 = true → db_set_ok env2 = true → db_delete_ok env2 = true →
  let w1 := world_after (bot_start env1 from (Some p)) w in
  let w2 := world_after (on_contact env2 from contact) w1 in
  ∃ rec : OtpSession,
    otp_sessions (db w2) = <[p := rec]> (otp_sessions (db w))
    ∧ otp_sessions (db w2) !! p = Some rec
    ∧ otp rec = generateOTP (random env2)
    ∧ telegram_id rec = Tg.id from
    ∧ phone_number rec = Tg.phone_number contact
    ∧ verified rec = false
    ∧ pending_verifications (db w1) !! pretty (Tg.id from)
      = Some {| session_id := p; timestamp := server_time env1 |}
    ∧ pending_verifications (db w2) !! pretty (Tg.id from) = None
    ∧ pending_verifications (db w2)
      = delete (pretty (Tg.id from)) (pending_verifications (db w))
    ∧ access_codes (db w2) = access_codes (db w)
    ∧ addCodeSessions w2 = addCodeSessions w.
Proof.
  intros Hid Hown Hset1 Hget Hset Hdel w1 w2.
  assert (Hp : p ≠ "") by (intros ->; discriminate Hid).
  assert (Hw1 : w1 = set_pending (doc_key from)
                       {| session_id := p; timestamp := server_time env1 |} w).
  { subst w1. unfold bot_start.
    assert (JS.truthy (Some p) = true) as -> by (by destruct p).
    rewrite Hset1. cbn [negb]. run_handler.
    destruct (send_ok env1); reflexivity. }
  assert (Hpending : pending_verifications (db w1) !! doc_key from
                     = Some {| session_id := p; timestamp := server_time env1 |}).
  { rewrite Hw1. cbn. apply lookup_insert_eq. }
  subst w2.
  rewrite (on_contact_success_world _ _ _ _ _ p Hown Hget Hset Hdel Hpending
             (document_path_id p Hid)).
  eexists.
  split; [rewrite Hw1; reflexivity|].
  split; [cbn; apply lookup_insert_eq|].
  do 4 (split; [reflexivity|]).
  split; [exact Hpending|].
  split; [cbn; apply lookup_delete_eq|].
  split; [rewrite Hw1; cbn; apply delete_insert_eq|].
  split; rewrite Hw1; reflexivity.
Qed.

Lemma start_then_contact_issues_otp_witness :
  let w1 := world_after (bot_start env_ok alice (Some "abc")) empty_world in
  let w2 := world_after (on_contact env_ok alice alice_contact) w1 in
  ∃ rec : OtpSession,
    otp_sessions (db w2) = <["abc" := rec]> (otp_sessions (db empty_world))
    ∧ otp_sessions (db w2) !! "abc" = Some rec
    ∧ otp rec = generateOTP (random env_ok)
    ∧ telegram_id rec = Tg.id alice
    ∧ phone_number rec = Tg.phone_number alice_contact
    ∧ verified rec = false
    ∧ pending_verifications (db w1) !! pretty (Tg.id alice)
      = Some {| session_id := "abc"; timestamp := server_time env_ok |}
    ∧ pending_verifications (db w2) !! pretty (Tg.id alice) = None
    ∧ pending_verifications (db w2)
      = delete (pretty (Tg.id alice)) (pending_verifications (db empty_world))
    ∧ access_codes (db w2) = access_codes (db empty_world)
    ∧ addCodeSessions w2 = addCodeSessions empty_world.
Proof.
  apply (start_then_contact_issues_otp env_ok env_ok alice alice_contact
           "abc" empty_world); reflexivity.
Defined.

(** C1, as stated, fails: the payload ["a/b"] is not empty, yet with every
    call to the store and to the chat platform resolving, the share of the
    sender's own contact stores no OTP session; [doc] refuses the session
    id, the handler answers with the contact error, and the pending record
    stays. *)
Lemma start_then_contact_refuses_path_payload :
  let w1 := world_after (bot_start env_ok alice (Some "a/b")) empty_world in
  let w2 := world_after (on_contact env_ok alice alice_contact) w1 in
  "a/b" ≠ ""
  ∧ Tg.user_id alice_contact = Some (Tg.id alice)
  ∧ document_path "a/b" = None
  ∧ otp_sessions (db w2) !! "a/b" = None
  ∧ otp_sessions (db w2) = otp_sessions (db empty_world)
  ∧ pending_verifications (db w2) !! pretty (Tg.id alice)
    = Some {| session_id := "a/b"; timestamp := server_time env_ok |}
  ∧ sent_by (on_contact env_ok alice alice_contact) w1 = [ContactError].
Proof.
  intros w1 w2. split; [discriminate|]. split; [reflexivity|].
  split; [reflexivity|].
  assert (Hw2 : w2 = w1) by reflexivity.
  rewrite Hw2. repeat split.
Qed.

(** ** The admin dialog *)

(** C4. [/addcodes] from any user but the admin is answered with
    "Unauthorized"; the session map and the store stay as they were. *)
Theorem addcodes_rejects_other_users (env : Env) (from : Tg.User) (w : World) :
  Tg.id from ≠ ADMIN_ID →
  world_after (addcodes env from) w = w
  ∧ sent_by (addcodes env from) w = [Unauthorized].
Proof.
  intros H. unfold addcodes. rewrite (bool_decide_eq_false_2 _ H). cbn [negb].
  run_handler. destruct (send_ok env); by destruct w.
Qed.

Lemma addcodes_rejects_other_users_witness :
  world_after (addcodes env_ok alice) empty_world = empty_world
  ∧ sent_by (addcodes env_ok alice) empty_world = [Unauthorized].
Proof.
  apply (addcodes_rejects_other_users env_ok alice empty_world).
  vm_compute. discriminate.
Defined.

(** The admin's own [/addcodes] starts a fresh session at [ASK_COUNT]. *)
Lemma addcodes_starts_session (env : Env) (from : Tg.User) (w : World) :
  Tg.id from = ADMIN_ID →
  addCodeSessions (world_after (addcodes env from) w) !! ADMIN_ID
  = Some {| step := ASK_COUNT; count := None; name := None;
            link := None; codes := None |}
  ∧ db (world_after (addcodes env from) w) = db w.
Proof.
  intros H. unfold addcodes. rewrite (bool_decide_eq_true_2 _ H). cbn [negb].
  run_handler. cbn. rewrite H. split; [apply lookup_insert_eq | reflexivity].
Qed.

(** Two assignments to the session under [key], seen from the map. *)
Lemma alter_alter_lookup (f g : Session → Session) (key : Z)
    (m : gmap Z Session) (s : Session) :
  m !! key = Some s →
  alter g key (alter f key m) = <[key := g (f s)]> m.
Proof.
  intros H. apply map_eq. intros k. destruct (decide (key = k)) as [<-|Hne].
  - by rewrite lookup_alter_eq, lookup_alter_eq, H, lookup_insert_eq.
  - by rewrite lookup_alter_ne, lookup_alter_ne, lookup_insert_ne.
Qed.

(** What the text handler does at each step, as one equation per step. *)
Section TextHandler.
Variables (env : Env) (from : Tg.User) (text : string) (w : World)
          (session : Session).
Hypothesis Hsession : addCodeSessions w !! Tg.id from = Some session.

Lemma on_text_ask_count_rejected :
  step session = ASK_COUNT →
  JS.count_rejected (JS.parseInt (JS.trim text)) = true →
  run (on_text env from text) w
  = (if send_ok env then Some Consumed else None,
     {| world := w; sent := [InvalidNumber] |}).
Proof using Hsession.
  intros Hstep Hrej. unfold run, on_text.
  rewrite run_bind. unfold gets at 1. cbn [world]. rewrite Hsession, Hstep, Hrej.
  run_handler. by destruct (send_ok env).
Qed.

Lemma on_text_ask_count_accepted :
  step session = ASK_COUNT →
  JS.count_rejected (JS.parseInt (JS.trim text)) = false →
  run (on_text env from text) w
  = (Some Consumed,
     {| world :=
          with_sessions
            (<[Tg.id from :=
                 set_step ASK_NAME
                   (set_count (JS.parseInt (JS.trim text)) session)]>) w;
        sent := [AskName] |}).
Proof using Hsession.
  intros Hstep Hrej. unfold run, on_text.
  rewrite run_bind. unfold gets at 1. cbn [world]. rewrite Hsession, Hstep, Hrej.
  run_handler. unfold with_sessions. cbn [db addCodeSessions].
  by rewrite (alter_alter_lookup _ _ _ _ _ Hsession).
Qed.

Lemma on_text_ask_name :
  step session = ASK_NAME →
  run (on_text env from text) w
  = (Some Consumed,
     {| world :=
          with_sessions
            (<[Tg.id from :=
                 set_step ASK_LINK (set_name (Some (JS.trim text)) session)]>) w;
        sent := [AskLink] |}).
Proof using Hsession.
  intros Hstep. unfold run, on_text.
  rewrite run_bind. unfold gets at 1. cbn [world]. rewrite Hsession, Hstep.
  run_handler. unfold with_sessions. cbn [db addCodeSessions].
  by rewrite (alter_alter_lookup _ _ _ _ _ Hsession).
Qed.

Lemma on_text_ask_link :
  step session = ASK_LINK →
  run (on_text env from text) w
  = (Some Consumed,
     {| world :=
          with_sessions
            (<[Tg.id from :=
                 set_codes (Some (generate_codes env (count session)))
                   (set_step PREVIEW
                      (set_link (Some (JS.trim text)) session))]>) w;
        sent := [Preview (name session)
                   (generate_codes env (count session))
                   (Some (JS.trim text))] |}).
Proof using Hsession.
  intros Hstep. unfold run, on_text.
  rewrite run_bind. unfold gets at 1. cbn [world]. rewrite Hsession, Hstep.
  run_handler. unfold with_sessions. cbn [db addCodeSessions].
  rewrite (alter_alter_lookup _ _ _ _ _ Hsession).
  do 3 f_equal. apply map_eq. intros k.
  destruct (decide (Tg.id from = k)) as [<-|Hne].
  - by rewrite lookup_alter_eq, !lookup_insert_eq.
  - by rewrite lookup_alter_ne, !lookup_insert_ne.
Qed.

Lemma on_text_preview :
  step session = PREVIEW →
  run (on_text env from text) w
  = (Some Consumed, {| world := w; sent := [] |}).
Proof using Hsession.
  intros Hstep. unfold run, on_text.
  rewrite run_bind. unfold gets at 1. cbn [world]. rewrite Hsession, Hstep.
  reflexivity.
Qed.
End TextHandler.

(** Without a session the event goes on to the next handler. *)
Lemma on_text_without_session (env : Env) (from : Tg.User) (text : string)
    (w : World) :
  addCodeSessions w !! Tg.id from = None →
  run (on_text env from text) w = (Some PassedOn, {| world := w; sent := [] |}).
Proof.
  intros H. unfold run, on_text.
  rewrite run_bind. unfold gets at 1. cbn [world]. by rewrite H.
Qed.

(** ** Reading a count *)

Lemma digit_not_space (c : ascii) :
  is_digit c = true →
  JS.ws1 c = false
  ∧ (∀ b, JS.ws2 c b = false) ∧ (∀ a, JS.ws2 a c = false)
  ∧ (∀ a b, JS.ws3 c a b = false) ∧ (∀ a b, JS.ws3 a b c = false).
Proof.
  destruct c as [[] [] [] [] [] [] [] []]; intros H; try discriminate H;
    (split; [reflexivity|]);
    (split; [reflexivity|]);
    (split; [intros; unfold JS.ws2; cbn; apply andb_false_r|]);
    (split; [reflexivity|]);
    intros; unfold JS.ws3; cbn; by rewrite !andb_false_r.
Qed.

Lemma digit_value_decimal (c : ascii) :
  is_digit c = true → JS.digit_value 10 c = Some (JS.code c - 48).
Proof.
  destruct c as [[] [] [] [] [] [] [] []]; intros H; try discriminate H;
    reflexivity.
Qed.

Lemma digit_not_sign (c : ascii) (s : string) :
  is_digit c = true → JS.strip_sign (String c s) = (false, String c s).
Proof.
  destruct c as [[] [] [] [] [] [] [] []]; intros H; try discriminate H;
    reflexivity.
Qed.

Lemma trimStart_digit (c : ascii) (s : string) :
  is_digit c = true → JS.trimStart (String c s) = String c s.
Proof.
  intros H. destruct (digit_not_space c H) as (H1 & H2 & _ & H3 & _).
  cbn [JS.trimStart]. rewrite H1.
  destruct s as [|b s]; [reflexivity|]. rewrite H2.
  destruct s as [|a s]; [reflexivity|]. by rewrite H3.
Qed.

Lemma trimStart_rev_digit (c : ascii) (s : string) :
  is_digit c = true → JS.trimStart_rev (String c s) = String c s.
Proof.
  intros H. destruct (digit_not_space c H) as (H1 & _ & H2 & _ & H3).
  cbn [JS.trimStart_rev]. rewrite H1.
  destruct s as [|b s]; [reflexivity|]. rewrite H2.
  destruct s as [|a s]; [reflexivity|]. by rewrite H3.
Qed.

Lemma rev_string_involutive (s : string) : JS.rev_string (JS.rev_string s) = s.
Proof.
  unfold JS.rev_string.
  by rewrite list_ascii_of_string_of_list_ascii, rev_involutive,
    string_of_list_ascii_of_string.
Qed.

Lemma numeral_value_digits (s : string) (acc n : Z) :
  numeral_value s acc = Some n →
  Forall (λ c, is_digit c = true) (list_ascii_of_string s).
Proof.
  revert acc. induction s as [|c s IH]; intros acc H; cbn in *.
  - constructor.
  - destruct (JS.between 48 57 c) eqn:Hc; [|discriminate].
    constructor; [exact Hc | by eapply IH].
Qed.

(** The first character of a reversed non-empty run of digits is a digit. *)
Lemma rev_string_digits (s : string) :
  s ≠ EmptyString →
  Forall (λ c, is_digit c = true) (list_ascii_of_string s) →
  ∃ c r, JS.rev_string s = String c r ∧ is_digit c = true.
Proof.
  intros Hne Hall. unfold JS.rev_string.
  apply Forall_rev in Hall.
  destruct (List.rev (list_ascii_of_string s)) as [|c r] eqn:Hrev.
  - exfalso. apply Hne.
    rewrite <- (string_of_list_ascii_of_string s),
      <- (rev_involutive (list_ascii_of_string s)), Hrev. reflexivity.
  - exists c, (string_of_list_ascii r). split; [reflexivity|].
    by inversion Hall.
Qed.

Lemma trim_numeral (s : string) (n : Z) :
  decimal_numeral s = Some n → JS.trim s = s.
Proof.
  intros H. destruct s as [|c s]; [discriminate|].
  pose proof (numeral_value_digits _ _ _ H) as Hall.
  assert (Hc : is_digit c = true) by (by inversion Hall).
  unfold JS.trim. rewrite (trimStart_digit _ _ Hc). unfold JS.trimEnd.
  destruct (rev_string_digits (String c s)) as (d & r & Hrev & Hd);
    [discriminate | exact Hall |].
  rewrite Hrev, (trimStart_rev_digit _ _ Hd), <- Hrev.
  apply rev_string_involutive.
Qed.

Lemma parse_digits_numeral (s : string) (acc n : Z) :
  numeral_value s acc = Some n →
  JS.parse_digits 10 s (Some acc) = Some n.
Proof.
  revert acc. induction s as [|c s IH]; intros acc H; cbn in *.
  - exact H.
  - destruct (JS.between 48 57 c) eqn:Hc; [|discriminate].
    rewrite (digit_value_decimal c Hc). by apply IH.
Qed.

(** On a decimal numeral [parseInt] returns the value it denotes. *)
Lemma parseInt_numeral (s : string) (n : Z) :
  decimal_numeral s = Some n → JS.parseInt s = Some n.
Proof.
  intros H. destruct s as [|c s]; [discriminate|].
  pose proof (numeral_value_digits _ _ _ H) as Hall.
  assert (Hc : is_digit c = true) by (by inversion Hall).
  unfold JS.parseInt. rewrite (trimStart_digit _ _ Hc).
  rewrite (digit_not_sign c s Hc).
  assert (JS.strip_hex_prefix (String c s) = (10, String c s)) as ->.
  { destruct s as [|d s]; [by destruct c as [[] [] [] [] [] [] [] []]|].
    assert (Hd : is_digit d = true).
    { inversion Hall as [|? ? _ Hall']. by inversion Hall'. }
    unfold JS.strip_hex_prefix.
    destruct c as [[] [] [] [] [] [] [] []]; try reflexivity;
      destruct d as [[] [] [] [] [] [] [] []]; try reflexivity;
      discriminate Hd. }
  cbn [JS.parse_digits]. rewrite (digit_value_decimal c Hc).
  unfold decimal_numeral in H. cbn [numeral_value] in H.
  fold (is_digit c) in H. rewrite Hc in H.
  cbn [default]. by rewrite (parse_digits_numeral _ _ _ H).
Qed.

Lemma admin_world_lookup (s : Session) :
  addCodeSessions (admin_world s) !! Tg.id the_admin = Some s.
Proof. apply lookup_singleton_eq. Qed.

(** C7, as the code has it.  At [ASK_COUNT] the decision is taken on
    [parseInt] of the trimmed text: when that is [NaN], at most 0 or above
    50, the handler answers "Invalid number" and changes nothing, and since
    it returns that reply it settles as the reply does; otherwise the
    value, which lies between 1 and 50, becomes the count and the step
    becomes [ASK_NAME], with every other property of the session, the other
    sessions and the store as before.  Every text that is a decimal numeral
    between 1 and 50 is accepted with the value it denotes. *)
Theorem ask_count_follows_parseInt
    (env : Env) (from : Tg.User) (text : string) (w : World)
    (session : Session) :
  addCodeSessions w !! Tg.id from = Some session →
  step session = ASK_COUNT →
  let r := JS.parseInt (JS.trim text) in
  (JS.count_rejected r = true →
   run (on_text env from text) w
   = (if send_ok env then Some Consumed else None,
      {| world := w; sent := [InvalidNumber] |}))
  ∧ (JS.count_rejected r = false →
     ∃ n, r = Some n ∧ 1 ≤ n ≤ 50
          ∧ run (on_text env from text) w
            = (Some Consumed,
               {| world :=
                    with_sessions
                      (<[Tg.id from :=
                           {| step := ASK_NAME; count := Some n;
                              name := name session; link := link session;
                              codes := codes session |}]>) w;
                  sent := [AskName] |}))
  ∧ (count_text text = true →
     ∃ n, decimal_numeral text = Some n ∧ r = Some n
          ∧ JS.count_rejected r = false).
Proof.
  intros Hsession Hstep r. repeat split.
  - intros Hrej. by apply on_text_ask_count_rejected with (session := session).
  - intros Hacc.
    rewrite (on_text_ask_count_accepted env from text w session Hsession Hstep Hacc).
    fold r. destruct r as [n|]; [|discriminate Hacc].
    exists n. cbn in Hacc. split; [reflexivity|]. split; [lia|reflexivity].
  - unfold count_text. intros Hct.
    destruct (decimal_numeral text) as [n|] eqn:Hn; [|discriminate Hct].
    exists n. subst r.
    rewrite (trim_numeral _ _ Hn), (parseInt_numeral _ _ Hn).
    split; [reflexivity|]. split; [reflexivity|]. cbn. lia.
Qed.

Lemma ask_count_follows_parseInt_witness :
  ∃ n, JS.parseInt (JS.trim "12") = Some n ∧ 1 ≤ n ≤ 50
       ∧ run (on_text env_ok the_admin "12") (admin_world fresh_session)
         = (Some Consumed,
            {| world :=
                 with_sessions
                   (<[Tg.id the_admin :=
                        {| step := ASK_NAME; count := Some n;
                           name := None; link := None; codes := None |}]>)
                   (admin_world fresh_session);
               sent := [AskName] |}).
Proof.
  apply (ask_count_follows_parseInt env_ok the_admin "12"
           (admin_world fresh_session) fresh_session
           (admin_world_lookup fresh_session) eq_refl).
  reflexivity.
Defined.

(** C7, as stated, fails: ["7 apples"] is not a positive integer, yet the
    handler stores the count 7 and moves on to [ASK_NAME]. *)
Lemma ask_count_accepts_text_after_digits :
  count_text "7 apples" = false
  ∧ result_of (on_text env_ok the_admin "7 apples") (admin_world fresh_session)
    = Some Consumed
  ∧ sent_by (on_text env_ok the_admin "7 apples") (admin_world fresh_session)
    = [AskName]
  ∧ addCodeSessions
      (world_after (on_text env_ok the_admin "7 apples")
         (admin_world fresh_session)) !! ADMIN_ID
    = Some {| step := ASK_NAME; count := Some 7; name := None; link := None;
              codes := None |}
  ∧ world_after (on_text env_ok the_admin "7 apples") (admin_world fresh_session)
    ≠ admin_world fresh_session.
Proof.
  unfold result_of, sent_by, world_after.
  rewrite (on_text_ask_count_accepted env_ok the_admin "7 apples"
             (admin_world fresh_session) fresh_session
             (admin_world_lookup fresh_session) eq_refl eq_refl).
  cbn [fst snd world sent].
  assert (Hlook : addCodeSessions
            (with_sessions
               (<[Tg.id the_admin :=
                    set_step ASK_NAME
                      (set_count (JS.parseInt (JS.trim "7 apples"))
                         fresh_session)]>)
               (admin_world fresh_session)) !! ADMIN_ID
          = Some {| step := ASK_NAME; count := Some 7; name := None;
                    link := None; codes := None |}).
  { cbn [with_sessions addCodeSessions]. apply lookup_insert_eq. }
  split; [reflexivity|]. split; [reflexivity|]. split; [reflexivity|].
  split; [exact Hlook|].
  intros Heq. rewrite Heq in Hlook.
  pose proof (admin_world_lookup fresh_session) as H0.
  change (Tg.id the_admin) with ADMIN_ID in H0.
  rewrite H0 in Hlook. discriminate Hlook.
Qed.

(** C9, as the code has it.  At [ASK_NAME] the resource name becomes the
    text without its leading and trailing white space, and the step becomes
    [ASK_LINK]; the rest of the session, the other sessions and the store
    stay as they were.  A text that has no white space at its ends is stored
    character for character. *)
Theorem ask_name_stores_trimmed_text
    (env : Env) (from : Tg.User) (text : string) (w : World)
    (session : Session) :
  addCodeSessions w !! Tg.id from = Some session →
  step session = ASK_NAME →
  run (on_text env from text) w
  = (Some Consumed,
     {| world :=
          with_sessions
            (<[Tg.id from :=
                 {| step := ASK_LINK; count := count session;
                    name := Some (JS.trim text); link := link session;
                    codes := codes session |}]>) w;
        sent := [AskLink] |})
  ∧ (JS.trim text = text →
     name <$> addCodeSessions (world_after (on_text env from text) w)
                !! Tg.id from
     = Some (Some text)).
Proof.
  intros Hsession Hstep.
  unfold world_after.
  rewrite (on_text_ask_name env from text w session Hsession Hstep).
  split; [reflexivity|].
  intros Htrim. cbn [snd world with_sessions addCodeSessions].
  rewrite lookup_insert_eq. cbn. by rewrite Htrim.
Qed.

Lemma ask_name_stores_trimmed_text_witness :
  run (on_text env_ok the_admin "Premium Pack")
      (admin_world (set_step ASK_NAME fresh_session))
  = (Some Consumed,
     {| world :=
          with_sessions
            (<[Tg.id the_admin :=
                 {| step := ASK_LINK; count := None;
                    name := Some (JS.trim "Premium Pack"); link := None;
                    codes := None |}]>)
            (admin_world (set_step ASK_NAME fresh_session));
        sent := [AskLink] |})
  ∧ (JS.trim "Premium Pack" = "Premium Pack" →
     name <$> addCodeSessions
                (world_after (on_text env_ok the_admin "Premium Pack")
                   (admin_world (set_step ASK_NAME fresh_session)))
                !! Tg.id the_admin
     = Some (Some "Premium Pack")).
Proof.
  apply (ask_name_stores_trimmed_text env_ok the_admin "Premium Pack"
           (admin_world (set_step ASK_NAME fresh_session))
           (set_step ASK_NAME fresh_session)
           (admin_world_lookup _) eq_refl).
Defined.

(** C9, as stated, fails: the text ["  Premium Pack "] is stored without the
    spaces at its ends. *)
Lemma ask_name_drops_outer_spaces :
  let w := admin_world (set_step ASK_NAME fresh_session) in
  let w' := world_after (on_text env_ok the_admin "  Premium Pack ") w in
  name <$> addCodeSessions w' !! ADMIN_ID = Some (Some "Premium Pack")
  ∧ name <$> addCodeSessions w' !! ADMIN_ID ≠ Some (Some "  Premium Pack ").
Proof.
  intros w w'.
  assert (H : name <$> addCodeSessions w' !! ADMIN_ID
              = Some (Some "Premium Pack")).
  { subst w' w. unfold world_after.
    rewrite (on_text_ask_name env_ok the_admin "  Premium Pack "
               (admin_world (set_step ASK_NAME fresh_session))
               (set_step ASK_NAME fresh_session)
               (admin_world_lookup _) eq_refl).
    cbn [snd world with_sessions addCodeSessions].
    change (Tg.id the_admin) with ADMIN_ID. rewrite lookup_insert_eq.
    reflexivity. }
  split; [exact H|]. rewrite H. discriminate.
Qed.

(** C10. A text from a user whose session is at [PREVIEW] is swallowed:
    [next()] is not called, nothing is sent, and the whole state, with the
    session and the store in it, is as before. *)
Theorem text_at_preview_is_swallowed
    (env : Env) (from : Tg.User) (text : string) (w : World)
    (session : Session) :
  addCodeSessions w !! Tg.id from = Some session →
  step session = PREVIEW →
  result_of (on_text env from text) w = Some Consumed
  ∧ world_after (on_text env from text) w = w
  ∧ addCodeSessions (world_after (on_text env from text) w) !! Tg.id from
    = Some session
  ∧ sent_by (on_text env from text) w = [].
Proof.
  intros Hsession Hstep. unfold result_of, world_after, sent_by.
  rewrite (on_text_preview env from text w session Hsession Hstep).
  cbn [fst snd world sent]. by rewrite Hsession.
Qed.

Lemma text_at_preview_is_swallowed_witness :
  result_of (on_text env_ok the_admin "hello") (admin_world preview_session)
  = Some Consumed
  ∧ world_after (on_text env_ok the_admin "hello") (admin_world preview_session)
    = admin_world preview_session
  ∧ addCodeSessions
      (world_after (on_text env_ok the_admin "hello")
         (admin_world preview_session)) !! Tg.id the_admin
    = Some preview_session
  ∧ sent_by (on_text env_ok the_admin "hello") (admin_world preview_session) = [].
Proof.
  apply (text_at_preview_is_swallowed env_ok the_admin "hello"
           (admin_world preview_session) preview_session
           (admin_world_lookup _) eq_refl).
Defined.

(** ** Confirming a preview *)

Lemma build_batch_preview (env : Env) (session : Session) (nm lk : string)
    (cs : list string) :
  name session = Some nm → link session = Some lk → codes session = Some cs →
  build_batch env session = Some (access_code_docs env nm lk cs).
Proof.
  intros Hn Hl Hc. unfold build_batch. rewrite Hc, Hn, Hl. cbn. clear Hc.
  induction cs as [|c cs IH]; [reflexivity|].
  cbn. cbn in IH. by rewrite IH.
Qed.

Section ConfirmAdd.
Variables (env : Env) (from : Tg.User) (w : World) (session : Session)
          (n : Z) (nm lk : string) (cs : list string).
Hypothesis Hsession : addCodeSessions w !! Tg.id from = Some session.
Hypothesis Hpreview : preview_of session n nm lk cs.

Lemma confirm_add_unfold :
  run (confirm_add env from) w
  = try_catch
      (await (batch_commit_ok env)
         (commit_batch (access_code_docs env nm lk cs)) ;;
       await_send (send_ok env) (EditAdded (Some n) (Some nm)) ;;
       modify (with_sessions (delete (Tg.id from))))
      (send DatabaseError) {| world := w; sent := [] |}.
Proof using Hsession Hpreview.
  destruct Hpreview as (_ & Hn & Hnm & Hlk & Hcs & _).
  unfold run, confirm_add. rewrite run_bind. unfold gets at 1.
  cbn [world]. rewrite Hsession.
  unfold try_catch. rewrite run_bind.
  rewrite (build_batch_preview env session nm lk cs Hnm Hlk Hcs).
  cbn [from_option]. rewrite run_ret, Hn, Hnm. reflexivity.
Qed.

(** The batch is committed and the edit goes through: the documents are
    there and the session is gone. *)
Lemma confirm_add_committed :
  batch_commit_ok env = true → send_ok env = true →
  run (confirm_add env from) w
  = (Some tt,
     {| world := with_sessions (delete (Tg.id from))
                   (commit_batch (access_code_docs env nm lk cs) w);
        sent := [EditAdded (Some n) (Some nm)] |}).
Proof using Hsession Hpreview.
  intros Hc Hs. rewrite confirm_add_unfold, Hc, Hs. reflexivity.
Qed.

(** The commit is rejected: nothing is written, the session stays. *)
Lemma confirm_add_commit_rejected :
  batch_commit_ok env = false →
  run (confirm_add env from) w
  = (Some tt, {| world := w; sent := [DatabaseError] |}).
Proof using Hsession Hpreview.
  intros Hc. rewrite confirm_add_unfold, Hc. reflexivity.
Qed.

(** The batch is committed and the edit of the message is rejected: the
    documents are there, the [catch] block reports a database error, and
    the session stays. *)
Lemma confirm_add_edit_rejected :
  batch_commit_ok env = true → send_ok env = false →
  run (confirm_add env from) w
  = (Some tt,
     {| world := commit_batch (access_code_docs env nm lk cs) w;
        sent := [EditAdded (Some n) (Some nm); DatabaseError] |}).
Proof using Hsession Hpreview.
  intros Hc Hs. rewrite confirm_add_unfold, Hc, Hs. reflexivity.
Qed.
End ConfirmAdd.

Lemma preview_session_ok :
  preview_of preview_session 2 "Premium Pack" "http://example.com/x"
    ["REDM-4FZYO8"; "REDM-K2M9QA"].
Proof. repeat split. Qed.

(** C5 at a confirmation whose commit resolves and whose edit of the preview
    message is rejected: the two documents are written, the [catch] block
    reports a database error, and the session stays as it is, where C5 has
    the session cleared once the batch is written.  Confirming again writes
    the same two codes a second time and only then removes the session. *)
Theorem confirm_add_keeps_session_after_committed_batch :
  let w := admin_world preview_session in
  let docs := access_code_docs env_ok "Premium Pack" "http://example.com/x"
                ["REDM-4FZYO8"; "REDM-K2M9QA"] in
  let w1 := world_after (confirm_add env_edit_rejected the_admin) w in
  let w2 := world_after (confirm_add env_ok the_admin) w1 in
  access_codes (db w1) = docs
  ∧ sent_by (confirm_add env_edit_rejected the_admin) w
    = [EditAdded (Some 2) (Some "Premium Pack"); DatabaseError]
  ∧ addCodeSessions w1 !! ADMIN_ID = Some preview_session
  ∧ access_codes (db w2) = (docs ++ docs)%list
  ∧ addCodeSessions w2 !! ADMIN_ID = None.
Proof.
  intros w docs w1 w2.
  assert (Hw1 : w1 = commit_batch docs w).
  { subst w1. unfold world_after.
    by rewrite (confirm_add_edit_rejected env_edit_rejected the_admin w
                  preview_session 2 _ _ _ (admin_world_lookup _)
                  preview_session_ok eq_refl eq_refl). }
  assert (Hlook : addCodeSessions w1 !! Tg.id the_admin = Some preview_session).
  { rewrite Hw1. apply admin_world_lookup. }
  assert (Hw2 : w2 = with_sessions (delete (Tg.id the_admin))
                       (commit_batch docs w1)).
  { subst w2. unfold world_after.
    by rewrite (confirm_add_committed env_ok the_admin w1
                  preview_session 2 _ _ _ Hlook
                  preview_session_ok eq_refl eq_refl). }
  split; [by rewrite Hw1|].
  split.
  { unfold sent_by.
    by rewrite (confirm_add_edit_rejected env_edit_rejected the_admin w
                  preview_session 2 _ _ _ (admin_world_lookup _)
                  preview_session_ok eq_refl eq_refl). }
  split; [exact Hlook|].
  split; [by rewrite Hw2, Hw1|].
  rewrite Hw2. cbn [with_sessions addCodeSessions]. apply lookup_delete_eq.
Qed.

(** The two outcomes that C5 names, for every preview session: when the
    commit and the edit both resolve, the batch of [count] documents, each
    with [isUsed = false] and the stored name and link, is appended and the
    session is removed; when the commit is rejected, nothing is written, a
    database error is reported and the session stays as it is, codes
    included. *)
Lemma confirm_add_named_outcomes
    (env : Env) (from : Tg.User) (w : World) (session : Session)
    (n : Z) (nm lk : string) (cs : list string) :
  addCodeSessions w !! Tg.id from = Some session →
  preview_of session n nm lk cs →
  let docs := access_code_docs env nm lk cs in
  length docs = Z.to_nat n
  ∧ Forall (λ d, isUsed d = false ∧ resourceName d = nm ∧ downloadUrl d = lk) docs
  ∧ List.map code docs = cs
  ∧ (batch_commit_ok env = true → send_ok env = true →
     access_codes (db (world_after (confirm_add env from) w))
     = (access_codes (db w) ++ docs)%list
     ∧ addCodeSessions (world_after (confirm_add env from) w) !! Tg.id from
       = None)
  ∧ (batch_commit_ok env = false →
     world_after (confirm_add env from) w = w
     ∧ addCodeSessions (world_after (confirm_add env from) w) !! Tg.id from
       = Some session
     ∧ sent_by (confirm_add env from) w = [DatabaseError]).
Proof.
  intros Hsession Hpreview docs.
  split.
  { subst docs. unfold access_code_docs. rewrite length_map.
    by destruct Hpreview as (_ & _ & _ & _ & _ & Hlen). }
  split.
  { subst docs. unfold access_code_docs. apply Forall_forall.
    intros d Hd. apply list_elem_of_In, in_map_iff in Hd.
    destruct Hd as (c & <- & _). by cbn. }
  split.
  { subst docs. unfold access_code_docs. rewrite List.map_map. cbn.
    apply List.map_id. }
  split.
  - intros Hc Hs. unfold world_after.
    rewrite (confirm_add_committed env from w session n nm lk cs
               Hsession Hpreview Hc Hs).
    cbn [snd world with_sessions commit_batch with_db db access_codes
           addCodeSessions].
    split; [reflexivity | apply lookup_delete_eq].
  - intros Hc. unfold world_after, sent_by.
    rewrite (confirm_add_commit_rejected env from w session n nm lk cs
               Hsession Hpreview Hc).
    cbn [snd world sent]. by rewrite Hsession.
Qed.

(** ** Resource codes *)

Lemma upper_radix36_char (c : ascii) :
  radix36_char c = true → code_char (JS.upper c) = true.
Proof.
  destruct c as [[] [] [] [] [] [] [] []]; intros H; try discriminate H;
    reflexivity.
Qed.

Lemma toUpperCase_length (s : string) :
  String.length (JS.toUpperCase s) = String.length s.
Proof. induction s as [|c s IH]; cbn; [reflexivity | by rewrite IH]. Qed.

Lemma toUpperCase_code_chars (s : string) :
  string_forall radix36_char s = true →
  string_forall code_char (JS.toUpperCase s) = true.
Proof.
  induction s as [|c s IH]; cbn; [reflexivity|].
  intros [Hc Hs]%andb_true_iff. by rewrite (upper_radix36_char c Hc), IH.
Qed.

Lemma substring_length (n m : nat) (s : string) :
  String.length (String.substring n m s)
  = Nat.min m (String.length s - n).
Proof.
  revert n m. induction s as [|c s IH]; intros [|n] [|m]; cbn; try reflexivity.
  - by rewrite IH, Nat.sub_0_r.
  - apply IH.
  - apply IH.
Qed.

Lemma substring_forall (p : ascii → bool) (n m : nat) (s : string) :
  string_forall p s = true → string_forall p (String.substring n m s) = true.
Proof.
  revert n m. induction s as [|c s IH]; intros [|n] [|m]; cbn; try reflexivity.
  - intros [Hc Hs]%andb_true_iff. by rewrite Hc, (IH 0%nat m Hs).
  - intros [_ Hs]%andb_true_iff. by apply IH.
  - intros [_ Hs]%andb_true_iff. by apply IH.
Qed.

(** The length of a code is 5 plus the number of digits that the rendering
    has after the point, up to 6. *)
Lemma generateResourceCode_length (r36 : string) :
  String.length (generateResourceCode r36)
  = (5 + Nat.min 6 (fraction_length r36))%nat.
Proof.
  unfold generateResourceCode, JS.substring, fraction_length.
  change ("REDM-" +:+ ?t) with
    (String "R" (String "E" (String "D" (String "M" (String "-" t))))).
  cbn [String.length Nat.min Nat.max Nat.sub].
  by rewrite toUpperCase_length, substring_length.
Qed.

(** A rendering with six digits or more after the point gives a code of the
    pattern; one with fewer does not. *)
Lemma generateResourceCode_pattern (r36 : string) :
  radix36_rendering r36 = true →
  matches_code_pattern (generateResourceCode r36)
  = (6 <=? fraction_length r36)%nat.
Proof.
  intros Hr. unfold fraction_length.
  destruct r36 as [|a [|b t]]; try discriminate Hr.
  - destruct a as [[] [] [] [] [] [] [] []]; try discriminate Hr. reflexivity.
  - assert (Ht : string_forall radix36_char t = true).
    { destruct a as [[] [] [] [] [] [] [] []]; try discriminate Hr;
        destruct b as [[] [] [] [] [] [] [] []]; try discriminate Hr.
      cbn in Hr. by apply andb_true_iff in Hr as [_ Hr]. }
    unfold generateResourceCode, JS.substring.
    change ("REDM-" +:+ ?u) with
      (String "R" (String "E" (String "D" (String "M" (String "-" u))))).
    cbn [matches_code_pattern Nat.min Nat.max Nat.sub String.substring
           String.length].
    rewrite toUpperCase_length, substring_length,
      (toUpperCase_code_chars _ (substring_forall _ 0 6 t Ht)), andb_true_r,
      Nat.sub_0_r.
    destruct (Nat.leb_spec 6 (String.length t)) as [Hle|Hlt].
    + rewrite Nat.min_l by lia. reflexivity.
    + rewrite Nat.min_r by lia. apply Nat.eqb_neq. lia.
Qed.

Lemma generate_codes_length (env : Env) (n : option Z) :
  length (generate_codes env n) = JS.ToLength n.
Proof. unfold generate_codes. by rewrite length_map, length_seq. Qed.

(** Leaving [ASK_LINK], the session holds as many codes as its count says. *)
Lemma ask_link_generates_count_codes
    (env : Env) (from : Tg.User) (text : string) (w : World)
    (session : Session) (n : Z) :
  addCodeSessions w !! Tg.id from = Some session →
  step session = ASK_LINK →
  count session = Some n → 1 ≤ n ≤ 50 →
  ∃ cs, addCodeSessions (world_after (on_text env from text) w) !! Tg.id from
        = Some {| step := PREVIEW; count := Some n; name := name session;
                  link := Some (JS.trim text); codes := Some cs |}
        ∧ Z.of_nat (length cs) = n
        ∧ sent_by (on_text env from text) w
          = [Preview (name session) cs (Some (JS.trim text))].
Proof.
  intros Hsession Hstep Hcount Hn. unfold world_after, sent_by.
  rewrite (on_text_ask_link env from text w session Hsession Hstep).
  cbn [snd world sent with_sessions addCodeSessions].
  exists (generate_codes env (count session)).
  rewrite lookup_insert_eq. split; [|split; [|reflexivity]].
  - unfold set_codes, set_step, set_link. cbn. by rewrite Hcount.
  - rewrite generate_codes_length, Hcount. cbn [JS.ToLength]. lia.
Qed.

(** C6 at the value 0.5 of [Math.random()], whose radix-36 rendering is
    ["0.i"]: the code is ["REDM-I"], with one character after the prefix, and
    does not match [^REDM-[A-Z0-9]{6}$]. *)
Theorem generateResourceCode_short_rendering :
  Binary64.unit_interval one_half = true
  ∧ Binary64.toString36 one_half = Some "0.i"
  ∧ radix36_rendering "0.i" = true
  ∧ generateResourceCode "0.i" = "REDM-I"
  ∧ matches_code_pattern (generateResourceCode "0.i") = false
  ∧ generateResourceCode "0" = "REDM-"
  ∧ matches_code_pattern (generateResourceCode "0.4fzyo82mvyr") = true.
Proof. repeat split. Qed.

(** ** Rounding in binary64 *)

Lemma fexp_unfold (e : Z) : fexp 53 1024 e = Z.max (e - 53) (-1074).
Proof. reflexivity. Qed.

Lemma digits2_pos_bounds (p : positive) :
  2 ^ (Z.pos (digits2_pos p) - 1) ≤ Z.pos p < 2 ^ Z.pos (digits2_pos p).
Proof.
  induction p as [p IH|p IH|]; cbn [digits2_pos];
    rewrite ?Pos2Z.inj_succ.
  - replace (Z.succ (Z.pos (digits2_pos p)) - 1)
      with (Z.succ (Z.pos (digits2_pos p) - 1)) by lia.
    rewrite !Z.pow_succ_r by lia. lia.
  - replace (Z.succ (Z.pos (digits2_pos p)) - 1)
      with (Z.succ (Z.pos (digits2_pos p) - 1)) by lia.
    rewrite !Z.pow_succ_r by lia. lia.
  - cbn. lia.
Qed.

Lemma digits_le (p : positive) (n : Z) :
  0 ≤ n → Z.pos p < 2 ^ n → Z.pos (digits2_pos p) ≤ n.
Proof.
  intros Hn Hlt. destruct (digits2_pos_bounds p) as [Hlo _].
  destruct (Z_lt_le_dec n (Z.pos (digits2_pos p))) as [Hgt|]; [|done].
  assert (2 ^ n ≤ 2 ^ (Z.pos (digits2_pos p) - 1))
    by (apply Z.pow_le_mono_r; lia).
  lia.
Qed.

Lemma digits_ge (p : positive) (n : Z) :
  0 ≤ n → 2 ^ n ≤ Z.pos p → n + 1 ≤ Z.pos (digits2_pos p).
Proof.
  intros Hn Hle. destruct (digits2_pos_bounds p) as [_ Hhi].
  assert (n < Z.pos (digits2_pos p)); [|lia].
  apply (Z.pow_lt_mono_r_iff 2); lia.
Qed.

Lemma iter_pos_nat {A} (f : A → A) (p : positive) (x : A) :
  SpecFloat.iter_pos f p x = Nat.iter (Pos.to_nat p) f x.
Proof.
  revert x. induction p as [p IH|p IH|]; intros x; cbn [SpecFloat.iter_pos].
  - rewrite !IH, Pos2Nat.inj_xI. cbn [Nat.iter Nat.mul].
    rewrite Nat.add_0_r, <- Nat.iter_add.
    by rewrite <- Nat.iter_succ_r.
  - rewrite !IH, Pos2Nat.inj_xO. cbn [Nat.mul].
    by rewrite Nat.add_0_r, <- Nat.iter_add.
  - reflexivity.
Qed.

Lemma shr_1_nonneg (m : Z) (r s : bool) :
  0 ≤ m →
  shr_1 {| shr_m := m; shr_r := r; shr_s := s |}
  = {| shr_m := m / 2; shr_r := Z.odd m; shr_s := r || s |}.
Proof.
  intros Hm. rewrite <- Z.div2_div.
  destruct m as [|[p|p|]|p]; try reflexivity. lia.
Qed.

Lemma mod_pow2_succ (M n : Z) :
  0 ≤ n →
  M mod 2 ^ (n + 1) = M mod 2 ^ n + 2 ^ n * Z.b2z (Z.testbit M n).
Proof.
  intros Hn. rewrite Z.pow_add_r, Z.pow_1_r by lia.
  rewrite Z.rem_mul_r by lia. f_equal. f_equal.
  rewrite Z.testbit_spec' by lia. reflexivity.
Qed.

(** After [n + 1] shifts to the right: the quotient, the last bit shifted
    out, and whether a bit shifted out before it was set. *)
Lemma shr_iter (M : Z) (n : nat) :
  0 ≤ M →
  Nat.iter (S n) shr_1 {| shr_m := M; shr_r := false; shr_s := false |}
  = {| shr_m := M / 2 ^ Z.of_nat (S n);
       shr_r := Z.testbit M (Z.of_nat n);
       shr_s := negb (M mod 2 ^ Z.of_nat n =? 0) |}.
Proof.
  intros HM. induction n as [|n IH].
  - cbn [Nat.iter]. rewrite shr_1_nonneg by done.
    change (2 ^ Z.of_nat 1) with 2. change (2 ^ Z.of_nat 0) with 1.
    by rewrite Z.bit0_odd, Z.mod_1_r.
  - rewrite Nat.iter_succ, IH.
    rewrite shr_1_nonneg by (apply Z.div_pos; lia).
    f_equal.
    + rewrite Z.div_div by lia.
      rewrite (Nat2Z.inj_succ (S n)), Z.pow_succ_r by lia. f_equal. lia.
    + rewrite (Nat2Z.inj_succ n), Z.testbit_odd, Z.shiftr_div_pow2 by lia.
      reflexivity.
    + rewrite (Nat2Z.inj_succ n). unfold Z.succ.
      rewrite (mod_pow2_succ M (Z.of_nat n)) by lia.
      pose proof (Z.mod_pos_bound M (2 ^ Z.of_nat n)) as Hb.
      assert (0 < 2 ^ Z.of_nat n) as Hp by (apply Z.pow_pos_nonneg; lia).
      destruct (Z.testbit M (Z.of_nat n)); cbn [Z.b2z orb].
      * symmetry. apply negb_true_iff, Z.eqb_neq. lia.
      * by rewrite Z.mul_0_r, Z.add_0_r.
Qed.

(** Rounding to nearest, ties to even, after a shift by [k > 0]: the result
    is the quotient or its successor, and the quotient when the remainder is
    below one half. *)
Lemma round_after_shift (M k : Z) :
  0 ≤ M → 0 < k →
  let mrs := SpecFloat.iter_pos shr_1 (Z.to_pos k)
               {| shr_m := M; shr_r := false; shr_s := false |} in
  let m2 := round_nearest_even (shr_m mrs) (loc_of_shr_record mrs) in
  M / 2 ^ k ≤ m2 ≤ M / 2 ^ k + 1
  ∧ (2 * (M mod 2 ^ k) < 2 ^ k → m2 = M / 2 ^ k).
Proof.
  intros HM Hk mrs m2. subst m2 mrs.
  rewrite iter_pos_nat.
  destruct (Pos.to_nat (Z.to_pos k)) as [|n] eqn:Hn; [lia|].
  assert (Hkn : k = Z.of_nat (S n)) by lia.
  rewrite shr_iter by done. rewrite <- Hkn.
  cbn [shr_m loc_of_shr_record].
  assert (Hmod : M mod 2 ^ k
                 = M mod 2 ^ Z.of_nat n + 2 ^ Z.of_nat n * Z.b2z (Z.testbit M (Z.of_nat n))).
  { rewrite Hkn, Nat2Z.inj_succ. apply mod_pow2_succ. lia. }
  assert (Hpow : 2 ^ k = 2 * 2 ^ Z.of_nat n).
  { rewrite Hkn, Nat2Z.inj_succ, Z.pow_succ_r; lia. }
  pose proof (Z.mod_pos_bound M (2 ^ Z.of_nat n)) as Hb.
  assert (0 < 2 ^ Z.of_nat n) as Hp by (apply Z.pow_pos_nonneg; lia).
  destruct (Z.testbit M (Z.of_nat n)); cbn [Z.b2z] in Hmod.
  - split.
    + destruct (negb _); cbn [round_nearest_even]; [lia|].
      destruct (Z.even _); lia.
    + intros Hlt. lia.
  - split.
    + destruct (negb _); cbn [round_nearest_even]; lia.
    + intros _. by destruct (negb _).
Qed.

Lemma shr_nonpos (mrs : shr_record) (e n : Z) :
  n ≤ 0 → shr mrs e n = (mrs, e).
Proof. intros Hn. destruct n; [reflexivity | lia | reflexivity]. Qed.

Lemma shr_pos (mrs : shr_record) (e n : Z) :
  0 < n → shr mrs e n = (SpecFloat.iter_pos shr_1 (Z.to_pos n) mrs, e + n).
Proof. intros Hn. destruct n; [lia | reflexivity | lia]. Qed.

(** What the second, normalising shift of [binary_round_aux] does to a
    rounded mantissa [m2 <= 2 ^ 53] at an exponent [e' >= -1074]. *)
Lemma renormalise (m2 e' : Z) :
  0 ≤ m2 ≤ 2 ^ 53 → -1074 ≤ e' → e' + 1 ≤ 971 →
  let '(mrs, e'') := shr_fexp 53 1024 m2 e' loc_Exact in
  (m2 = 0 ∧ shr_m mrs = 0)
  ∨ (∃ p, shr_m mrs = Z.pos p ∧ e' ≤ e'' ∧ e'' ≤ 971
          ∧ Z.pos p * 2 ^ (e'' - e') = m2).
Proof.
  intros Hm2 He' Hov. unfold shr_fexp. cbn [shr_record_of_loc].
  destruct m2 as [|p|p]; [| |lia].
  - cbn [Zdigits2]. rewrite Z.add_0_l, shr_nonpos by (rewrite fexp_unfold; lia).
    by left.
  - cbn [Zdigits2].
    destruct (Z.eq_dec (Z.pos p) (2 ^ 53)) as [Heq|Hne].
    + assert (p = 9007199254740992%positive) as ->
        by (change (2 ^ 53) with (Z.pos 9007199254740992) in Heq; congruence).
      change (Z.pos (digits2_pos 9007199254740992)) with 54.
      rewrite fexp_unfold.
      replace (Z.max (54 + e' - 53) (-1074) - e') with 1 by lia.
      cbn. right. exists 4503599627370496%positive.
      split; [reflexivity|]. split; [lia|]. split; [lia|].
      replace (e' + 1 - e') with 1 by lia. reflexivity.
    + assert (Hd : Z.pos (digits2_pos p) ≤ 53) by (apply digits_le; lia).
      rewrite shr_nonpos by (rewrite fexp_unfold; lia).
      right. exists p. cbn [shr_m]. split; [reflexivity|]. split; [lia|].
      split; [lia|]. rewrite Z.sub_diag. lia.
Qed.

(** The two cases of rounding [M * 2 ^ E]: the number is representable as
    it stands, or its mantissa is shifted to the exponent [e'] of the format
    and rounded there. *)
Lemma binary_round_aux_cases (M : positive) (E : Z) :
  let e' := fexp 53 1024 (Z.pos (digits2_pos M) + E) in
  e' + 1 ≤ 971 →
  (e' ≤ E → E ≤ 971 →
   binary_round_aux 53 1024 false (Z.pos M) E loc_Exact = S754_finite false M E)
  ∧ (E < e' →
     ∃ m2, Z.pos M / 2 ^ (e' - E) ≤ m2 ≤ Z.pos M / 2 ^ (e' - E) + 1
           ∧ (2 * (Z.pos M mod 2 ^ (e' - E)) < 2 ^ (e' - E) →
              m2 = Z.pos M / 2 ^ (e' - E))
           ∧ ((m2 = 0
               ∧ binary_round_aux 53 1024 false (Z.pos M) E loc_Exact
                 = S754_zero false)
              ∨ (∃ p e'', binary_round_aux 53 1024 false (Z.pos M) E loc_Exact
                          = S754_finite false p e''
                          ∧ e' ≤ e'' ∧ Z.pos p * 2 ^ (e'' - e') = m2))).
Proof.
  intros e' Hov. split.
  - intros Hle HE. unfold binary_round_aux, shr_fexp.
    cbn [Zdigits2 shr_record_of_loc]. fold e'.
    rewrite shr_nonpos by lia. cbn [shr_m loc_of_shr_record round_nearest_even].
    cbn [Zdigits2]. fold e'. rewrite shr_nonpos by lia. cbn [shr_m].
    by rewrite (proj2 (Z.leb_le E (1024 - 53))) by lia.
  - intros Hlt.
    remember (binary_round_aux 53 1024 false (Z.pos M) E loc_Exact) as x eqn:Hx.
    unfold binary_round_aux in Hx. unfold shr_fexp at 1 in Hx.
    cbn [Zdigits2 shr_record_of_loc] in Hx. fold e' in Hx.
    rewrite shr_pos in Hx by lia.
    destruct (round_after_shift (Z.pos M) (e' - E)) as [Hm2 Hq]; [lia | lia |].
    set (m2 := round_nearest_even _ _) in *.
    exists m2. split; [exact Hm2|]. split; [exact Hq|].
    replace (E + (e' - E)) with e' in Hx by lia.
    assert (He' : -1074 ≤ e') by (subst e'; rewrite fexp_unfold; lia).
    assert (Hq53 : Z.pos M / 2 ^ (e' - E) < 2 ^ 53).
    { apply Z.div_lt_upper_bound; [apply Z.pow_pos_nonneg; lia|].
      rewrite <- Z.pow_add_r by lia.
      destruct (digits2_pos_bounds M) as [_ Hhi].
      eapply Z.lt_le_trans; [exact Hhi|].
      apply Z.pow_le_mono_r; [lia|]. subst e'. rewrite fexp_unfold. lia. }
    assert (0 ≤ Z.pos M / 2 ^ (e' - E)) by (apply Z.div_pos; [lia|apply Z.pow_pos_nonneg; lia]).
    pose proof (renormalise m2 e') as Hren.
    destruct (shr_fexp 53 1024 m2 e' loc_Exact) as [mrs e''].
    destruct Hren as [[H0 Hm]|(p & Hp & Hle & Hle' & Hval)]; [lia | lia | lia | |].
    + left. rewrite Hm in Hx. by split.
    + right. exists p, e''. rewrite Hp in Hx.
      rewrite (proj2 (Z.leb_le e'' (1024 - 53))) in Hx by lia. by split.
Qed.

(** Rounding stays between the neighbours of the exact value on the grid of
    the format: it does not go below a grid point that the exact value
    reaches, and it does not go above a grid point [H] when the exact value
    is below [H] plus half a grid step. *)
Lemma binary_round_aux_grid (M : positive) (E : Z) :
  0 ≤ E + bias →
  fexp 53 1024 (Z.pos (digits2_pos M) + E) + 1 ≤ 971 →
  E ≤ 971 →
  ∃ v, scaled_value (binary_round_aux 53 1024 false (Z.pos M) E loc_Exact) v
       ∧ (∀ L, (grid M E | L) → L ≤ scaled (Z.pos M) E → L ≤ v)
       ∧ (∀ H, (grid M E | H) →
               2 * scaled (Z.pos M) E < 2 * H + grid M E → v ≤ H).
Proof.
  intros HE Hov HE'. unfold grid, scaled.
  destruct (binary_round_aux_cases M E Hov) as [Hexact Hround].
  set (e' := fexp 53 1024 (Z.pos (digits2_pos M) + E)) in *.
  assert (He' : -1074 ≤ e') by (subst e'; rewrite fexp_unfold; lia).
  assert (Hs : 0 < 2 ^ (E + bias)) by (apply Z.pow_pos_nonneg; lia).
  assert (Hg : 0 < 2 ^ (e' + bias)) by (apply Z.pow_pos_nonneg; unfold bias; lia).
  destruct (Z_le_gt_dec e' E) as [Hle|Hgt].
  - exists (Z.pos M * 2 ^ (E + bias)). rewrite (Hexact Hle HE').
    split; [right; by exists M, E|].
    split; [done|].
    intros H [h ->] Hlt.
    assert (Hsg : 2 ^ (E + bias) = 2 ^ (E - e') * 2 ^ (e' + bias)).
    { rewrite <- Z.pow_add_r by (unfold bias; lia). f_equal. lia. }
    rewrite Hsg in *. rewrite Z.mul_assoc in *.
    apply Z.mul_le_mono_nonneg_r; [lia|]. nia.
  - destruct (Hround ltac:(lia)) as (m2 & Hm2 & Hq & Hres).
    assert (HK : 0 < 2 ^ (e' - E)) by (apply Z.pow_pos_nonneg; lia).
    assert (Hgs : 2 ^ (e' + bias) = 2 ^ (e' - E) * 2 ^ (E + bias)).
    { rewrite <- Z.pow_add_r by lia. f_equal. lia. }
    pose proof (Z.div_mod (Z.pos M) (2 ^ (e' - E)) ltac:(lia)) as Hdm.
    pose proof (Z.mod_pos_bound (Z.pos M) (2 ^ (e' - E)) HK) as Hrem.
    set (q := Z.pos M / 2 ^ (e' - E)) in *.
    set (rem := Z.pos M mod 2 ^ (e' - E)) in *.
    set (K := 2 ^ (e' - E)) in *. set (s := 2 ^ (E + bias)) in *.
    exists (m2 * 2 ^ (e' + bias)). split; [|split].
    + destruct Hres as [[-> ->]|(p & e'' & -> & Hle & Hval)]; [by left|].
      right. exists p, e''. split; [done|]. split; [lia|].
      rewrite <- Hval, <- Z.mul_assoc, <- Z.pow_add_r by (unfold bias; lia).
      unfold scaled. f_equal. f_equal. lia.
    + intros L [l ->] HL. apply Z.mul_le_mono_nonneg_r; [lia|].
      rewrite Hgs in HL. nia.
    + intros H [h ->] HH. apply Z.mul_le_mono_nonneg_r; [lia|].
      rewrite Hgs in HH.
      assert (HH' : 2 * Z.pos M < (2 * h + 1) * K) by nia.
      destruct (Z_lt_le_dec q h) as [Hqh|Hqh]; [lia|].
      assert (q = h) by nia.
      assert (2 * rem < K) by nia.
      rewrite (Hq ltac:(lia)). lia.
Qed.

Lemma iter_xO_value (m d : positive) :
  Z.pos (Pos.iter xO m d) = Z.pos m * 2 ^ Z.pos d.
Proof.
  induction d as [|d IH] using Pos.peano_ind.
  - cbn. lia.
  - rewrite Pos.iter_succ, Pos2Z.inj_succ, Z.pow_succ_r by lia.
    rewrite Pos2Z.inj_xO, IH. lia.
Qed.

Lemma iter_xO_digits (m d : positive) :
  Z.pos (digits2_pos (Pos.iter xO m d)) = Z.pos (digits2_pos m) + Z.pos d.
Proof.
  induction d as [|d IH] using Pos.peano_ind.
  - cbn [Pos.iter digits2_pos]. lia.
  - rewrite Pos.iter_succ. cbn [digits2_pos].
    rewrite !Pos2Z.inj_succ, IH. lia.
Qed.

(** Alignment to a smaller exponent keeps the value and the magnitude. *)
Lemma shl_align_spec (m : positive) (e e' : Z) :
  0 ≤ Z.min e e' + bias →
  let '(m', e'') := shl_align m e e' in
  e'' = Z.min e e'
  ∧ scaled (Z.pos m') e'' = scaled (Z.pos m) e
  ∧ Z.pos (digits2_pos m') + e'' = Z.pos (digits2_pos m) + e.
Proof.
  intros Hb. unfold shl_align.
  destruct (e' - e) as [|d|d] eqn:Hd.
  - split; [lia|done].
  - split; [lia|done].
  - split; [lia|]. split.
    + unfold scaled. rewrite iter_xO_value, <- Z.mul_assoc, <- Z.pow_add_r by lia.
      f_equal. f_equal. lia.
    + rewrite iter_xO_digits. lia.
Qed.

Lemma binary_round_grid (M : positive) (E : Z) :
  0 ≤ E + bias →
  fexp 53 1024 (Z.pos (digits2_pos M) + E) + 1 ≤ 971 →
  E ≤ 971 →
  ∃ v, scaled_value (binary_round 53 1024 false M E) v
       ∧ (∀ L, (grid M E | L) → L ≤ scaled (Z.pos M) E → L ≤ v)
       ∧ (∀ H, (grid M E | H) →
               2 * scaled (Z.pos M) E < 2 * H + grid M E → v ≤ H).
Proof.
  intros HE Hov HE'. unfold binary_round.
  pose proof (shl_align_spec M E (fexp 53 1024 (Z.pos (digits2_pos M) + E))) as Hal.
  destruct (shl_align M E _) as [mz ez].
  destruct Hal as (Hez & Hval & Hdig).
  { rewrite fexp_unfold. unfold bias in *. lia. }
  unfold grid. rewrite <- Hval, <- Hdig.
  apply binary_round_aux_grid.
  - rewrite Hez, fexp_unfold. unfold bias in *. lia.
  - by rewrite Hdig.
  - lia.
Qed.

(** The sum of two positive finite numbers is the rounding of the exact
    sum. *)
Lemma add_positive (m1 m2 : positive) (e1 e2 : Z) :
  0 ≤ e1 + bias → 0 ≤ e2 + bias →
  ∃ M E, SFadd 53 1024 (S754_finite false m1 e1) (S754_finite false m2 e2)
         = binary_round 53 1024 false M E
         ∧ E = Z.min e1 e2
         ∧ scaled (Z.pos M) E = scaled (Z.pos m1) e1 + scaled (Z.pos m2) e2.
Proof.
  intros H1 H2. cbn [SFadd cond_Zopp].
  pose proof (shl_align_spec m1 e1 (Z.min e1 e2)) as Ha.
  pose proof (shl_align_spec m2 e2 (Z.min e1 e2)) as Hb.
  destruct (shl_align m1 e1 _) as [a ea], (shl_align m2 e2 _) as [b eb].
  destruct Ha as (Hea & Hva & _); [lia|].
  destruct Hb as (Heb & Hvb & _); [lia|].
  cbn [fst]. exists (a + b)%positive, (Z.min e1 e2).
  split; [reflexivity|]. split; [reflexivity|].
  rewrite <- Hva, <- Hvb. unfold scaled.
  replace ea with (Z.min e1 e2) by lia. replace eb with (Z.min e1 e2) by lia.
  lia.
Qed.

(** A value below [2 ^ n] has its format exponent at most that of [2 ^ n]. *)
Lemma fexp_below (M : positive) (E n : Z) :
  0 ≤ E + bias → 0 ≤ n + bias →
  scaled (Z.pos M) E < 2 ^ (n + bias) →
  Z.pos (digits2_pos M) + E ≤ n.
Proof.
  intros HE Hn Hlt. unfold scaled in Hlt.
  destruct (Z_lt_le_dec n E) as [HnE|HnE].
  - exfalso.
    assert (2 ^ (n + bias) ≤ 2 ^ (E + bias)) by (apply Z.pow_le_mono_r; lia).
    assert (0 < 2 ^ (n + bias)) by (apply Z.pow_pos_nonneg; lia).
    nia.
  - assert (Z.pos (digits2_pos M) ≤ n - E); [|lia].
    apply digits_le; [lia|].
    replace (n + bias) with ((n - E) + (E + bias)) in Hlt by lia.
    rewrite (Z.pow_add_r 2 (n - E) (E + bias)) in Hlt by lia.
    assert (0 < 2 ^ (E + bias)) by (apply Z.pow_pos_nonneg; lia).
    nia.
Qed.

(** [Math.floor] of a positive finite number, from its scaled value. *)
Lemma floor_scaled (p : positive) (e : Z) :
  0 ≤ e + bias →
  Binary64.floor (S754_finite false p e)
  = Binary64.Int (scaled (Z.pos p) e / 2 ^ bias).
Proof.
  intros He. cbn [Binary64.floor cond_Zopp]. f_equal. unfold scaled.
  destruct (Z_le_gt_dec 0 e) as [Hpos|Hneg].
  - rewrite Z.shiftl_mul_pow2, Z.pow_add_r, Z.mul_assoc by (unfold bias; lia).
    by rewrite Z.div_mul by (unfold bias; lia).
  - rewrite <- (Z.opp_involutive e) at 1.
    rewrite Z.shiftl_opp_r, Z.shiftr_div_pow2 by lia.
    replace (2 ^ bias) with (2 ^ (e + bias) * 2 ^ (- e))
      by (rewrite <- Z.pow_add_r by lia; f_equal; lia).
    rewrite (Z.mul_comm (Z.pos p)).
    rewrite Z.div_mul_cancel_l; [done| |];
      apply Z.pow_nonzero; lia.
Qed.

Lemma of_Z_900000 :
  Binary64.of_Z 900000 = S754_finite false 7730941132800000 (-33).
Proof. reflexivity. Qed.

Lemma of_Z_100000 :
  Binary64.of_Z 100000 = S754_finite false 6871947673600000 (-36).
Proof. reflexivity. Qed.

(** What [bounded] says about a binary64 mantissa and exponent. *)
Lemma bounded_inv (m : positive) (e : Z) :
  bounded 53 1024 m e = true →
  -1074 ≤ e ≤ 971 ∧ Z.pos (digits2_pos m) ≤ 53
  ∧ (-1074 < e → Z.pos (digits2_pos m) = 53).
Proof.
  unfold bounded, canonical_mantissa. rewrite fexp_unfold.
  intros [Hc He]%andb_true_iff. apply Z.eqb_eq in Hc. apply Z.leb_le in He.
  lia.
Qed.

(** The product of a number below 1 with 900000 is at most
    [900000 - 2 ^ -33], the largest binary64 number below 900000. *)
Lemma mul_900000_below (m : positive) (e : Z) :
  bounded 53 1024 m e = true → e < 0 → Z.pos m < 2 ^ (- e) →
  ∃ v, scaled_value
         (Binary64.mul (S754_finite false m e) (Binary64.of_Z 900000)) v
       ∧ v ≤ scaled 7730941132799999 (-33).
Proof.
  intros Hb He Hm. rewrite of_Z_900000. unfold Binary64.mul, Binary64.prec,
    Binary64.emax. cbn [SFmul xorb].
  destruct (bounded_inv m e Hb) as ([He1 He2] & Hd & Hnorm).
  set (M := (m * 7730941132800000)%positive).
  set (E := e + -33).
  assert (HM : Z.pos M = Z.pos m * 7730941132800000) by (subst M; lia).
  assert (HEb : 0 ≤ E + bias) by (subst E; unfold bias; lia).
  set (s := 2 ^ (E + bias)).
  assert (Hs : 0 < s) by (apply Z.pow_pos_nonneg; lia).
  set (P := 2 ^ (- e)) in *.
  assert (HP : 2 ^ (-33 + bias) = P * s).
  { subst P s E. rewrite <- Z.pow_add_r by (unfold bias in *; lia).
    f_equal. lia. }
  assert (Hmag : Z.pos (digits2_pos M) + E ≤ 20).
  { apply fexp_below; [done | unfold bias; lia |].
    unfold scaled. fold s.
    replace (20 + bias) with (53 + (-33 + bias)) by lia.
    rewrite Z.pow_add_r, HP by (unfold bias; lia).
    change (2 ^ 53) with 9007199254740992. nia. }
  assert (Hd53 : 53 ≤ Z.pos (digits2_pos M)).
  { apply (digits_ge M 52); [lia|]. change (2 ^ 52) with 4503599627370496. lia. }
  set (e' := fexp 53 1024 (Z.pos (digits2_pos M) + E)).
  assert (He' : E ≤ e' ≤ -33) by (subst e'; rewrite fexp_unfold; lia).
  set (K := 2 ^ (e' - E)).
  assert (HK : 2 ^ (e' + bias) = K * s).
  { subst K s. rewrite <- Z.pow_add_r by lia. f_equal. lia. }
  assert (HK1 : 1 ≤ K) by (subst K; apply (Z.pow_le_mono_r 2 0); lia).
  destruct (binary_round_aux_grid M E HEb) as (v & Hv & _ & Hup).
  { fold e'. lia. }
  { lia. }
  exists v. split; [exact Hv|].
  apply Hup.
  - unfold grid, scaled. fold e'. exists (7730941132799999 * 2 ^ (-33 - e')).
    rewrite <- Z.mul_assoc, <- Z.pow_add_r by (unfold bias; lia).
    f_equal. f_equal. lia.
  - unfold grid, scaled. fold e' s. rewrite HK, HP, HM.
    assert (Hcore : 2 * (Z.pos m * 7730941132800000) + 1
                    ≤ 2 * (7730941132799999 * P) + K).
    { destruct (Z_le_gt_dec (- e) 52) as [H52|H52].
      - assert (P ≤ 2 ^ 52) by (subst P; apply Z.pow_le_mono_r; lia).
        change (2 ^ 52) with 4503599627370496 in *. lia.
      - destruct (Z.eq_dec (- e) 53) as [H53|H53].
        + assert (HP53 : P = 9007199254740992) by (subst P; by rewrite H53).
          assert (Hdm : Z.pos (digits2_pos m) = 53) by (apply Hnorm; lia).
          destruct (digits2_pos_bounds m) as [Hlo _]. rewrite Hdm in Hlo.
          change (2 ^ (53 - 1)) with 4503599627370496 in Hlo.
          assert (105 ≤ Z.pos (digits2_pos M)).
          { apply (digits_ge M 104); [lia|].
            change (2 ^ 104) with (4503599627370496 * 4503599627370496). nia. }
          assert (2 ^ 52 ≤ K)
            by (subst K e'; apply Z.pow_le_mono_r; [lia|];
                rewrite fexp_unfold; lia).
          change (2 ^ 52) with 4503599627370496 in *. lia.
        + assert (2 ^ 54 ≤ P) by (subst P; apply Z.pow_le_mono_r; lia).
          destruct (digits2_pos_bounds m) as [_ Hhi].
          assert (Z.pos m < 2 ^ 53).
          { eapply Z.lt_le_trans; [exact Hhi|]. apply Z.pow_le_mono_r; lia. }
          change (2 ^ 53) with 9007199254740992 in *.
          change (2 ^ 54) with 18014398509481984 in *. lia. }
    nia.
Qed.

(** Adding 100000 to a number between 0 and [900000 - 2 ^ -33] and taking
    the floor gives an integer from 100000 to 999999. *)
Lemma add_100000_floor (x : spec_float) (v : Z) :
  scaled_value x v → v ≤ scaled 7730941132799999 (-33) →
  ∃ n, Binary64.floor (Binary64.add (Binary64.of_Z 100000) x) = Binary64.Int n
       ∧ 100000 ≤ n ≤ 999999.
Proof.
  intros [[-> ->]|(p & ex & -> & Hex & ->)] Hv.
  { exists 100000. split; [reflexivity | lia]. }
  rewrite of_Z_100000. unfold Binary64.add, Binary64.prec, Binary64.emax.
  destruct (add_positive 6871947673600000 p (-36) ex) as (M & E & -> & HE & HS);
    [unfold bias; lia | done |].
  set (B := 2 ^ (-33 + bias)).
  assert (HB : 0 < B) by (apply Z.pow_pos_nonneg; unfold bias; lia).
  assert (Hbias : 2 ^ bias = 8589934592 * B).
  { subst B. change 8589934592 with (2 ^ 33).
    rewrite <- Z.pow_add_r by (unfold bias; lia). f_equal; lia. }
  assert (Hc1 : scaled 6871947673600000 (-36) = 100000 * 2 ^ bias).
  { unfold scaled. change 6871947673600000 with (100000 * 2 ^ 36).
    rewrite <- Z.mul_assoc, <- Z.pow_add_r by (unfold bias; lia).
    do 2 f_equal; lia. }
  assert (Hpos : 0 < scaled (Z.pos p) ex).
  { unfold scaled. apply Z.mul_pos_pos; [lia|]. apply Z.pow_pos_nonneg; lia. }
  unfold scaled at 2 in Hv. fold B in Hv.
  rewrite Hc1, Hbias in HS.
  assert (HEb : 0 ≤ E + bias) by (unfold bias in *; lia).
  assert (Hmag : Z.pos (digits2_pos M) + E ≤ 20).
  { apply fexp_below; [done | unfold bias; lia |].
    replace (20 + bias) with (53 + (-33 + bias)) by lia.
    rewrite Z.pow_add_r by (unfold bias; lia). fold B.
    change (2 ^ 53) with 9007199254740992. lia. }
  set (e' := fexp 53 1024 (Z.pos (digits2_pos M) + E)).
  assert (He' : -1074 ≤ e' ≤ -33) by (subst e'; rewrite fexp_unfold; lia).
  assert (Hg : 0 < grid M E)
    by (unfold grid; apply Z.pow_pos_nonneg; fold e'; unfold bias; lia).
  destruct (binary_round_grid M E HEb) as (vy & Hvy & Hlow & Hup).
  { fold e'. lia. }
  { lia. }
  assert (HL : 100000 * (8589934592 * B) ≤ vy).
  { apply Hlow; [|lia]. unfold grid. fold e'.
    exists (100000 * 2 ^ (- e')). rewrite <- Hbias, <- Z.mul_assoc.
    rewrite <- Z.pow_add_r by (unfold bias; lia). do 2 f_equal; lia. }
  assert (HH : vy ≤ 8589934591999999 * B).
  { apply Hup; [|lia]. unfold grid. fold e'.
    exists (8589934591999999 * 2 ^ (-33 - e')). subst B.
    rewrite <- Z.mul_assoc, <- Z.pow_add_r by (unfold bias; lia).
    do 2 f_equal; lia. }
  destruct Hvy as [[_ ->]|(py & ey & -> & Hey & ->)]; [lia|].
  rewrite floor_scaled by done. eexists. split; [reflexivity|].
  rewrite Hbias. split.
  - apply Z.div_le_lower_bound; lia.
  - assert (scaled (Z.pos py) ey / (8589934592 * B) < 1000000); [|lia].
    apply Z.div_lt_upper_bound; lia.
Qed.

(** The number that [generateOTP] prints. *)
Lemma generateOTP_value (r : spec_float) :
  Binary64.unit_interval r = true →
  ∃ n, 100000 ≤ n ≤ 999999 ∧ generateOTP r = pretty n.
Proof.
  intros Hr. unfold generateOTP.
  destruct r as [[]| | |[] m e]; try discriminate Hr.
  - exists 100000. split; [lia | reflexivity].
  - cbn [Binary64.unit_interval] in Hr.
    apply andb_true_iff in Hr as [[Hb He]%andb_true_iff Hm].
    apply Z.ltb_lt in He, Hm. unfold Binary64.prec, Binary64.emax in Hb.
    destruct (mul_900000_below m e Hb He Hm) as (v & Hv & Hle).
    destruct (add_100000_floor _ v Hv Hle) as (n & -> & Hn).
    by exists n.
Qed.

(** ** Printing a six-digit number *)

Lemma pretty_N_char_digit (d : N) : is_digit (pretty_N_char d) = true.
Proof. unfold pretty_N_char. by repeat case_match. Qed.

Lemma pretty_N_char_code (d : N) :
  (d < 10)%N → JS.code (pretty_N_char d) - 48 = Z.of_N d.
Proof.
  intros Hd.
  assert (d = 0 ∨ d = 1 ∨ d = 2 ∨ d = 3 ∨ d = 4 ∨ d = 5 ∨ d = 6 ∨ d = 7
          ∨ d = 8 ∨ d = 9)%N as Hcases by lia.
  repeat destruct Hcases as [->|Hcases]; try reflexivity.
  by subst d.
Qed.

(** The decimal digits of a number from 100000 to 999999, first to last. *)
Lemma pretty_six (x : N) :
  (100000 ≤ x ≤ 999999)%N →
  pretty x
  = String (pretty_N_char ((x / 100000) mod 10))
      (String (pretty_N_char ((x / 10000) mod 10))
         (String (pretty_N_char ((x / 1000) mod 10))
            (String (pretty_N_char ((x / 100) mod 10))
               (String (pretty_N_char ((x / 10) mod 10))
                  (String (pretty_N_char (x mod 10)) ""))))).
Proof.
  intros Hx. unfold pretty, pretty_N.
  destruct (decide (x = 0%N)) as [->|_]; [lia|].
  assert (H1 : (x / 10 / 10 = x / 100)%N) by (by rewrite N.Div0.div_div).
  assert (H2 : (x / 100 / 10 = x / 1000)%N) by (by rewrite N.Div0.div_div).
  assert (H3 : (x / 1000 / 10 = x / 10000)%N) by (by rewrite N.Div0.div_div).
  assert (H4 : (x / 10000 / 10 = x / 100000)%N) by (by rewrite N.Div0.div_div).
  assert (H5 : (x / 100000 / 10 = 0)%N).
  { rewrite N.Div0.div_div. apply N.div_small. lia. }
  rewrite pretty_N_go_step by lia.
  rewrite pretty_N_go_step by (apply N.div_str_pos; lia).
  rewrite H1, pretty_N_go_step by (apply N.div_str_pos; lia).
  rewrite H2, pretty_N_go_step by (apply N.div_str_pos; lia).
  rewrite H3, pretty_N_go_step by (apply N.div_str_pos; lia).
  rewrite H4, pretty_N_go_step by (apply N.div_str_pos; lia).
  by rewrite H5, pretty_N_go_0.
Qed.

Lemma six_digits_value (x : Z) :
  0 ≤ x →
  10 * (10 * (10 * (10 * (10 * (10 * 0 + (x / 100000) mod 10)
                             + (x / 10000) mod 10)
                       + (x / 1000) mod 10)
                 + (x / 100) mod 10)
           + (x / 10) mod 10)
  + x mod 10
  = x mod 1000000.
Proof. intros Hx. Z.div_mod_to_equations. lia. Qed.

Lemma pretty_six_digits (n : Z) :
  100000 ≤ n ≤ 999999 →
  String.length (pretty n) = 6%nat
  ∧ string_forall is_digit (pretty n) = true
  ∧ decimal_numeral (pretty n) = Some n.
Proof.
  intros Hn. destruct n as [|p|p]; try lia.
  change (pretty (Z.pos p)) with (pretty (N.pos p)).
  rewrite pretty_six by lia.
  split; [reflexivity|]. split.
  - cbn [string_forall]. by rewrite !pretty_N_char_digit.
  - cbn [decimal_numeral numeral_value].
    repeat (rewrite (pretty_N_char_digit _ : JS.between 48 57 _ = true)).
    rewrite !pretty_N_char_code by (apply N.mod_lt; lia).
    f_equal.
    rewrite !N2Z.inj_mod, !N2Z.inj_div. cbn [Z.of_N].
    rewrite six_digits_value by lia.
    apply Z.mod_small. lia.
Qed.

(** The key of a user in [pending_verifications] is a document id: [doc]
    takes it as it is. *)
Lemma pretty_N_char_no_slash (d : N) : Ascii.eqb (pretty_N_char d) "/" = false.
Proof. unfold pretty_N_char. by repeat case_match. Qed.

Lemma pretty_N_go_document_id (x : N) (s : string) :
  document_id s = true → document_id (pretty_N_go x s) = true.
Proof.
  revert s. induction (N.lt_wf_0 x) as [x _ IH]. intros s Hs.
  destruct (decide (x = 0%N)) as [->|Hx]; [by rewrite pretty_N_go_0|].
  rewrite pretty_N_go_step by lia.
  apply IH; [apply N.div_lt; lia|].
  unfold document_id in *. apply andb_true_iff in Hs as [_ Hs].
  cbn [string_forall]. by rewrite pretty_N_char_no_slash, Hs.
Qed.

Lemma pretty_N_document_id (x : N) : document_id (pretty x) = true.
Proof.
  unfold pretty, pretty_N. destruct (decide (x = 0%N)) as [->|Hx]; [reflexivity|].
  rewrite pretty_N_go_step by lia. apply pretty_N_go_document_id.
  unfold document_id. cbn [string_forall]. by rewrite pretty_N_char_no_slash.
Qed.

Lemma document_path_doc_key (user : Tg.User) :
  document_path (doc_key user) = Some (doc_key user).
Proof.
  apply document_path_id. unfold doc_key. destruct (Tg.id user) as [|p|p].
  - reflexivity.
  - apply (pretty_N_document_id (N.pos p)).
  - pose proof (pretty_N_document_id (N.pos p)) as H.
    change (pretty (Z.neg p)) with (String "-" (pretty (N.pos p))).
    unfold document_id in *. apply andb_true_iff in H as [_ H].
    cbn [string_forall]. by rewrite H.
Qed.

(** C8. For every value that [Math.random()] can return, [generateOTP]
    returns the decimal digits of an integer from 100000 to 999999: a string
    of exactly six ASCII digits, whose first digit is therefore not 0. *)
Theorem generateOTP_six_digits (r : spec_float) :
  Binary64.unit_interval r = true →
  ∃ n, 100000 ≤ n ≤ 999999
       ∧ generateOTP r = pretty n
       ∧ String.length (generateOTP r) = 6%nat
       ∧ string_forall is_digit (generateOTP r) = true
       ∧ decimal_numeral (generateOTP r) = Some n.
Proof.
  intros Hr. destruct (generateOTP_value r Hr) as (n & Hn & ->).
  exists n. split; [exact Hn|]. split; [reflexivity|].
  apply pretty_six_digits, Hn.
Qed.

Lemma generateOTP_six_digits_witness :
  ∃ n, 100000 ≤ n ≤ 999999
       ∧ generateOTP one_half = pretty n
       ∧ String.length (generateOTP one_half) = 6%nat
       ∧ string_forall is_digit (generateOTP one_half) = true
       ∧ decimal_numeral (generateOTP one_half) = Some n.
Proof. apply (generateOTP_six_digits one_half). reflexivity. Defined.

(** ** The remaining handlers: what each does to the state *)

(** Unfolds a handler over [CallM] applied to an initial state. *)
Ltac run_calls :=
  unfold CallM.world_after, CallM.calls_by, CallM.result_of, CallM.run;
  cbn [mbind mret CallM.C_bind CallM.C_ret];
  unfold CallM.try_catch, CallM.await_call, CallM.modify, CallM.call,
    CallM.gets, CallM.throw, mbind, mret, CallM.C_bind, CallM.C_ret;
  cbn [CallM.world CallM.calls fst snd].

Lemma with_sessions_id (w : World) : with_sessions (λ m, m) w = w.
Proof. by destruct w. Qed.

Lemma bot_start_world (env : Env) (from : Tg.User) (payload : option string)
    (w : World) :
  world_after (bot_start env from payload) w
  = if JS.truthy payload && db_set_ok env
    then set_pending (doc_key from)
           {| session_id := default "" payload; timestamp := server_time env |} w
    else w.
Proof.
  unfold bot_start. destruct (JS.truthy payload); cbn [negb andb].
  - destruct (db_set_ok env); run_handler; [|reflexivity].
    destruct (send_ok env); reflexivity.
  - run_handler. by destruct (send_ok env).
Qed.

Lemma on_contact_world (env : Env) (from : Tg.User) (contact : Tg.Contact)
    (w : World) :
  world_after (on_contact env from contact) w
  = if bool_decide (Tg.user_id contact = Some (Tg.id from)) && db_get_ok env
    then match pending_verifications (db w) !! doc_key from with
         | None => w
         | Some pendingDoc =>
             match document_path (session_id pendingDoc) with
             | None => w
             | Some key =>
                 if db_set_ok env
                 then let w1 := set_otp_session key
                                  (otp_record env from contact) w in
                      if db_delete_ok env then delete_pending (doc_key from) w1
                      else w1
                 else w
             end
         end
    else w.
Proof.
  unfold world_after. rewrite on_contact_run.
  destruct (bool_decide (Tg.user_id contact = Some (Tg.id from)));
    cbn [negb andb]; [|by destruct (send_ok env)].
  destruct (db_get_ok env); cbn [negb]; [|reflexivity].
  destruct (pending_verifications (db w) !! doc_key from) as [pd|];
    [|by destruct (send_ok env)].
  destruct (document_path (session_id pd)) as [key|]; [|reflexivity].
  destruct (db_set_ok env); cbn [negb]; [|reflexivity].
  destruct (db_delete_ok env); cbn [negb]; [|reflexivity].
  destruct (send_ok env); reflexivity.
Qed.

Lemma addcodes_world (env : Env) (from : Tg.User) (w : World) :
  world_after (addcodes env from) w
  = if bool_decide (Tg.id from = ADMIN_ID)
    then with_sessions (<[Tg.id from := fresh_session]>) w
    else w.
Proof.
  unfold addcodes. destruct (bool_decide (Tg.id from = ADMIN_ID));
    cbn [negb]; run_handler; [reflexivity|].
  destruct (send_ok env); by destruct w.
Qed.

Lemma on_text_world (env : Env) (from : Tg.User) (text : string) (w : World) :
  world_after (on_text env from text) w
  = match addCodeSessions w !! Tg.id from with
    | None => w
    | Some session =>
        with_sessions (<[Tg.id from := text_step env text session]>) w
    end.
Proof.
  unfold world_after.
  destruct (addCodeSessions w !! Tg.id from) as [session|] eqn:Hs.
  - assert (Hsame : with_sessions (<[Tg.id from := session]>) w = w).
    { unfold with_sessions. rewrite (insert_id _ _ _ Hs). by destruct w. }
    unfold text_step. destruct (step session) eqn:Hstep.
    + destruct (JS.count_rejected (JS.parseInt (JS.trim text))) eqn:Hrej.
      * rewrite (on_text_ask_count_rejected env from text w session Hs Hstep Hrej).
        by rewrite Hsame.
      * by rewrite (on_text_ask_count_accepted env from text w session Hs Hstep Hrej).
    + by rewrite (on_text_ask_name env from text w session Hs Hstep).
    + by rewrite (on_text_ask_link env from text w session Hs Hstep).
    + by rewrite (on_text_preview env from text w session Hs Hstep).
  - by rewrite (on_text_without_session env from text w Hs).
Qed.

Lemma confirm_add_run (env : Env) (from : Tg.User) (w : World) :
  run (confirm_add env from) w
  = match addCodeSessions w !! Tg.id from with
    | None => (if send_ok env then Some tt else None,
               {| world := w; sent := [AnswerSessionExpired] |})
    | Some session =>
        match build_batch env session with
        | None => (Some tt, {| world := w; sent := [DatabaseError] |})
        | Some batch =>
            if batch_commit_ok env
            then if send_ok env
                 then (Some tt,
                       {| world := with_sessions (delete (Tg.id from))
                                     (commit_batch batch w);
                          sent := [EditAdded (count session) (name session)] |})
                 else (Some tt,
                       {| world := commit_batch batch w;
                          sent := [EditAdded (count session) (name session);
                                   DatabaseError] |})
            else (Some tt, {| world := w; sent := [DatabaseError] |})
        end
    end.
Proof.
  unfold run, confirm_add. rewrite run_bind. unfold gets at 1. cbn [world].
  destruct (addCodeSessions w !! Tg.id from) as [session|];
    [|run_handler; by destruct (send_ok env)].
  unfold try_catch. rewrite run_bind.
  destruct (build_batch env session) as [batch|]; cbn [from_option];
    [|reflexivity].
  rewrite run_ret.
  destruct (batch_commit_ok env), (send_ok env); reflexivity.
Qed.

Lemma regenerate_codes_world (env : Env) (from : Tg.User) (w : World) :
  CallM.world_after (regenerate_codes env from) w
  = match addCodeSessions w !! Tg.id from with
    | None => w
    | Some session =>
        with_sessions
          (<[Tg.id from :=
               set_codes (Some (generate_codes env (count session))) session]>) w
    end.
Proof.
  unfold regenerate_codes. run_calls.
  destruct (addCodeSessions w !! Tg.id from) as [session|] eqn:Hs;
    cbn [CallM.world snd]; [|by destruct (send_ok env)].
  unfold with_sessions. cbn [db addCodeSessions]. f_equal.
  apply map_eq. intros k. destruct (decide (Tg.id from = k)) as [<-|Hne].
  - by rewrite lookup_alter_eq, Hs, lookup_insert_eq.
  - by rewrite lookup_alter_ne, lookup_insert_ne.
Qed.

Lemma cancel_add_world (from : Tg.User) (w : World) :
  CallM.world_after (cancel_add from) w = with_sessions (delete (Tg.id from)) w.
Proof. reflexivity. Qed.

Lemma getcodes_world (lenv : ListEnv) (from : Tg.User) (w : World) :
  CallM.world_after (getcodes lenv from) w = w.
Proof.
  unfold getcodes, fetchAvailableCodes.
  destruct (bool_decide (Tg.id from = ADMIN_ID)); cbn [negb]; run_calls;
    [|by destruct (reply_ok lenv)].
  destruct (query_ok lenv); cbn; [|reflexivity].
  destruct (reply_ok lenv); reflexivity.
Qed.

Lemma refresh_codes_list_world (lenv : ListEnv) (from : Tg.User) (w : World) :
  CallM.world_after (refresh_codes_list lenv from) w = w.
Proof.
  unfold refresh_codes_list, fetchAvailableCodes.
  destruct (bool_decide (Tg.id from = ADMIN_ID)); cbn [negb]; run_calls;
    [|by destruct (answer_ok lenv)].
  destruct (query_ok lenv), (edit_ok lenv), (answer_ok lenv),
    (answer_in_catch_ok lenv); reflexivity.
Qed.

(** ** The verification flow beyond the two steps of a successful run *)

(** X1. [/start] without a payload, or with the empty payload, is answered
    with the welcome message and leaves the whole state as it is, whatever
    the surroundings.  The handler returns that reply: it settles as the
    reply does, resolved when the message is sent and rejected when it is
    not. *)
Theorem start_without_payload_changes_nothing
    (env : Env) (from : Tg.User) (w : World) :
  run (bot_start env from None) w
  = (if send_ok env then Some tt else None,
     {| world := w; sent := [Welcome] |})
  ∧ run (bot_start env from (Some "")) w
    = (if send_ok env then Some tt else None,
       {| world := w; sent := [Welcome] |}).
Proof.
  split; unfold bot_start; cbn [JS.truthy negb]; run_handler;
    by destruct (send_ok env).
Qed.

Lemma truthy_nonempty (p : string) : p ≠ "" → JS.truthy (Some p) = true.
Proof. by destruct p. Qed.

(** X2. The last [/start] wins: after a [/start] with a non-empty payload
    whose write resolves, the state is the same whether or not the same user
    had sent any other [/start] before, and the pending record of the user
    holds the last payload. *)
Theorem start_last_payload_wins
    (env1 env2 : Env) (from : Tg.User) (payload1 : option string) (p2 : string)
    (w : World) :
  p2 ≠ "" → db_set_ok env2 = true →
  let w1 := world_after (bot_start env1 from payload1) w in
  let w2 := world_after (bot_start env2 from (Some p2)) w1 in
  w2 = world_after (bot_start env2 from (Some p2)) w
  ∧ pending_verifications (db w2) !! doc_key from
    = Some {| session_id := p2; timestamp := server_time env2 |}.
Proof.
  intros Hp2 Hset w1 w2. subst w2 w1.
  rewrite !bot_start_world, (truthy_nonempty p2 Hp2), Hset. cbn [andb default].
  split.
  - destruct (JS.truthy payload1 && db_set_ok env1); [|reflexivity].
    unfold set_pending, with_db. cbn [db addCodeSessions pending_verifications
      otp_sessions access_codes]. by rewrite insert_insert_eq.
  - cbn. apply lookup_insert_eq.
Qed.

Lemma start_last_payload_wins_witness :
  let w1 := world_after (bot_start env_ok alice (Some "first")) empty_world in
  let w2 := world_after (bot_start env_ok alice (Some "second")) w1 in
  w2 = world_after (bot_start env_ok alice (Some "second")) empty_world
  ∧ pending_verifications (db w2) !! doc_key alice
    = Some {| session_id := "second"; timestamp := server_time env_ok |}.
Proof.
  apply (start_last_payload_wins env_ok env_ok alice (Some "first") "second"
           empty_world); [discriminate | reflexivity].
Defined.

(** X3. The two ways a [/start] with a payload can fail.  When the write is
    rejected, nothing is stored and the system error is sent.  When the
    write resolves and the prompt cannot be sent, the system error is sent
    as well, yet the pending record is in place: when the payload is a
    document id, a share of the user's own contact then issues the code
    under the payload. *)
Theorem start_failure_points
    (env env2 : Env) (from : Tg.User) (contact : Tg.Contact) (p : string)
    (w : World) :
  p ≠ "" →
  (db_set_ok env = false →
   run (bot_start env from (Some p)) w
   = (Some tt, {| world := w; sent := [SystemError] |}))
  ∧ (db_set_ok env = true → send_ok env = false →
     run (bot_start env from (Some p)) w
     = (Some tt,
        {| world := set_pending (doc_key from)
                      {| session_id := p; timestamp := server_time env |} w;
           sent := [SecurityCheck; SystemError] |})
     ∧ (document_id p = true →
        Tg.user_id contact = Some (Tg.id from) →
        db_get_ok env2 = true → db_set_ok env2 = true →
        otp_sessions
          (db (world_after (on_contact env2 from contact)
                 (world_after (bot_start env from (Some p)) w))) !! p
        = Some (otp_record env2 from contact))).
Proof.
  intros Hp. split.
  - intros Hset. unfold run, bot_start.
    rewrite (truthy_nonempty p Hp), Hset. reflexivity.
  - intros Hset Hsend. split.
    + unfold run, bot_start.
      rewrite (truthy_nonempty p Hp), Hset, Hsend. reflexivity.
    + intros Hid Hown Hget Hset2.
      rewrite on_contact_world, bot_start_world, (truthy_nonempty p Hp), Hset,
        (bool_decide_eq_true_2 _ Hown), Hget, Hset2.
      cbn [andb default]. cbn [set_pending with_db db pending_verifications].
      rewrite lookup_insert_eq. cbn [session_id].
      unfold id. rewrite (document_path_id p Hid).
      destruct (db_delete_ok env2); cbn; apply lookup_insert_eq.
Qed.

Lemma start_failure_points_witness :
  run (bot_start env_edit_rejected alice (Some "abc")) empty_world
  = (Some tt,
     {| world := set_pending (doc_key alice)
                   {| session_id := "abc";
                      timestamp := server_time env_edit_rejected |} empty_world;
        sent := [SecurityCheck; SystemError] |})
  ∧ otp_sessions
      (db (world_after (on_contact env_ok alice alice_contact)
             (world_after (bot_start env_edit_rejected alice (Some "abc"))
                empty_world))) !! "abc"
    = Some (otp_record env_ok alice alice_contact).
Proof.
  destruct (proj2 (start_failure_points env_edit_rejected env_ok alice
                     alice_contact "abc" empty_world ltac:(discriminate))
              eq_refl eq_refl) as [Hrun Hshare].
  split; [exact Hrun | apply Hshare; reflexivity].
Defined.

(** X4. What a share of the user's own contact does when the store fails
    part of the way.  A rejected lookup or a rejected write of the OTP
    session leaves the state as it is, and so does a session id that [doc]
    refuses; the contact error is sent.  When the session id is a document
    id, a rejected deletion leaves the OTP session written and the pending
    record in place; the error is reported, and a second share that goes
    through replaces the OTP session under the same key by one with a fresh
    code and deletes the pending record. *)
Theorem contact_store_failure_points
    (env env2 : Env) (from : Tg.User) (contact contact2 : Tg.Contact)
    (pendingDoc : PendingVerification) (w : World) :
  Tg.user_id contact = Some (Tg.id from) →
  Tg.user_id contact2 = Some (Tg.id from) →
  pending_verifications (db w) !! doc_key from = Some pendingDoc →
  (db_get_ok env = false ∨ db_set_ok env = false
   ∨ document_path (session_id pendingDoc) = None →
   world_after (on_contact env from contact) w = w
   ∧ sent_by (on_contact env from contact) w = [ContactError])
  ∧ (document_id (session_id pendingDoc) = true →
     db_get_ok env = true → db_set_ok env = true → db_delete_ok env = false →
     let w1 := world_after (on_contact env from contact) w in
     w1 = set_otp_session (session_id pendingDoc)
            (otp_record env from contact) w
     ∧ pending_verifications (db w1) !! doc_key from = Some pendingDoc
     ∧ sent_by (on_contact env from contact) w = [ContactError]
     ∧ (db_get_ok env2 = true → db_set_ok env2 = true →
        db_delete_ok env2 = true →
        let w2 := world_after (on_contact env2 from contact2) w1 in
        otp_sessions (db w2) !! session_id pendingDoc
        = Some (otp_record env2 from contact2)
        ∧ pending_verifications (db w2) !! doc_key from = None)).
Proof.
  intros Hown Hown2 Hp. split.
  - intros Hfail. unfold world_after, sent_by.
    rewrite on_contact_run, Hp, (bool_decide_eq_true_2 _ Hown). cbn [negb].
    destruct Hfail as [-> | [Hs | ->]]; cbn [negb]; [done| |].
    + destruct (db_get_ok env); cbn [negb]; [|done].
      destruct (document_path (session_id pendingDoc)); [|done].
      by rewrite Hs.
    + by destruct (db_get_ok env).
  - intros Hid Hget Hset Hdel w1.
    pose proof (document_path_id _ Hid) as Hpath.
    assert (Hw1 : w1 = set_otp_session (session_id pendingDoc)
                         (otp_record env from contact) w).
    { subst w1. rewrite on_contact_world, Hp, (bool_decide_eq_true_2 _ Hown),
        Hpath, Hget, Hset, Hdel. reflexivity. }
    assert (Hp1 : pending_verifications (db w1) !! doc_key from = Some pendingDoc)
      by (by rewrite Hw1).
    split; [exact Hw1|]. split; [exact Hp1|]. split.
    + unfold sent_by.
      rewrite on_contact_run, Hp, (bool_decide_eq_true_2 _ Hown), Hpath,
        Hget, Hset, Hdel. reflexivity.
    + intros Hget2 Hset2 Hdel2 w2. subst w2.
      rewrite on_contact_world, Hp1, (bool_decide_eq_true_2 _ Hown2), Hpath,
        Hget2, Hset2, Hdel2. cbn [andb].
      split; [cbn; apply lookup_insert_eq | cbn; apply lookup_delete_eq].
Qed.

Lemma contact_store_failure_points_witness :
  let w := set_pending (doc_key alice)
             {| session_id := "abc"; timestamp := 0 |} empty_world in
  let w1 := world_after (on_contact env_delete_rejected alice alice_contact) w in
  let w2 := world_after (on_contact env_ok alice alice_contact) w1 in
  w1 = set_otp_session "abc"
         (otp_record env_delete_rejected alice alice_contact) w
  ∧ pending_verifications (db w1) !! doc_key alice
    = Some {| session_id := "abc"; timestamp := 0 |}
  ∧ sent_by (on_contact env_delete_rejected alice alice_contact) w
    = [ContactError]
  ∧ otp_sessions (db w2) !! "abc" = Some (otp_record env_ok alice alice_contact)
  ∧ pending_verifications (db w2) !! doc_key alice = None.
Proof.
  intros w w1 w2.
  destruct (proj2 (contact_store_failure_points env_delete_rejected env_ok alice
                     alice_contact alice_contact
                     {| session_id := "abc"; timestamp := 0 |} w
                     eq_refl eq_refl (lookup_insert_eq _ _ _))
              eq_refl eq_refl eq_refl eq_refl) as (Hw1 & Hp1 & Hsent & Hnext).
  split; [exact Hw1|]. split; [exact Hp1|]. split; [exact Hsent|].
  apply Hnext; reflexivity.
Defined.

(** X5. The code that the user is sent is the code that is stored: when the
    session id of the pending record is a document id and a share of the
    user's own contact goes through, the reply carries the [otp] field of
    the record written under that session id, and for every value of
    [Math.random()] that code is six digits denoting a number from 100000 to
    999999. *)
Theorem contact_reply_carries_stored_otp
    (env : Env) (from : Tg.User) (contact : Tg.Contact)
    (pendingDoc : PendingVerification) (w : World) :
  Tg.user_id contact = Some (Tg.id from) →
  db_get_ok env = true → db_set_ok env = true → db_delete_ok env = true →
  send_ok env = true →
  Binary64.unit_interval (random env) = true →
  pending_verifications (db w) !! doc_key from = Some pendingDoc →
  document_id (session_id pendingDoc) = true →
  ∃ (code : string) (rec : OtpSession) (n : Z),
    sent_by (on_contact env from contact) w = [VerificationSuccessful code]
    ∧ otp_sessions (db (world_after (on_contact env from contact) w))
        !! session_id pendingDoc = Some rec
    ∧ otp rec = code
    ∧ decimal_numeral code = Some n ∧ 100000 ≤ n ≤ 999999
    ∧ String.length code = 6%nat.
Proof.
  intros Hown Hget Hset Hdel Hsend Hr Hp Hid.
  pose proof (document_path_id _ Hid) as Hpath.
  destruct (generateOTP_value (random env) Hr) as (n & Hn & Hotp).
  destruct (pretty_six_digits n Hn) as (Hlen & _ & Hnum).
  exists (generateOTP (random env)), (otp_record env from contact), n.
  split.
  { unfold sent_by.
    rewrite on_contact_run, Hp, (bool_decide_eq_true_2 _ Hown), Hpath,
      Hget, Hset, Hdel, Hsend. reflexivity. }
  split.
  { rewrite on_contact_world, Hp, (bool_decide_eq_true_2 _ Hown), Hpath,
      Hget, Hset, Hdel. cbn. apply lookup_insert_eq. }
  split; [reflexivity|]. rewrite Hotp. by split.
Qed.

Lemma contact_reply_carries_stored_otp_witness :
  ∃ (code : string) (rec : OtpSession) (n : Z),
    sent_by (on_contact env_ok alice alice_contact)
      (set_pending (doc_key alice)
         {| session_id := "abc"; timestamp := 0 |} empty_world)
    = [VerificationSuccessful code]
    ∧ otp_sessions
        (db (world_after (on_contact env_ok alice alice_contact)
               (set_pending (doc_key alice)
                  {| session_id := "abc"; timestamp := 0 |} empty_world)))
        !! session_id {| session_id := "abc"; timestamp := 0 |} = Some rec
    ∧ otp rec = code
    ∧ decimal_numeral code = Some n ∧ 100000 ≤ n ≤ 999999
    ∧ String.length code = 6%nat.
Proof.
  apply (contact_reply_carries_stored_otp env_ok alice alice_contact
           {| session_id := "abc"; timestamp := 0 |}
           (set_pending (doc_key alice)
              {| session_id := "abc"; timestamp := 0 |} empty_world)
           eq_refl eq_refl eq_refl eq_refl eq_refl eq_refl
           (lookup_insert_eq _ _ _) eq_refl).
Defined.

(** ** Every event at once *)

(** How one event can change each part of the state. *)
Lemma handle_shape (ev : Event) (w : World) :
  let w' := handle ev w in
  (pending_verifications (db w') = pending_verifications (db w)
   ∨ (∃ d, pending_verifications (db w')
           = <[doc_key (sender ev) := d]> (pending_verifications (db w)))
   ∨ pending_verifications (db w')
     = delete (doc_key (sender ev)) (pending_verifications (db w)))
  ∧ (otp_sessions (db w') = otp_sessions (db w)
     ∨ ∃ k d, otp_sessions (db w') = <[k := d]> (otp_sessions (db w)))
  ∧ (access_codes (db w') = access_codes (db w)
     ∨ ∃ env session batch,
         addCodeSessions w !! Tg.id (sender ev) = Some session
         ∧ build_batch env session = Some batch
         ∧ access_codes (db w') = (access_codes (db w) ++ batch)%list)
  ∧ (addCodeSessions w' = addCodeSessions w
     ∨ (Tg.id (sender ev) = ADMIN_ID
        ∧ addCodeSessions w' = <[ADMIN_ID := fresh_session]> (addCodeSessions w))
     ∨ (∃ env text session,
          addCodeSessions w !! Tg.id (sender ev) = Some session
          ∧ addCodeSessions w'
            = <[Tg.id (sender ev) := text_step env text session]>
                (addCodeSessions w))
     ∨ (∃ env session,
          addCodeSessions w !! Tg.id (sender ev) = Some session
          ∧ addCodeSessions w'
            = <[Tg.id (sender ev) :=
                  set_codes (Some (generate_codes env (count session))) session]>
                (addCodeSessions w))
     ∨ addCodeSessions w' = delete (Tg.id (sender ev)) (addCodeSessions w)).
Proof.
  destruct ev as [env from payload|env from contact|lenv from|lenv from
                 |env from|env from text|env from|env from|from];
    cbn [handle sender].
  - rewrite bot_start_world.
    destruct (JS.truthy payload && db_set_ok env); cbn;
      (split; [|split; [|split]]); eauto 6.
  - rewrite on_contact_world.
    destruct (_ && _); [|by (split; [|split; [|split]]); eauto].
    destruct (pending_verifications (db w) !! doc_key from) as [pd|];
      [|by (split; [|split; [|split]]); eauto].
    destruct (document_path (session_id pd)) as [key|];
      [|by (split; [|split; [|split]]); eauto].
    destruct (db_set_ok env); [|by (split; [|split; [|split]]); eauto].
    destruct (db_delete_ok env); cbn;
      (split; [|split; [|split]]); eauto 6.
  - rewrite getcodes_world. (split; [|split; [|split]]); eauto.
  - rewrite refresh_codes_list_world. (split; [|split; [|split]]); eauto.
  - rewrite addcodes_world.
    destruct (bool_decide (Tg.id from = ADMIN_ID)) eqn:Hadmin;
      [|by (split; [|split; [|split]]); eauto].
    apply bool_decide_eq_true_1 in Hadmin.
    cbn. (split; [|split; [|split]]); eauto. right. left. by rewrite <- Hadmin.
  - rewrite on_text_world.
    destruct (addCodeSessions w !! Tg.id from) as [session|] eqn:Hs;
      [|by (split; [|split; [|split]]); eauto].
    cbn. (split; [|split; [|split]]); eauto. right. right. left. eauto.
  - unfold world_after. rewrite confirm_add_run.
    destruct (addCodeSessions w !! Tg.id from) as [session|] eqn:Hs;
      [|by (split; [|split; [|split]]); eauto].
    destruct (build_batch env session) as [batch|] eqn:Hb;
      [|by (split; [|split; [|split]]); eauto].
    destruct (batch_commit_ok env);
      [|by (split; [|split; [|split]]); eauto].
    destruct (send_ok env); cbn;
      (split; [|split; [|split]]); eauto 10.
  - rewrite regenerate_codes_world.
    destruct (addCodeSessions w !! Tg.id from) as [session|] eqn:Hs;
      [|by (split; [|split; [|split]]); eauto].
    cbn. (split; [|split; [|split]]); eauto. right. right. right. left. eauto.
  - rewrite cancel_add_world. cbn. (split; [|split; [|split]]); eauto 6.
Qed.

(** Different users have different keys in [pending_verifications]. *)
Lemma doc_key_inj (a b : Tg.User) : doc_key a = doc_key b → Tg.id a = Tg.id b.
Proof. unfold doc_key. apply (inj pretty). Qed.

(** X6. The pending record of a user changes only through events of that
    user: whatever another user sends, and whatever the surroundings decide,
    the record under the key of the first user is as before. *)
Theorem pending_record_untouched_by_other_users
    (ev : Event) (b : Tg.User) (w : World) :
  Tg.id (sender ev) ≠ Tg.id b →
  pending_verifications (db (handle ev w)) !! doc_key b
  = pending_verifications (db w) !! doc_key b.
Proof.
  intros Hne.
  assert (Hkey : doc_key (sender ev) ≠ doc_key b)
    by (intros H; by apply Hne, doc_key_inj).
  destruct (handle_shape ev w) as ([->|[[d ->]| ->]] & _); [done| |].
  - by rewrite lookup_insert_ne.
  - by rewrite lookup_delete_ne.
Qed.

Lemma pending_record_untouched_by_other_users_witness :
  pending_verifications
    (db (handle (EvStart env_ok alice (Some "abc")) empty_world)) !! doc_key bob
  = pending_verifications (db empty_world) !! doc_key bob.
Proof.
  apply (pending_record_untouched_by_other_users
           (EvStart env_ok alice (Some "abc")) bob empty_world).
  vm_compute. discriminate.
Defined.

Lemma build_batch_length (env : Env) (s : Session) (batch : list AccessCode) :
  build_batch env s = Some batch →
  ∃ cs, codes s = Some cs ∧ length batch = length cs.
Proof.
  unfold build_batch. destruct (codes s) as [cs|]; [|discriminate].
  cbn. intros H%length_mapM. eauto.
Qed.

Lemma build_batch_without_link (env : Env) (s : Session)
    (batch : list AccessCode) :
  name s = None ∨ link s = None →
  build_batch env s = Some batch → batch = [].
Proof.
  unfold build_batch. destruct (codes s) as [[|c cs]|]; cbn; try discriminate.
  - intros _ [= <-]. reflexivity.
  - intros [-> | ->]; [discriminate|]. by destruct (name s).
Qed.

(** X7. The store only grows where codes and OTP sessions are concerned: no
    event removes or alters a document of [access_codes] (new ones are put
    after the old), and no event removes an OTP session. *)
Theorem stored_codes_and_otp_sessions_stay (ev : Event) (w : World) :
  (∃ new, access_codes (db (handle ev w)) = (access_codes (db w) ++ new)%list)
  ∧ (∀ k, is_Some (otp_sessions (db w) !! k) →
          is_Some (otp_sessions (db (handle ev w)) !! k)).
Proof.
  destruct (handle_shape ev w) as (_ & Hotp & Hcodes & _). split.
  - destruct Hcodes as [-> | (env & s & batch & _ & _ & ->)].
    + exists []. by rewrite app_nil_r.
    + by exists batch.
  - intros k Hk. destruct Hotp as [-> | (k' & d & ->)]; [done|].
    destruct (decide (k' = k)) as [->|Hne].
    + rewrite lookup_insert_eq. eauto.
    + by rewrite lookup_insert_ne.
Qed.

(** ** What holds of the sessions in every state the bot can reach *)

Lemma ToLength_count (n : Z) : 1 ≤ n ≤ 50 → JS.ToLength (Some n) = Z.to_nat n.
Proof.
  intros Hn. unfold JS.ToLength. change (2 ^ 53 - 1) with 9007199254740991.
  f_equal. lia.
Qed.

Lemma generate_codes_at_most_50 (env : Env) (s : Session) :
  session_ok s → (length (generate_codes env (count s)) ≤ 50)%nat.
Proof.
  intros [_ Hs]. rewrite generate_codes_length.
  destruct (step s); [destruct Hs as (-> & _); cbn; lia|..].
  - destruct Hs as ((n & -> & Hn) & _). rewrite ToLength_count by done. lia.
  - destruct Hs as ((n & -> & Hn) & _). rewrite ToLength_count by done. lia.
  - destruct Hs as (n & nm & lk & cs & Hn & _ & -> & _).
    rewrite ToLength_count by done. lia.
Qed.

Lemma session_ok_fresh : session_ok fresh_session.
Proof. split; [discriminate | by cbn]. Qed.

Lemma session_ok_text_step (env : Env) (text : string) (s : Session) :
  session_ok s → session_ok (text_step env text s).
Proof.
  intros Hok. pose proof Hok as [Hcodes Hs]. unfold text_step.
  destruct (step s) eqn:Hstep.
  - destruct (JS.count_rejected (JS.parseInt (JS.trim text))) eqn:Hrej; [done|].
    destruct Hs as (_ & Hn & Hl).
    destruct (JS.parseInt (JS.trim text)) as [n|]; [|discriminate].
    cbn in Hrej. split; [exact Hcodes|]. cbn.
    split; [exists n; split; [done|lia] | done].
  - destruct Hs as (Hn & _ & Hl). split; [exact Hcodes|]. cbn. eauto.
  - destruct Hs as ((n & Hn & Hn50) & [nm Hnm] & _). split.
    + cbn. intros cs [= <-]. by apply generate_codes_at_most_50.
    + cbn. exists n, nm, (JS.trim text), (generate_codes env (count s)).
      split; [done|]. unfold preview_of. cbn.
      rewrite generate_codes_length, Hn, ToLength_count by done. done.
  - done.
Qed.

Lemma session_ok_regenerate (env : Env) (s : Session) :
  session_ok s →
  session_ok (set_codes (Some (generate_codes env (count s))) s).
Proof.
  intros Hok. pose proof Hok as [Hcodes Hs]. split.
  - cbn. intros cs [= <-]. by apply generate_codes_at_most_50.
  - cbn. destruct (step s) eqn:Hstep; try done.
    destruct Hs as (n & nm & lk & cs & Hn & Hst & Hc & Hnm & Hlk & _ & _).
    exists n, nm, lk, (generate_codes env (count s)). split; [done|].
    unfold preview_of. cbn.
    rewrite generate_codes_length, Hc, ToLength_count by done. done.
Qed.

Lemma sessions_ok_insert (w w' : World) (s : Session) :
  sessions_ok w → session_ok s →
  addCodeSessions w' = <[ADMIN_ID := s]> (addCodeSessions w) →
  sessions_ok w'.
Proof.
  intros Hw Hs Heq k s' Hk. rewrite Heq in Hk.
  destruct (decide (ADMIN_ID = k)) as [<-|Hne].
  - rewrite lookup_insert_eq in Hk. by injection Hk as <-.
  - rewrite lookup_insert_ne in Hk by done. by apply Hw.
Qed.

Lemma sessions_ok_handle (ev : Event) (w : World) :
  sessions_ok w → sessions_ok (handle ev w).
Proof.
  intros Hw.
  destruct (handle_shape ev w) as (_ & _ & _ & Hs).
  destruct Hs as [Heq|[[Hid Heq]|[(env & text & s & Hlook & Heq)
                 |[(env & s & Hlook & Heq)|Heq]]]].
  - intros k s Hk. rewrite Heq in Hk. by apply Hw.
  - eapply sessions_ok_insert; [exact Hw | apply session_ok_fresh | exact Heq].
  - destruct (Hw _ _ Hlook) as [Hid Hok]. rewrite Hid in Heq.
    eapply sessions_ok_insert;
      [exact Hw | by apply (session_ok_text_step env text) | exact Heq].
  - destruct (Hw _ _ Hlook) as [Hid Hok]. rewrite Hid in Heq.
    eapply sessions_ok_insert;
      [exact Hw | by apply (session_ok_regenerate env) | exact Heq].
  - intros k s Hk. rewrite Heq in Hk.
    apply lookup_delete_Some in Hk as [_ Hk]. by apply Hw.
Qed.

Lemma sessions_ok_run_events (evs : list Event) (w : World) :
  sessions_ok w → sessions_ok (run_events evs w).
Proof.
  revert w. induction evs as [|ev evs IH]; intros w Hw; [exact Hw|].
  cbn. apply IH. by apply sessions_ok_handle.
Qed.

Lemma sessions_ok_start (w : World) : addCodeSessions w = ∅ → sessions_ok w.
Proof. intros H k s Hk. by rewrite H in Hk. Qed.

(** X8. Whatever events arrive after the process has started, and whatever
    the surroundings decide: only the admin ever has a session; its count,
    once set, is from 1 to 50; it never holds more than 50 codes; and at
    [PREVIEW] it has a name, a link and exactly as many codes as its count
    says. *)
Theorem sessions_stay_well_formed (evs : list Event) (w0 : World) :
  addCodeSessions w0 = ∅ →
  ∀ k s, addCodeSessions (run_events evs w0) !! k = Some s →
         k = ADMIN_ID ∧ session_ok s.
Proof.
  intros H0. apply sessions_ok_run_events. by apply sessions_ok_start.
Qed.

Lemma sessions_stay_well_formed_witness :
  ADMIN_ID = ADMIN_ID
  ∧ session_ok {| step := ASK_NAME; count := Some 3; name := None;
                  link := None; codes := None |}.
Proof.
  apply (sessions_stay_well_formed
           [EvAddcodes env_three_codes the_admin; EvText env_three_codes the_admin "3"]
           empty_world eq_refl ADMIN_ID
           {| step := ASK_NAME; count := Some 3; name := None;
              link := None; codes := None |}).
  reflexivity.
Defined.

(** X9. None of the handlers for text, confirm, regenerate and cancel asks
    who the sender is; still, in every state the bot can reach, an event of
    anyone but the admin changes neither the codes in the store nor the
    sessions. *)
Theorem only_admin_changes_codes_and_sessions
    (evs : list Event) (ev : Event) (w0 : World) :
  addCodeSessions w0 = ∅ →
  Tg.id (sender ev) ≠ ADMIN_ID →
  let w := run_events evs w0 in
  access_codes (db (handle ev w)) = access_codes (db w)
  ∧ addCodeSessions (handle ev w) = addCodeSessions w.
Proof.
  intros H0 Hne w.
  assert (Hnone : addCodeSessions w !! Tg.id (sender ev) = None).
  { destruct (addCodeSessions w !! Tg.id (sender ev)) as [s|] eqn:Hs; [|done].
    destruct (sessions_ok_run_events evs w0 (sessions_ok_start w0 H0) _ _ Hs)
      as [Hid _]. done. }
  destruct (handle_shape ev w) as (_ & _ & Hcodes & Hs). split.
  - destruct Hcodes as [-> | (env & s & batch & Hlook & _)]; [done|].
    fold w in Hnone. congruence.
  - destruct Hs as [Heq|[[Hid _]|[(env & text & s & Hlook & _)
                   |[(env & s & Hlook & _)|Heq]]]]; try done; try congruence.
    rewrite Heq. by apply delete_id.
Qed.

Lemma only_admin_changes_codes_and_sessions_witness :
  let w := run_events [EvAddcodes env_three_codes the_admin; EvText env_three_codes the_admin "3"]
             empty_world in
  access_codes (db (handle (EvCancelAdd alice) w)) = access_codes (db w)
  ∧ addCodeSessions (handle (EvCancelAdd alice) w) = addCodeSessions w.
Proof.
  apply (only_admin_changes_codes_and_sessions
           [EvAddcodes env_three_codes the_admin; EvText env_three_codes the_admin "3"]
           (EvCancelAdd alice) empty_world); [reflexivity | discriminate].
Defined.

(** X10. What one event can add to the codes in the store, in every state
    the bot can reach: nothing, or the documents for the codes of the
    admin's session at [PREVIEW], from 1 to 50 of them, all unused, with the
    name and the link that the session holds. *)
Theorem event_adds_only_previewed_codes
    (evs : list Event) (ev : Event) (w0 : World) :
  addCodeSessions w0 = ∅ →
  let w := run_events evs w0 in
  access_codes (db (handle ev w)) = access_codes (db w)
  ∨ ∃ env session n nm lk cs,
      Tg.id (sender ev) = ADMIN_ID
      ∧ addCodeSessions w !! ADMIN_ID = Some session
      ∧ 1 ≤ n ≤ 50 ∧ preview_of session n nm lk cs
      ∧ access_codes (db (handle ev w))
        = (access_codes (db w) ++ access_code_docs env nm lk cs)%list.
Proof.
  intros H0 w.
  destruct (handle_shape ev w) as (_ & _ & Hcodes & _).
  destruct Hcodes as [Heq | (env & s & batch & Hlook & Hb & Heq)]; [by left|].
  destruct (sessions_ok_run_events evs w0 (sessions_ok_start w0 H0) _ _ Hlook)
    as [Hid [_ Hs]].
  destruct (step s) eqn:Hstep.
  - left. destruct Hs as (_ & _ & Hl).
    rewrite Heq, (build_batch_without_link env s batch (or_intror Hl) Hb).
    apply app_nil_r.
  - left. destruct Hs as (_ & _ & Hl).
    rewrite Heq, (build_batch_without_link env s batch (or_intror Hl) Hb).
    apply app_nil_r.
  - left. destruct Hs as (_ & _ & Hl).
    rewrite Heq, (build_batch_without_link env s batch (or_intror Hl) Hb).
    apply app_nil_r.
  - right. destruct Hs as (n & nm & lk & cs & Hn & Hp).
    exists env, s, n, nm, lk, cs. rewrite <- Hid at 2.
    split; [done|]. split; [done|]. split; [done|]. split; [done|].
    destruct Hp as (_ & _ & Hnm & Hlk & Hcs & _).
    rewrite (build_batch_preview env s nm lk cs Hnm Hlk Hcs) in Hb.
    injection Hb as <-. exact Heq.
Qed.

Lemma event_adds_only_previewed_codes_witness :
  let w := run_events [EvAddcodes env_three_codes the_admin; EvText env_three_codes the_admin "3"]
             empty_world in
  access_codes (db (handle (EvConfirmAdd env_ok the_admin) w))
  = access_codes (db w)
  ∨ ∃ env session n nm lk cs,
      Tg.id (sender (EvConfirmAdd env_ok the_admin)) = ADMIN_ID
      ∧ addCodeSessions w !! ADMIN_ID = Some session
      ∧ 1 ≤ n ≤ 50 ∧ preview_of session n nm lk cs
      ∧ access_codes (db (handle (EvConfirmAdd env_ok the_admin) w))
        = (access_codes (db w) ++ access_code_docs env nm lk cs)%list.
Proof.
  apply (event_adds_only_previewed_codes
           [EvAddcodes env_three_codes the_admin; EvText env_three_codes the_admin "3"]
           (EvConfirmAdd env_ok the_admin) empty_world).
  reflexivity.
Defined.

(** ** Buttons pressed out of turn *)

Lemma commit_empty_batch (w : World) : commit_batch [] w = w.
Proof.
  destruct w as [[p o a] s]. unfold commit_batch, with_db. cbn.
  by rewrite app_nil_r.
Qed.

(** X11. The confirm button pressed before the dialog is at [PREVIEW] (from
    an older preview message) writes nothing to the store.  Without codes in
    the session, or with codes and no name, the commit is not reached: a
    database error is reported and the session stays.  With an empty list of
    codes (after a regenerate at [ASK_COUNT]) an empty batch is committed,
    the session is removed and the message reports [undefined] codes. *)
Theorem confirm_before_preview_writes_nothing
    (env : Env) (from : Tg.User) (w : World) (session : Session) :
  addCodeSessions w !! Tg.id from = Some session →
  link session = None →
  db (world_after (confirm_add env from) w) = db w
  ∧ (codes session = None ∨ (∃ c cs, codes session = Some (c :: cs)) →
     run (confirm_add env from) w
     = (Some tt, {| world := w; sent := [DatabaseError] |}))
  ∧ (codes session = Some [] → batch_commit_ok env = true →
     send_ok env = true →
     run (confirm_add env from) w
     = (Some tt, {| world := with_sessions (delete (Tg.id from)) w;
                    sent := [EditAdded (count session) (name session)] |})).
Proof.
  intros Hs Hl. split; [|split].
  - unfold world_after. rewrite confirm_add_run, Hs.
    destruct (build_batch env session) as [batch|] eqn:Hb; [|reflexivity].
    rewrite (build_batch_without_link env session batch (or_intror Hl) Hb),
      commit_empty_batch.
    by destruct (batch_commit_ok env), (send_ok env).
  - intros Hc. rewrite confirm_add_run, Hs.
    assert (Hb : build_batch env session = None); [|by rewrite Hb].
    unfold build_batch.
    destruct Hc as [-> | (c & cs & ->)]; [reflexivity|].
    cbn. rewrite Hl. by destruct (name session).
  - intros Hc Hcommit Hsend. rewrite confirm_add_run, Hs.
    unfold build_batch. rewrite Hc. cbn.
    by rewrite Hcommit, Hsend, commit_empty_batch.
Qed.

Lemma confirm_before_preview_writes_nothing_witness :
  db (world_after (confirm_add env_ok the_admin) (admin_world fresh_session))
  = db (admin_world fresh_session)
  ∧ (codes fresh_session = None ∨ (∃ c cs, codes fresh_session = Some (c :: cs)) →
     run (confirm_add env_ok the_admin) (admin_world fresh_session)
     = (Some tt, {| world := admin_world fresh_session;
                    sent := [DatabaseError] |}))
  ∧ (codes fresh_session = Some [] → batch_commit_ok env_ok = true →
     send_ok env_ok = true →
     run (confirm_add env_ok the_admin) (admin_world fresh_session)
     = (Some tt, {| world := with_sessions (delete (Tg.id the_admin))
                               (admin_world fresh_session);
                    sent := [EditAdded (count fresh_session)
                               (name fresh_session)] |})).
Proof.
  apply (confirm_before_preview_writes_nothing env_ok the_admin
           (admin_world fresh_session) fresh_session);
    [apply lookup_singleton_eq | reflexivity].
Defined.

(** X12. Regenerate, then confirm: the message of the regenerate button
    lists the new codes under the name of the session, nothing is written
    yet, and a confirm that goes through writes the new codes (as many as
    the count says) and none of the ones shown before. *)
Theorem regenerate_then_confirm_writes_new_codes
    (env1 env2 : Env) (from : Tg.User) (w : World) (session : Session)
    (n : Z) (nm lk : string) (cs : list string) :
  addCodeSessions w !! Tg.id from = Some session →
  preview_of session n nm lk cs → 1 ≤ n ≤ 50 →
  batch_commit_ok env2 = true → send_ok env2 = true →
  let cs' := generate_codes env1 (Some n) in
  let w1 := CallM.world_after (regenerate_codes env1 from) w in
  let w2 := world_after (confirm_add env2 from) w1 in
  CallM.calls_by (regenerate_codes env1 from) w
  = [EditMessageText
       ("🔄 *Regenerated Codes for " +:+ nm +:+ "*" +:+ nl +:+ nl
        +:+ join nl (List.map (λ c, "`" +:+ c +:+ "`") cs'))]
  ∧ length cs' = Z.to_nat n
  ∧ db w1 = db w
  ∧ access_codes (db w2)
    = (access_codes (db w) ++ access_code_docs env2 nm lk cs')%list
  ∧ addCodeSessions w2 !! Tg.id from = None.
Proof.
  intros Hs Hp Hn Hcommit Hsend cs' w1 w2.
  pose proof Hp as (Hstep & Hcount & Hname & Hlink & Hcodes & Hlen).
  assert (Hlen' : length cs' = Z.to_nat n).
  { subst cs'. by rewrite generate_codes_length, ToLength_count. }
  assert (Hw1 : w1 = with_sessions
                       (<[Tg.id from := set_codes (Some cs') session]>) w).
  { subst w1 cs'. by rewrite regenerate_codes_world, Hs, Hcount. }
  assert (Hs1 : addCodeSessions w1 !! Tg.id from
                = Some (set_codes (Some cs') session)).
  { rewrite Hw1. cbn. apply lookup_insert_eq. }
  assert (Hp1 : preview_of (set_codes (Some cs') session) n nm lk cs')
    by done.
  split.
  { unfold regenerate_codes. run_calls. rewrite Hs. cbn [CallM.calls snd].
    rewrite Hcount, Hname. reflexivity. }
  split; [exact Hlen'|]. split; [by rewrite Hw1|].
  subst w2. unfold world_after.
  rewrite (confirm_add_committed env2 from w1 _ n nm lk cs' Hs1 Hp1 Hcommit Hsend).
  cbn [snd world]. split.
  - cbn. by rewrite Hw1.
  - cbn. apply lookup_delete_eq.
Qed.

Lemma regenerate_then_confirm_writes_new_codes_witness :
  let cs' := generate_codes env_three_codes (Some 2) in
  let w1 := CallM.world_after (regenerate_codes env_three_codes the_admin)
              (admin_world preview_session) in
  let w2 := world_after (confirm_add env_ok the_admin) w1 in
  CallM.calls_by (regenerate_codes env_three_codes the_admin)
    (admin_world preview_session)
  = [EditMessageText
       ("🔄 *Regenerated Codes for " +:+ "Premium Pack" +:+ "*" +:+ nl +:+ nl
        +:+ join nl (List.map (λ c, "`" +:+ c +:+ "`") cs'))]
  ∧ length cs' = Z.to_nat 2
  ∧ db w1 = db (admin_world preview_session)
  ∧ access_codes (db w2)
    = (access_codes (db (admin_world preview_session))
       ++ access_code_docs env_ok "Premium Pack" "http://example.com/x" cs')%list
  ∧ addCodeSessions w2 !! Tg.id the_admin = None.
Proof.
  apply (regenerate_then_confirm_writes_new_codes env_three_codes env_ok
           the_admin (admin_world preview_session) preview_session 2
           "Premium Pack" "http://example.com/x"
           ["REDM-4FZYO8"; "REDM-K2M9QA"]);
    [apply lookup_singleton_eq | by repeat split | lia
    | reflexivity | reflexivity].
Defined.

(** X13. Cancel ends the dialog for its sender and for no one else, and
    touches nothing in the store.  After it, a confirm answers that the
    session has expired, a regenerate answers the button and no more, and a
    text goes on to the next handler; none of the three changes the state.
    The confirm and the regenerate return their answer to the button, so
    each settles as that answer does. *)
Theorem cancel_ends_the_dialog
    (env : Env) (from : Tg.User) (text : string) (w : World) :
  let w' := CallM.world_after (cancel_add from) w in
  CallM.calls_by (cancel_add from) w = [EditMessageText "❌ Cancelled."]
  ∧ db w' = db w
  ∧ addCodeSessions w' !! Tg.id from = None
  ∧ (∀ k, k ≠ Tg.id from → addCodeSessions w' !! k = addCodeSessions w !! k)
  ∧ run (confirm_add env from) w'
    = (if send_ok env then Some tt else None,
       {| world := w'; sent := [AnswerSessionExpired] |})
  ∧ CallM.run (regenerate_codes env from) w'
    = (if send_ok env then Some tt else None,
       {| CallM.world := w'; CallM.calls := [AnswerCbQuery None] |})
  ∧ run (on_text env from text) w'
    = (Some PassedOn, {| world := w'; sent := [] |}).
Proof.
  intros w'.
  assert (Hnone : addCodeSessions w' !! Tg.id from = None).
  { subst w'. rewrite cancel_add_world. cbn. apply lookup_delete_eq. }
  split; [reflexivity|]. split; [reflexivity|]. split; [exact Hnone|].
  split.
  { intros k Hk. subst w'. rewrite cancel_add_world. cbn.
    by apply lookup_delete_ne. }
  split; [by rewrite confirm_add_run, Hnone|].
  split; [|by apply on_text_without_session].
  unfold regenerate_codes. unfold CallM.run. run_calls. rewrite Hnone.
  by destruct (send_ok env).
Qed.

(** ** The dialog from end to end *)

Lemma count_accepted (n : Z) : 1 ≤ n ≤ 50 → JS.count_rejected (Some n) = false.
Proof.
  intros Hn. unfold JS.count_rejected. apply orb_false_iff. split; lia.
Qed.

(** X14. The whole dialog, started in any state (also in the middle of an
    earlier dialog, which [/addcodes] discards): after [/addcodes], a text
    that reads as a count [n] from 1 to 50, a name, a link and a confirm
    that goes through, the store has [n] more codes, all unused, under the
    trimmed name and link; the codes are the ones made when the link
    arrived; the session is gone and the rest of the store is as before. *)
Theorem add_codes_dialog_end_to_end
    (env0 env1 env2 env3 env4 : Env) (from : Tg.User) (t1 t2 t3 : string)
    (n : Z) (w : World) :
  Tg.id from = ADMIN_ID →
  JS.parseInt (JS.trim t1) = Some n → 1 ≤ n ≤ 50 →
  batch_commit_ok env4 = true → send_ok env4 = true →
  let w' := run_events [EvAddcodes env0 from; EvText env1 from t1;
                        EvText env2 from t2; EvText env3 from t3;
                        EvConfirmAdd env4 from] w in
  let cs := generate_codes env3 (Some n) in
  access_codes (db w')
  = (access_codes (db w)
     ++ access_code_docs env4 (JS.trim t2) (JS.trim t3) cs)%list
  ∧ length cs = Z.to_nat n
  ∧ addCodeSessions w' !! ADMIN_ID = None
  ∧ pending_verifications (db w') = pending_verifications (db w)
  ∧ otp_sessions (db w') = otp_sessions (db w).
Proof.
  intros Hid Hparse Hn Hcommit Hsend w' cs.
  assert (Hlen : length cs = Z.to_nat n).
  { subst cs. by rewrite generate_codes_length, ToLength_count. }
  subst w'. unfold run_events. cbn [fold_left handle].
  rewrite addcodes_world, (bool_decide_eq_true_2 _ Hid).
  set (w1 := with_sessions _ w).
  assert (H1 : addCodeSessions w1 !! Tg.id from = Some fresh_session)
    by (subst w1; cbn; apply lookup_insert_eq).
  rewrite (on_text_world env1 from t1 w1), H1.
  assert (Hstep1 : text_step env1 t1 fresh_session
                   = {| step := ASK_NAME; count := Some n; name := None;
                        link := None; codes := None |}).
  { unfold text_step. cbn [step fresh_session].
    by rewrite Hparse, (count_accepted n Hn). }
  rewrite Hstep1. set (w2 := with_sessions _ w1).
  assert (H2 : addCodeSessions w2 !! Tg.id from
               = Some {| step := ASK_NAME; count := Some n; name := None;
                         link := None; codes := None |})
    by (subst w2; cbn; apply lookup_insert_eq).
  rewrite (on_text_world env2 from t2 w2), H2. cbn [text_step step].
  set (w3 := with_sessions _ w2).
  assert (H3 : addCodeSessions w3 !! Tg.id from
               = Some {| step := ASK_LINK; count := Some n;
                         name := Some (JS.trim t2); link := None;
                         codes := None |})
    by (subst w3; cbn; apply lookup_insert_eq).
  rewrite (on_text_world env3 from t3 w3), H3. cbn [text_step step].
  set (w4 := with_sessions _ w3).
  set (s4 := {| step := PREVIEW; count := Some n; name := Some (JS.trim t2);
                link := Some (JS.trim t3); codes := Some cs |}).
  assert (H4 : addCodeSessions w4 !! Tg.id from = Some s4)
    by (subst w4; cbn; apply lookup_insert_eq).
  assert (Hp4 : preview_of s4 n (JS.trim t2) (JS.trim t3) cs) by done.
  unfold world_after.
  rewrite (confirm_add_committed env4 from w4 s4 n _ _ cs H4 Hp4 Hcommit Hsend).
  cbn [snd world]. split; [reflexivity|]. split; [exact Hlen|].
  split; [|by split].
  cbn. rewrite <- Hid. apply lookup_delete_eq.
Qed.

Lemma add_codes_dialog_end_to_end_witness :
  let w' := run_events [EvAddcodes env_ok the_admin; EvText env_ok the_admin " 3 ";
                        EvText env_ok the_admin "Premium Pack ";
                        EvText env_three_codes the_admin "http://example.com/x";
                        EvConfirmAdd env_ok the_admin] empty_world in
  let cs := generate_codes env_three_codes (Some 3) in
  access_codes (db w')
  = (access_codes (db empty_world)
     ++ access_code_docs env_ok (JS.trim "Premium Pack ")
          (JS.trim "http://example.com/x") cs)%list
  ∧ length cs = Z.to_nat 3
  ∧ addCodeSessions w' !! ADMIN_ID = None
  ∧ pending_verifications (db w') = pending_verifications (db empty_world)
  ∧ otp_sessions (db w') = otp_sessions (db empty_world).
Proof.
  apply (add_codes_dialog_end_to_end env_ok env_ok env_ok env_three_codes
           env_ok the_admin " 3 " "Premium Pack " "http://example.com/x" 3
           empty_world); [reflexivity | reflexivity | lia | reflexivity
                         | reflexivity].
Defined.

(** ** The list of codes *)

Lemma string_app_assoc (a b c : string) : (a +:+ b) +:+ c = a +:+ (b +:+ c).
Proof.
  induction a as [|x a IH]; [reflexivity|].
  change (String x ((a +:+ b) +:+ c) = String x (a +:+ (b +:+ c))).
  by rewrite IH.
Qed.

Lemma string_app_nil_r (a : string) : a +:+ "" = a.
Proof.
  induction a as [|x a IH]; [reflexivity|].
  change (String x (a +:+ "") = String x a). by rewrite IH.
Qed.

(** The loop of [fetchAvailableCodes] appends the rendered lines. *)
Lemma fold_list_entry (docs : list AccessCode) (message current : string) :
  fst (fold_left list_entry docs (message, current))
  = message +:+ concat_strings (List.map render_line (list_lines current docs)).
Proof.
  revert message current.
  induction docs as [|d rest IH]; intros message current.
  - cbn. by rewrite string_app_nil_r.
  - cbn [fold_left list_entry list_lines].
    destruct (String.eqb current (resourceName d)) eqn:Heq; cbn [negb].
    + apply String.eqb_eq in Heq. rewrite <- Heq, IH.
      cbn [app List.map concat_strings render_line].
      by rewrite !string_app_assoc.
    + rewrite IH. cbn [app List.map concat_strings render_line].
      by rewrite !string_app_assoc.
Qed.

Lemma read_lines_list_lines (docs : list AccessCode) (current : string) :
  read_lines current (list_lines current docs)
  = List.map (λ d, (resourceName d, code d)) docs.
Proof.
  revert current. induction docs as [|d rest IH]; intros current; [reflexivity|].
  cbn [list_lines List.map].
  destruct (String.eqb current (resourceName d)) eqn:Heq; cbn [app read_lines].
  - apply String.eqb_eq in Heq as ->. by rewrite IH.
  - by rewrite IH.
Qed.

(** Reading the text: prefixes, last characters, lines. *)
Lemma strip_prefix_app (p s : string) : strip_prefix p (p +:+ s) = Some s.
Proof.
  induction p as [|a p IH]; [reflexivity|].
  change (strip_prefix (String a p) (String a (p +:+ s)) = Some s).
  cbn [strip_prefix]. by rewrite Ascii.eqb_refl.
Qed.

Lemma drop_last_app (c : ascii) (s : string) :
  drop_last c (s +:+ String c "") = Some s.
Proof.
  induction s as [|a s IH].
  - change (drop_last c (String c "") = Some ""). cbn [drop_last].
    by rewrite Ascii.eqb_refl.
  - change (drop_last c (String a (s +:+ String c "")) = Some (String a s)).
    cbn [drop_last]. rewrite IH. by destruct s.
Qed.

Lemma string_forall_app (p : ascii → bool) (a b : string) :
  string_forall p (a +:+ b) = string_forall p a && string_forall p b.
Proof.
  induction a as [|x a IH]; [reflexivity|].
  change (string_forall p (String x (a +:+ b))
          = string_forall p (String x a) && string_forall p b).
  cbn [string_forall]. by rewrite IH, andb_assoc.
Qed.

Lemma split_string_line (a b : string) :
  no_line_feed a = true →
  split_string "010" (a +:+ nl +:+ b) = a :: split_string "010" b.
Proof.
  unfold no_line_feed. induction a as [|x a IH]; [reflexivity|].
  cbn [string_forall]. intros [Hx Ha]%andb_true_iff.
  change (split_string "010" (String x (a +:+ nl +:+ b))
          = String x a :: split_string "010" b).
  cbn [split_string]. apply negb_true_iff in Hx. by rewrite Hx, (IH Ha).
Qed.

Lemma omap_cons_Some {A B} (f : A → option B) (x : A) (y : B) (l : list A) :
  f x = Some y → omap f (x :: l) = y :: omap f l.
Proof. intros H. cbn. by rewrite H. Qed.

Lemma omap_cons_None {A B} (f : A → option B) (x : A) (l : list A) :
  f x = None → omap f (x :: l) = omap f l.
Proof. intros H. cbn. by rewrite H. Qed.

Lemma read_line_header (n : string) :
  read_line ("📂 *" +:+ n +:+ "*") = Some (HeaderLine n).
Proof. unfold read_line. by rewrite strip_prefix_app, drop_last_app. Qed.

Lemma read_line_code (c : string) :
  read_line ("• `" +:+ c +:+ "`") = Some (CodeLine c).
Proof.
  unfold read_line.
  assert (strip_prefix "📂 *" ("• `" +:+ c +:+ "`") = None) as -> by reflexivity.
  by rewrite strip_prefix_app, drop_last_app.
Qed.

Lemma read_rendered_header (n rest : string) :
  no_line_feed n = true →
  omap read_line (split_string "010" (render_line (HeaderLine n) +:+ rest))
  = HeaderLine n :: omap read_line (split_string "010" rest).
Proof.
  intros Hn. unfold render_line.
  assert (Htext : (nl +:+ "📂 *" +:+ n +:+ "*" +:+ nl) +:+ rest
                  = "" +:+ nl +:+ ("📂 *" +:+ n +:+ "*") +:+ nl +:+ rest).
  { rewrite !string_app_assoc. reflexivity. }
  rewrite Htext, (split_string_line "" _ eq_refl), split_string_line.
  - rewrite (omap_cons_None read_line "" _ eq_refl).
    apply omap_cons_Some, read_line_header.
  - unfold no_line_feed in *. by rewrite !string_forall_app, Hn.
Qed.

Lemma read_rendered_code (c rest : string) :
  no_line_feed c = true →
  omap read_line (split_string "010" (render_line (CodeLine c) +:+ rest))
  = CodeLine c :: omap read_line (split_string "010" rest).
Proof.
  intros Hc. unfold render_line.
  assert (Htext : ("• `" +:+ c +:+ "`" +:+ nl) +:+ rest
                  = ("• `" +:+ c +:+ "`") +:+ nl +:+ rest).
  { rewrite !string_app_assoc. reflexivity. }
  rewrite Htext, split_string_line.
  - apply omap_cons_Some, read_line_code.
  - unfold no_line_feed in *. by rewrite !string_forall_app, Hc.
Qed.

(** The lines of the text are the headers and codes that the loop wrote. *)
Lemma lines_of_rendered (docs : list AccessCode) (current : string) :
  one_line_each docs →
  omap read_line
    (split_string "010"
       (concat_strings (List.map render_line (list_lines current docs))))
  = list_lines current docs.
Proof.
  revert current. induction docs as [|d rest IH]; intros current Hdocs;
    [reflexivity|].
  apply Forall_cons in Hdocs as [[Hname Hcode] Hrest].
  cbn [list_lines].
  destruct (String.eqb current (resourceName d));
    cbn [app List.map concat_strings].
  - by rewrite (read_rendered_code _ _ Hcode), (IH _ Hrest).
  - by rewrite (read_rendered_header _ _ Hname), (read_rendered_code _ _ Hcode),
      (IH _ Hrest).
Qed.

Lemma message_lines_list_message (docs : list AccessCode) :
  docs ≠ [] → one_line_each docs →
  message_lines (list_message docs) = Some (list_lines "" docs).
Proof.
  intros Hne Hdocs.
  assert (Hmsg : list_message docs
                 = list_title
                   +:+ concat_strings (List.map render_line (list_lines "" docs))).
  { destruct docs as [|d rest]; [done|]. unfold list_message.
    apply fold_list_entry. }
  unfold message_lines. rewrite Hmsg, strip_prefix_app. cbn [mbind option_bind].
  by rewrite (lines_of_rendered _ _ Hdocs).
Qed.

(** X15. The message of the list can be read back.  For a snapshot that is
    not empty and whose resource names and codes hold no line feed, the text
    that [fetchAvailableCodes] builds starts with the title, and its lines,
    read from top to bottom with every code taken under the last header
    above it (the empty name before the first), give every code of the
    snapshot under its resource name, in the order of the snapshot. *)
Theorem list_message_reads_back (docs : list AccessCode) :
  docs ≠ [] → one_line_each docs →
  read_message (list_message docs)
  = Some (List.map (λ d, (resourceName d, code d)) docs).
Proof.
  intros Hne Hdocs. unfold read_message.
  rewrite (message_lines_list_message docs Hne Hdocs). cbn [fmap option_fmap option_map].
  by rewrite read_lines_list_lines.
Qed.

Lemma list_message_reads_back_witness :
  read_message (list_message sample_docs)
  = Some (List.map (λ d, (resourceName d, code d)) sample_docs).
Proof.
  apply (list_message_reads_back sample_docs); [discriminate|].
  repeat constructor.
Defined.

Lemma leb_empty (s : string) : String.leb "" s = true.
Proof. by destruct s. Qed.

Lemma header_names_header (n : string) (lines : list Line) :
  header_names (HeaderLine n :: lines) = n :: header_names lines.
Proof. reflexivity. Qed.

Lemma header_names_code (c : string) (lines : list Line) :
  header_names (CodeLine c :: lines) = header_names lines.
Proof. reflexivity. Qed.

Lemma headers_of_ordered (docs : list AccessCode) (current : string) :
  Forall (λ b, String.leb current (resourceName b) = true) docs →
  ordered_by_name docs →
  NoDup (header_names (list_lines current docs))
  ∧ ∀ n, n ∈ header_names (list_lines current docs)
         ↔ n ≠ current ∧ ∃ d, d ∈ docs ∧ resourceName d = n.
Proof.
  revert current. induction docs as [|d rest IH]; intros current Hcur Hord.
  - split; [constructor|]. intros n. split.
    + intros H. by apply elem_of_nil in H.
    + intros (_ & d & Hd & _). by apply elem_of_nil in Hd.
  - destruct Hord as [Hd Hrest].
    destruct (IH (resourceName d) Hd Hrest) as [Hnodup Hmem].
    apply Forall_cons in Hcur as [Hcd Hcur].
    cbn [list_lines].
    destruct (String.eqb current (resourceName d)) eqn:Heq.
    + apply String.eqb_eq in Heq as ->. cbn [app].
      rewrite ?header_names_header, ?header_names_code.
      split; [exact Hnodup|]. intros n. rewrite Hmem. split.
      * intros (Hn & b & Hb & Hname). split; [done|].
        exists b. split; [by apply list_elem_of_further | done].
      * intros (Hn & b & Hb & Hname). split; [done|].
        apply elem_of_cons in Hb as [-> | Hb]; [done|]. eauto.
    + apply String.eqb_neq in Heq. cbn [app].
      rewrite ?header_names_header, ?header_names_code.
      split.
      * apply NoDup_cons_2; [|exact Hnodup].
        intros Hin. apply Hmem in Hin as [Hin _]. done.
      * intros n. rewrite elem_of_cons, Hmem. split.
        -- intros [-> | (Hn & b & Hb & Hname)].
           ++ split; [done|]. exists d. split; [apply list_elem_of_here|done].
           ++ split.
              ** intros ->. apply Hn.
                 rewrite Forall_forall in Hd. specialize (Hd b Hb).
                 rewrite Hname in Hd. by apply String.leb_antisym.
              ** exists b. split; [by apply list_elem_of_further | done].
        -- intros (Hn & b & Hb & Hname).
           apply elem_of_cons in Hb as [-> | Hb]; [by left|].
           destruct (decide (n = resourceName d)) as [->|Hnd]; [by left|].
           right. eauto.
Qed.

(** X16. The headers of the message of the list.  For a snapshot that is
    not empty, ordered by resource name as the query asks for, and whose
    resource names and codes hold no line feed: in the text that
    [fetchAvailableCodes] builds no resource name stands in two header
    lines, and the names in the header lines are the resource names of the
    snapshot, but for the empty name, whose codes come first and have no
    header. *)
Theorem list_headers_of_ordered_snapshot (docs : list AccessCode) :
  docs ≠ [] → one_line_each docs → ordered_by_name docs →
  ∃ headers,
    message_headers (list_message docs) = Some headers
    ∧ NoDup headers
    ∧ ∀ n, n ∈ headers ↔ n ≠ "" ∧ ∃ d, d ∈ docs ∧ resourceName d = n.
Proof.
  intros Hne Hdocs Hord. exists (header_names (list_lines "" docs)).
  split.
  { unfold message_headers.
    by rewrite (message_lines_list_message docs Hne Hdocs). }
  apply headers_of_ordered; [|exact Hord].
  apply Forall_forall. intros b _. apply leb_empty.
Qed.

Lemma list_headers_of_ordered_snapshot_witness :
  ∃ headers,
    message_headers (list_message sample_docs) = Some headers
    ∧ NoDup headers
    ∧ ∀ n, n ∈ headers ↔ n ≠ "" ∧ ∃ d, d ∈ sample_docs ∧ resourceName d = n.
Proof.
  apply (list_headers_of_ordered_snapshot sample_docs); [discriminate| |].
  - repeat constructor.
  - cbn. repeat (split; [repeat constructor|]). exact I.
Defined.

(** X17. [/getcodes] from the admin never fails and never changes the
    state.  The list is sent exactly when the query resolves; the failure to
    fetch is reported when the query is rejected, and also when the query
    resolves and it is the reply with the list that is rejected. *)
Theorem getcodes_for_admin (lenv : ListEnv) (from : Tg.User) (w : World) :
  Tg.id from = ADMIN_ID →
  CallM.run (getcodes lenv from) w
  = (Some tt,
     {| CallM.world := w;
        CallM.calls :=
          (if query_ok lenv then [Reply (list_message (snapshot lenv))] else [])
          ++ (if query_ok lenv && reply_ok lenv then []
              else [Reply "⚠️ Failed to fetch codes. Check Render logs for details."])
     |}).
Proof.
  intros Hid. unfold getcodes, fetchAvailableCodes, CallM.run.
  rewrite (bool_decide_eq_true_2 _ Hid). cbn [negb]. run_calls.
  destruct (query_ok lenv); cbn; [|reflexivity].
  destruct (reply_ok lenv); reflexivity.
Qed.

Lemma getcodes_for_admin_witness :
  CallM.run (getcodes lenv_ok the_admin) empty_world
  = (Some tt,
     {| CallM.world := empty_world;
        CallM.calls :=
          (if query_ok lenv_ok
           then [Reply (list_message (snapshot lenv_ok))] else [])
          ++ (if query_ok lenv_ok && reply_ok lenv_ok then []
              else [Reply "⚠️ Failed to fetch codes. Check Render logs for details."])
     |}).
Proof. apply (getcodes_for_admin lenv_ok the_admin empty_world). reflexivity. Defined.

(** X18. The refresh button, for every sender and whatever the surroundings
    decide: the state stays as it is; the last call answers the button; the
    handler fails exactly when that last answer is rejected; and the answer
    says that the list was refreshed only when the sender is the admin and
    the message was edited to the list of the snapshot. *)
Theorem refresh_codes_list_answers_last
    (lenv : ListEnv) (from : Tg.User) (w : World) :
  ∃ (before : list Call) (answer : string) (ok : bool),
    CallM.run (refresh_codes_list lenv from) w
    = (if ok then Some tt else None,
       {| CallM.world := w;
          CallM.calls := before ++ [AnswerCbQuery (Some answer)] |})
    ∧ ok = (if String.eqb answer "No changes found or Error."
            then answer_in_catch_ok lenv else answer_ok lenv)
    ∧ (answer = "List Refreshed! ✨" →
       Tg.id from = ADMIN_ID ∧ query_ok lenv = true ∧ edit_ok lenv = true
       ∧ before = [EditMessageText (list_message (snapshot lenv))]).
Proof.
  unfold refresh_codes_list, fetchAvailableCodes, CallM.run.
  destruct (bool_decide (Tg.id from = ADMIN_ID)) eqn:Hadmin; cbn [negb].
  - apply bool_decide_eq_true_1 in Hadmin.
    destruct (query_ok lenv) eqn:Hq; [destruct (edit_ok lenv) eqn:He|].
    + destruct (answer_ok lenv) eqn:Ha.
      * exists [EditMessageText (list_message (snapshot lenv))],
          "List Refreshed! ✨", true.
        run_calls. by cbn.
      * exists [EditMessageText (list_message (snapshot lenv));
                AnswerCbQuery (Some "List Refreshed! ✨")],
          "No changes found or Error.", (answer_in_catch_ok lenv).
        run_calls. cbn. by destruct (answer_in_catch_ok lenv).
    + exists [EditMessageText (list_message (snapshot lenv))],
        "No changes found or Error.", (answer_in_catch_ok lenv).
      run_calls. cbn. by destruct (answer_in_catch_ok lenv).
    + exists [], "No changes found or Error.", (answer_in_catch_ok lenv).
      run_calls. cbn. by destruct (answer_in_catch_ok lenv).
  - exists [], "Unauthorized.", (answer_ok lenv).
    run_calls. by destruct (answer_ok lenv).
Qed.

(** ** Resource codes from the values of [Math.random()] *)

Lemma radix36_digit_char (d : Z) :
  0 ≤ d ≤ 35 → radix36_char (Binary64.radix36_digit d) = true.
Proof.
  intros Hd. rewrite <- (Z2Nat.id d) by lia.
  assert (Hk : (Z.to_nat d < 36)%nat) by lia.
  generalize dependent (Z.to_nat d). intros k Hk.
  do 36 (destruct k as [|k]; [reflexivity|]). lia.
Qed.

Lemma radix36_fraction_chars (fuel : nat) (num den : Z) (rest : string) :
  0 ≤ num < den →
  Binary64.radix36_fraction fuel num den = Some rest →
  string_forall radix36_char rest = true
  ∧ (String.length rest ≤ fuel)%nat
  ∧ (num ≠ 0 → rest ≠ "").
Proof.
  revert num rest. induction fuel as [|fuel IH]; intros num rest Hnum.
  - cbn. destruct (Z.eqb_spec num 0) as [->|Hne]; [|discriminate].
    intros [= <-]. by repeat split.
  - cbn. destruct (Z.eqb_spec num 0) as [->|Hne].
    + intros [= <-]. repeat split; [cbn; lia | done].
    + destruct (Binary64.radix36_fraction fuel ((36 * num) mod den) den)
        as [rest'|] eqn:Hrest; [|discriminate].
      cbn. intros [= <-].
      destruct (IH ((36 * num) mod den) rest') as (Hchars & Hlen & _);
        [apply Z.mod_pos_bound; lia | exact Hrest |].
      split; [|split; [cbn; lia | discriminate]].
      cbn. rewrite Hchars, andb_true_r. apply radix36_digit_char.
      split; [apply Z.div_pos; lia|].
      assert (36 * num / den < 36); [|lia].
      apply Z.div_lt_upper_bound; lia.
Qed.

(** X19. Whatever number [Math.random()] returns, if its rendering in radix
    36 ends within eight digits, the rendering is ["0"] or ["0."] and from
    one to eight digits of [0-9a-z], and the resource code made from it
    matches [^REDM-[A-Z0-9]{6}$] exactly when there are six digits or more:
    every number with a shorter rendering gives a shorter code. *)
Theorem generateResourceCode_of_rendering (x : spec_float) (r36 : string) :
  Binary64.toString36 x = Some r36 →
  radix36_rendering r36 = true
  ∧ (fraction_length r36 ≤ 8)%nat
  ∧ String.length (generateResourceCode r36)
    = (5 + Nat.min 6 (fraction_length r36))%nat
  ∧ matches_code_pattern (generateResourceCode r36)
    = (6 <=? fraction_length r36)%nat.
Proof.
  intros Hx.
  assert (Hr : radix36_rendering r36 = true ∧ (fraction_length r36 ≤ 8)%nat).
  { unfold Binary64.toString36 in Hx.
    destruct x as [s|s| |[] m e]; try discriminate Hx.
    - injection Hx as <-. split; [reflexivity | cbn; lia].
    - destruct ((e <? 0) && (Z.pos m <? 2 ^ (- e))) eqn:Hb; [|discriminate Hx].
      apply andb_true_iff in Hb as [He Hm].
      apply Z.ltb_lt in He, Hm.
      destruct (Binary64.radix36_fraction 8 (Z.pos m) (2 ^ (- e)))
        as [rest|] eqn:Hrest; [|discriminate Hx].
      cbn in Hx. injection Hx as <-.
      destruct (radix36_fraction_chars 8 (Z.pos m) (2 ^ (- e)) rest)
        as (Hchars & Hlen & Hne); [lia | exact Hrest |].
      specialize (Hne ltac:(lia)).
      change ("0." +:+ rest) with (String "0" (String "." rest)).
      unfold fraction_length. cbn [radix36_rendering String.length].
      rewrite Hchars, andb_true_r. split; [|lia].
      destruct rest; [done | reflexivity]. }
  destruct Hr as [Hr Hlen]. split; [exact Hr|]. split; [exact Hlen|].
  split; [apply generateResourceCode_length|].
  by apply generateResourceCode_pattern.
Qed.

Lemma generateResourceCode_of_rendering_witness :
  radix36_rendering "0.i" = true
  ∧ (fraction_length "0.i" ≤ 8)%nat
  ∧ String.length (generateResourceCode "0.i")
    = (5 + Nat.min 6 (fraction_length "0.i"))%nat
  ∧ matches_code_pattern (generateResourceCode "0.i")
    = (6 <=? fraction_length "0.i")%nat.
Proof.
  apply (generateResourceCode_of_rendering one_half "0.i"). reflexivity.
Defined.

(** ** Commands registered after the text handler *)

Lemma on_text_consumed (env : Env) (from : Tg.User) (text : string) (w : World)
    (session : Session) :
  addCodeSessions w !! Tg.id from = Some session →
  result_of (on_text env from text) w ≠ Some PassedOn.
Proof.
  intros Hs. unfold result_of.
  destruct (step session) eqn:Hstep.
  - destruct (JS.count_rejected (JS.parseInt (JS.trim text))) eqn:Hrej.
    + rewrite (on_text_ask_count_rejected env from text w session Hs Hstep Hrej).
      by destruct (send_ok env).
    + by rewrite (on_text_ask_count_accepted env from text w session Hs Hstep Hrej).
  - by rewrite (on_text_ask_name env from text w session Hs Hstep).
  - by rewrite (on_text_ask_link env from text w session Hs Hstep).
  - by rewrite (on_text_preview env from text w session Hs Hstep).
Qed.

(** X20. The dialog shadows the commands registered after the text handler.
    While the sender has a session, a message with [/admin_socials] is not
    answered by the command: the text handler takes it as the input of the
    dialog at its step.  Without a session the command answers, and the
    state stays as it is. *)
Theorem dialog_shadows_admin_socials
    (env : Env) (from : Tg.User) (text : string) (w : World) :
  match addCodeSessions w !! Tg.id from with
  | Some session =>
      ∃ out,
        admin_socials_message env from text w
        = (out, [],
           with_sessions (<[Tg.id from := text_step env text session]>) w)
  | None =>
      admin_socials_message env from text w
      = ([], [Reply "📞 *Contact Admin*"], w)
  end.
Proof.
  unfold admin_socials_message.
  destruct (addCodeSessions w !! Tg.id from) as [session|] eqn:Hs.
  - pose proof (on_text_consumed env from text w session Hs) as Hres.
    pose proof (on_text_world env from text w) as Hw.
    rewrite Hs in Hw. unfold result_of in Hres. unfold world_after in Hw.
    destruct (run (on_text env from text) w) as [result st].
    cbn [fst snd] in Hres, Hw. rewrite Hw. exists (sent st).
    by destruct result as [[]|].
  - by rewrite (on_text_without_session env from text w Hs).
Qed.

(** ** Division in binary64 *)

Lemma location_code_range (D r : Z) :
  0 < D → 0 ≤ r < D →
  let c := location_code (new_location D r) in
  0 ≤ c ≤ 3 ∧ (0 < r → 1 ≤ c) ∧ (2 * r < D → c ≤ 1).
Proof.
  intros HD Hr. unfold new_location, new_location_even, new_location_odd.
  destruct (Z.even D) eqn:Heven.
  - destruct (Z.eqb_spec r 0) as [->|Hne]; [cbn; lia|].
    destruct (Z.compare_spec (2 * r) D); cbn; lia.
  - destruct (Z.eqb_spec r 0) as [->|Hne]; [cbn; lia|].
    destruct (Z.compare_spec (2 * r + 1) D); cbn; lia.
Qed.

Lemma two_more_bits (q c : Z) :
  0 ≤ q → 0 ≤ c ≤ 3 →
  (4 * q + c) / 2 = 2 * q + c / 2
  ∧ Z.odd (4 * q + c) = Z.odd c
  ∧ Z.odd (2 * q + c / 2) = Z.odd (c / 2)
  ∧ (2 * q + c / 2) / 2 = q.
Proof.
  intros Hq Hc.
  assert (Hc2 : 0 ≤ c / 2 < 2).
  { split; [apply Z.div_pos; lia | apply Z.div_lt_upper_bound; lia]. }
  split; [|split; [|split]].
  - replace (4 * q + c) with (2 * q * 2 + c) by lia.
    by rewrite Z.div_add_l by lia.
  - replace (4 * q + c) with (c + 2 * (2 * q)) by lia.
    apply Z.odd_add_mul_2.
  - replace (2 * q + c / 2) with (c / 2 + 2 * q) by lia.
    apply Z.odd_add_mul_2.
  - replace (2 * q + c / 2) with (q * 2 + c / 2) by lia.
    rewrite Z.div_add_l by lia. rewrite (Z.div_small (c / 2) 2) by lia. lia.
Qed.

Lemma shr_record_as_shift (q : Z) (l : location) :
  0 ≤ q →
  Nat.iter 2 shr_1
    {| shr_m := 4 * q + location_code l; shr_r := false; shr_s := false |}
  = shr_record_of_loc q l.
Proof.
  intros Hq.
  change (shr_1 (shr_1 {| shr_m := 4 * q + location_code l;
                          shr_r := false; shr_s := false |})
          = shr_record_of_loc q l).
  assert (Hc : 0 ≤ location_code l ≤ 3) by (destruct l as [|[]]; cbn; lia).
  destruct (two_more_bits q (location_code l) Hq Hc) as (H1 & H2 & H3 & H4).
  rewrite shr_1_nonneg by lia. rewrite H1, H2.
  rewrite shr_1_nonneg by (assert (0 ≤ location_code l / 2)
                             by (apply Z.div_pos; lia); lia).
  rewrite H3, H4. by destruct l as [|[]].
Qed.

(** Rounding a mantissa with a location is rounding the mantissa with two
    more bits. *)
Lemma round_with_location (q e : Z) (l : location) (M : positive) :
  0 ≤ q →
  Z.pos M = 4 * q + location_code l →
  e ≤ fexp 53 1024 (Zdigits2 q + e) →
  fexp 53 1024 (Z.pos (digits2_pos M) + (e - 2))
  = fexp 53 1024 (Zdigits2 q + e) →
  binary_round_aux 53 1024 false q e l
  = binary_round_aux 53 1024 false (Z.pos M) (e - 2) loc_Exact.
Proof.
  intros Hq HM Hn Hfexp. unfold binary_round_aux.
  assert (Hshift : shr_fexp 53 1024 q e l
                   = shr_fexp 53 1024 (Z.pos M) (e - 2) loc_Exact);
    [|by rewrite Hshift].
  unfold shr_fexp. cbn [Zdigits2]. rewrite Hfexp.
  set (f := fexp 53 1024 (Zdigits2 q + e)) in *.
  cbn [shr_record_of_loc].
  rewrite (shr_pos _ (e - 2) (f - (e - 2))) by lia.
  rewrite iter_pos_nat.
  replace (Pos.to_nat (Z.to_pos (f - (e - 2))))
    with (Z.to_nat (f - e) + 2)%nat by lia.
  rewrite Nat.iter_add, HM, shr_record_as_shift by done.
  destruct (Z.eq_dec f e) as [Heq|Hne].
  - rewrite Heq, Z.sub_diag, shr_nonpos by lia. cbn [Z.to_nat Nat.iter].
    f_equal. lia.
  - rewrite shr_pos by lia. rewrite iter_pos_nat.
    replace (Pos.to_nat (Z.to_pos (f - e))) with (Z.to_nat (f - e)) by lia.
    f_equal. lia.
Qed.

(** Products in the inequalities below are compared by these steps. *)
Lemma le_mul_one (c x : Z) : 1 ≤ c → 0 ≤ x → x ≤ c * x.
Proof.
  intros Hc Hx. pose proof (Z.mul_le_mono_nonneg_r 1 c x Hx Hc). lia.
Qed.

Lemma lt_of_mul_lt (a b p : Z) : 0 < p → a * p < b * p → a < b.
Proof. intros Hp H. by apply (Z.mul_lt_mono_pos_r p). Qed.

Lemma le_of_mul_le (a b p : Z) : 0 < p → a * p ≤ b * p → a ≤ b.
Proof. intros Hp H. by apply (Z.mul_le_mono_pos_r a b p). Qed.

Lemma half_below_grid (vx B c g h : Z) :
  0 < B → 1 ≤ c → 0 < g → 0 ≤ vx → 2 * vx < B → B = 2 * h →
  2 * (vx * B) < (2 * h + g) * (c * B).
Proof.
  intros HB Hc Hg Hvx Hlt <-.
  assert (E1 : 2 * vx * B < B * B) by (apply Z.mul_lt_mono_pos_r; lia).
  assert (E2 : B * B ≤ c * (B * B))
    by (apply le_mul_one; [lia | apply Z.mul_nonneg_nonneg; lia]).
  assert (E3 : 0 ≤ g * (c * B))
    by (apply Z.mul_nonneg_nonneg; [lia | apply Z.mul_nonneg_nonneg; lia]).
  lia.
Qed.

Lemma next_on_grid (vx G B x' y' K c : Z) :
  0 < G → vx = x' * G → B = y' * G → vx < (K + 1) * (c * B) →
  vx + G ≤ (K + 1) * (c * B).
Proof.
  intros HG -> -> Hlt.
  assert (H1 : x' * G < (K + 1) * (c * y') * G) by lia.
  apply lt_of_mul_lt in H1; [|done].
  assert (H2 : (x' + 1) * G ≤ (K + 1) * (c * y') * G)
    by (apply Z.mul_le_mono_nonneg_r; lia).
  lia.
Qed.

Lemma below_next_whole (vx B c g G K : Z) :
  0 < B → vx + G ≤ (K + 1) * (c * B) → c * g < 2 * G →
  2 * (vx * B) < (2 * ((K + 1) * B - g) + g) * (c * B).
Proof.
  intros HB Hstep Hcg.
  assert (E1 : (vx + G) * B ≤ (K + 1) * (c * B) * B)
    by (apply Z.mul_le_mono_nonneg_r; lia).
  assert (E2 : c * g * B < 2 * G * B)
    by (apply Z.mul_lt_mono_pos_r; lia).
  lia.
Qed.

Lemma fexp_mono (a b : Z) : a ≤ b → fexp 53 1024 a ≤ fexp 53 1024 b.
Proof. rewrite !fexp_unfold. lia. Qed.

Lemma fexp_ge (a : Z) : -1074 ≤ fexp 53 1024 a.
Proof. rewrite fexp_unfold. lia. Qed.

(** The division of two positive numbers, [mx * 2 ^ ex] not above [2 ^ 53]
    by [my * 2 ^ ey] with a small exponent: [e'] is the exponent of the
    quotient, [N] the dividend shifted to it, [q] and [r] the quotient and
    remainder of the mantissas. *)
Section Division.
Variables (mx my : positive) (ex ey : Z).
Hypothesis Hdx : Z.pos (digits2_pos mx) ≤ 53.
Hypothesis Hex : -1074 ≤ ex ≤ 0.
Hypothesis Hey : -100 ≤ ey ≤ 0.
Variables (e' N q r : Z).
Hypothesis He' :
  e' = Z.min (fexp 53 1024 (Z.pos (digits2_pos mx) + ex
                            - (Z.pos (digits2_pos my) + ey))) (ex - ey).
Hypothesis HN : N = Z.pos mx * 2 ^ (ex - ey - e').
Hypothesis Hq : q = N / Z.pos my.
Hypothesis Hr : r = N mod Z.pos my.

Lemma div_shift_nonneg : 0 ≤ ex - ey - e' ∧ -1074 ≤ e' ∧ e' ≤ 100.
Proof using He' Hex Hey Hdx.
  pose proof (fexp_ge (Z.pos (digits2_pos mx) + ex
                       - (Z.pos (digits2_pos my) + ey))).
  rewrite fexp_unfold in *. lia.
Qed.

Lemma div_unfold :
  SFdiv 53 1024 (S754_finite false mx ex) (S754_finite false my ey)
  = binary_round_aux 53 1024 false q e' (new_location (Z.pos my) r).
Proof using He' HN Hq Hr Hex Hey Hdx.
  destruct div_shift_nonneg as (Hs & _).
  unfold SFdiv, SFdiv_core_binary. cbn [Zdigits2 xorb].
  rewrite <- He'.
  assert (Hm : match ex - ey - e' with
               | 0 => Z.pos mx
               | Z.pos _ => Z.shiftl (Z.pos mx) (ex - ey - e')
               | Z.neg _ => 0
               end = N).
  { rewrite HN. destruct (ex - ey - e') as [|p|p] eqn:Hsp; [cbn; lia | | lia].
    by rewrite Z.shiftl_mul_pow2 by lia. }
  rewrite Hm, Hq, Hr. unfold Z.div, Z.modulo.
  by destruct (Z.div_eucl N (Z.pos my)).
Qed.

Lemma div_parts :
  0 < N ∧ 0 ≤ q ∧ 0 ≤ r < Z.pos my ∧ N = Z.pos my * q + r.
Proof using He' HN Hq Hr Hex Hey Hdx.
  destruct div_shift_nonneg as (Hs & _).
  assert (HNpos : 0 < N)
    by (rewrite HN; apply Z.mul_pos_pos; [lia | apply Z.pow_pos_nonneg; lia]).
  split; [done|].
  split; [rewrite Hq; apply Z.div_pos; lia|].
  split; [rewrite Hr; by apply Z.mod_pos_bound|].
  rewrite Hq, Hr. apply Z.div_mod. lia.
Qed.

(** The quotient has the digits that the format asks for. *)
Lemma div_quotient_digits :
  (q = 0 → e' = -1074)
  ∧ (0 < q →
     Z.pos (digits2_pos mx) + ex - (Z.pos (digits2_pos my) + ey)
     ≤ Zdigits2 q + e'
     ≤ Z.pos (digits2_pos mx) + ex - (Z.pos (digits2_pos my) + ey) + 1).
Proof using He' HN Hq Hr Hex Hey Hdx.
  destruct div_shift_nonneg as (Hs & He'lo & _).
  destruct div_parts as (HNpos & Hqpos & Hrb & Hdiv).
  destruct (digits2_pos_bounds mx) as [Hmx1 Hmx2].
  destruct (digits2_pos_bounds my) as [Hmy1 Hmy2].
  set (d1 := Z.pos (digits2_pos mx)) in *.
  set (d2 := Z.pos (digits2_pos my)) in *.
  set (s := ex - ey - e') in *.
  assert (Hd1 : 1 ≤ d1) by (subst d1; lia).
  assert (Hd2 : 1 ≤ d2) by (subst d2; lia).
  assert (Hs2 : 0 < 2 ^ s) by (apply Z.pow_pos_nonneg; lia).
  assert (HNlo : 2 ^ (d1 - 1 + s) ≤ N).
  { rewrite HN, Z.pow_add_r by lia. apply Z.mul_le_mono_nonneg_r; lia. }
  assert (HNhi : N < 2 ^ (d1 + s)).
  { rewrite HN, Z.pow_add_r by lia. apply Z.mul_lt_mono_pos_r; lia. }
  split.
  - intros Hq0. rewrite Hq0 in Hdiv.
    assert (HND : N < Z.pos my) by lia.
    destruct (Z.eq_dec e' (-1074)) as [|Hne]; [done|]. exfalso.
    rewrite fexp_unfold in He'. fold d1 d2 in He'.
    assert (Hs' : s = 53 - d1 + d2) by (subst s; lia).
    assert (2 ^ d2 ≤ 2 ^ (d1 - 1 + s)) by (apply Z.pow_le_mono_r; lia).
    lia.
  - intros Hq1. destruct q as [|p|p] eqn:Hqp; [lia| |lia].
    cbn [Zdigits2].
    assert (Hlow : d1 + s - d2 ≤ Z.pos (digits2_pos p)).
    { destruct (Z_lt_le_dec (d1 + s - d2 - 1) 0) as [|Hk]; [lia|].
      assert (2 ^ (d1 + s - d2 - 1) ≤ Z.pos p); [|
        pose proof (digits_ge p (d1 + s - d2 - 1) Hk); lia].
      rewrite Hq. apply Z.div_le_lower_bound; [lia|].
      assert (0 < 2 ^ (d1 + s - d2 - 1)) by (apply Z.pow_pos_nonneg; lia).
      assert (2 ^ d2 * 2 ^ (d1 + s - d2 - 1) = 2 ^ (d1 - 1 + s)) as Hpow.
      { rewrite <- Z.pow_add_r by lia. f_equal. lia. }
      assert (Z.pos my * 2 ^ (d1 + s - d2 - 1)
              ≤ 2 ^ d2 * 2 ^ (d1 + s - d2 - 1))
        by (apply Z.mul_le_mono_nonneg_r; lia).
      lia. }
    assert (Hhigh : Z.pos (digits2_pos p) ≤ d1 + s - d2 + 1).
    { assert (Hmyp : 2 ^ (d2 - 1) * Z.pos p ≤ Z.pos my * Z.pos p)
        by (apply Z.mul_le_mono_nonneg_r; lia).
      assert (Hp1 : 2 ^ (d2 - 1) ≤ 2 ^ (d2 - 1) * Z.pos p).
      { rewrite Z.mul_comm. apply le_mul_one; [lia|].
        apply Z.pow_nonneg. lia. }
      assert (Hlt : 2 ^ (d2 - 1) < 2 ^ (d1 + s)) by lia.
      apply Z.pow_lt_mono_r_iff in Hlt; [|lia|lia].
      apply digits_le; [lia|].
      assert (2 ^ (d2 - 1) * 2 ^ (d1 + s - d2 + 1) = 2 ^ (d1 + s)) as Hpow.
      { rewrite <- Z.pow_add_r by lia. f_equal. lia. }
      assert (0 < 2 ^ (d2 - 1)) by (apply Z.pow_pos_nonneg; lia).
      apply (Z.mul_lt_mono_pos_l (2 ^ (d2 - 1))); lia. }
    subst s. lia.
Qed.

Lemma div_exponent_below : e' ≤ fexp 53 1024 (Zdigits2 q + e').
Proof using He' HN Hq Hr Hex Hey Hdx.
  destruct div_quotient_digits as [H0 H1].
  destruct div_parts as (_ & Hqpos & _).
  destruct (Z.eq_dec q 0) as [Hz|Hnz].
  - rewrite fexp_unfold, Hz. cbn [Zdigits2]. specialize (H0 Hz). lia.
  - specialize (H1 ltac:(lia)).
    etransitivity; [|apply fexp_mono, H1]. rewrite He'. lia.
Qed.

(** The quotient is rounded between the neighbours of its exact value on
    the grid of the format. *)
Lemma div_grid :
  let g := 2 ^ (fexp 53 1024 (Zdigits2 q + e') + bias) in
  ∃ v, scaled_value
         (SFdiv 53 1024 (S754_finite false mx ex) (S754_finite false my ey)) v
       ∧ (∀ L, (g | L) → L * Z.pos my ≤ N * 2 ^ (e' + bias) → L ≤ v)
       ∧ (∀ H, (g | H) →
               2 * (N * 2 ^ (e' + bias)) < (2 * H + g) * Z.pos my → v ≤ H).
Proof using He' HN Hq Hr Hex Hey Hdx.
  intros g.
  destruct div_shift_nonneg as (Hs & He'lo & He'hi).
  destruct div_parts as (HNpos & Hqpos & Hrb & Hdiv).
  destruct div_quotient_digits as [Hq0 Hq1].
  pose proof div_exponent_below as Hbelow.
  set (fe := fexp 53 1024 (Zdigits2 q + e')) in *.
  destruct (location_code_range (Z.pos my) r ltac:(lia) Hrb)
    as (Hc & Hc1 & Hc2).
  set (c := location_code (new_location (Z.pos my) r)) in *.
  assert (HMpos : 0 < 4 * q + c).
  { destruct (Z.eq_dec q 0) as [Hz|]; [|lia].
    rewrite Hz in Hdiv. specialize (Hc1 ltac:(lia)). lia. }
  set (M := Z.to_pos (4 * q + c)).
  assert (HM : Z.pos M = 4 * q + c) by (subst M; rewrite Z2Pos.id; lia).
  assert (Hfexp : fexp 53 1024 (Z.pos (digits2_pos M) + (e' - 2)) = fe).
  { subst fe. destruct q as [|p|p] eqn:Hqp; [| |lia].
    - specialize (Hq0 eq_refl).
      assert (Z.pos (digits2_pos M) ≤ 2)
        by (apply digits_le; [lia|]; change (2 ^ 2) with 4; lia).
      rewrite !fexp_unfold. cbn [Zdigits2]. lia.
    - cbn [Zdigits2]. f_equal.
      destruct (digits2_pos_bounds p) as [Hp1 Hp2].
      assert (Hpow : 2 ^ (Z.pos (digits2_pos p) + 1)
                     = 4 * 2 ^ (Z.pos (digits2_pos p) - 1)).
      { replace (Z.pos (digits2_pos p) + 1)
          with (2 + (Z.pos (digits2_pos p) - 1)) by lia.
        by rewrite Z.pow_add_r by lia. }
      assert (Hpow' : 2 ^ (Z.pos (digits2_pos p) + 2)
                      = 4 * 2 ^ Z.pos (digits2_pos p)).
      { by rewrite Z.add_comm, Z.pow_add_r by lia. }
      assert (Z.pos (digits2_pos M) ≤ Z.pos (digits2_pos p) + 2)
        by (apply digits_le; lia).
      assert (Z.pos (digits2_pos p) + 1 + 1 ≤ Z.pos (digits2_pos M))
        by (apply digits_ge; lia).
      lia. }
  rewrite div_unfold.
  rewrite (round_with_location q e' (new_location (Z.pos my) r) M Hqpos HM
             Hbelow Hfexp).
  assert (Hfe100 : fe ≤ 100).
  { subst fe. destruct (Z.eq_dec q 0) as [Hz|Hnz].
    - rewrite Hz, fexp_unfold. cbn [Zdigits2]. lia.
    - specialize (Hq1 ltac:(lia)). rewrite fexp_unfold. lia. }
  destruct (binary_round_aux_grid M (e' - 2)) as (v & Hv & HL & HH).
  { unfold bias. lia. }
  { rewrite Hfexp. lia. }
  { lia. }
  unfold grid in HL, HH. rewrite Hfexp in HL, HH. fold g in HL, HH.
  exists v. split; [exact Hv|].
  set (S := 2 ^ (e' - 2 + bias)) in *.
  assert (HS : 0 < S) by (apply Z.pow_pos_nonneg; unfold bias; lia).
  assert (HS4 : 2 ^ (e' + bias) = 4 * S).
  { subst S. replace (e' + bias) with (2 + (e' - 2 + bias)) by lia.
    by rewrite Z.pow_add_r by (unfold bias; lia). }
  set (K := 2 ^ (fe - e')).
  assert (HK : 0 < K) by (apply Z.pow_pos_nonneg; lia).
  assert (Hg : g = K * (4 * S)).
  { subst g K. rewrite <- HS4, <- Z.pow_add_r by (unfold bias; lia).
    f_equal. lia. }
  unfold scaled in HL, HH. rewrite HM in HL, HH. fold S in HL, HH.
  rewrite HS4. split.
  - intros L [l ->] HLD. apply HL; [by exists l|].
    rewrite Hg in *.
    assert (H1 : l * K * Z.pos my ≤ N)
      by (apply (Z.mul_le_mono_pos_r _ _ (4 * S)); lia).
    assert (H2 : l * K < q + 1)
      by (apply (Z.mul_lt_mono_pos_r (Z.pos my)); lia).
    assert (H3 : l * K * S ≤ q * S)
      by (apply Z.mul_le_mono_nonneg_r; lia).
    lia.
  - intros H [h ->] HHD. apply HH; [by exists h|].
    rewrite Hg in *.
    assert (HP : 2 * N < (2 * h + 1) * K * Z.pos my)
      by (apply (Z.mul_lt_mono_pos_r (4 * S)); lia).
    assert (HP' : 2 * q < (2 * h + 1) * K)
      by (apply (Z.mul_lt_mono_pos_r (Z.pos my)); lia).
    assert (Hgoal : 4 * q + c < 2 * ((2 * h + 1) * K));
      [|apply (Z.mul_lt_mono_pos_r S) in Hgoal; lia].
    destruct (Z.eq_dec fe e') as [Heq|Hne].
    + assert (HK1 : K = 1)
        by (subst K; rewrite Heq, Z.sub_diag; reflexivity).
      rewrite HK1 in *.
      destruct (Z_lt_le_dec q h) as [Hlt|Hge]; [lia|].
      assert (q = h) by lia. subst h.
      assert (c ≤ 1) by (apply Hc2; lia). lia.
    + assert (HK2 : K = 2 * 2 ^ (fe - e' - 1)).
      { subst K. replace (fe - e') with (Z.succ (fe - e' - 1)) at 1 by lia.
        rewrite Z.pow_succ_r by lia. reflexivity. }
      assert (0 < 2 ^ (fe - e' - 1)) by (apply Z.pow_pos_nonneg; lia).
      set (K' := 2 ^ (fe - e' - 1)) in *. rewrite HK2 in *.
      lia.
Qed.

End Division.

(** The same, on the scaled values of the dividend and the divisor. *)
Lemma div_grid_values (mx my : positive) (ex ey : Z) :
  Z.pos (digits2_pos mx) ≤ 53 → -1074 ≤ ex ≤ 0 → -100 ≤ ey ≤ 0 →
  let vx := scaled (Z.pos mx) ex in
  let vy := scaled (Z.pos my) ey in
  ∃ v fe,
    scaled_value
      (SFdiv 53 1024 (S754_finite false mx ex) (S754_finite false my ey)) v
    ∧ -1074 ≤ fe
    ∧ (∀ a, 0 ≤ a + bias → vx * 2 ^ bias < 2 ^ (a + bias) * vy →
            fe ≤ fexp 53 1024 a)
    ∧ (∀ L, (2 ^ (fe + bias) | L) → L * vy ≤ vx * 2 ^ bias → L ≤ v)
    ∧ (∀ H, (2 ^ (fe + bias) | H) →
            2 * (vx * 2 ^ bias) < (2 * H + 2 ^ (fe + bias)) * vy → v ≤ H).
Proof.
  intros Hdx Hex Hey vx vy.
  set (e' := Z.min (fexp 53 1024 (Z.pos (digits2_pos mx) + ex
                                  - (Z.pos (digits2_pos my) + ey))) (ex - ey)).
  set (N := Z.pos mx * 2 ^ (ex - ey - e')).
  set (q := N / Z.pos my). set (r := N mod Z.pos my).
  destruct (div_shift_nonneg mx my ex ey Hdx Hex Hey e' eq_refl)
    as (Hs & He'lo & He'hi).
  destruct (div_parts mx my ex ey Hdx Hex Hey e' N q r eq_refl eq_refl
              eq_refl eq_refl) as (HNpos & Hqpos & Hrb & Hdiv).
  destruct (div_quotient_digits mx my ex ey Hdx Hex Hey e' N q r eq_refl
              eq_refl eq_refl eq_refl) as [Hq0 Hq1].
  destruct (div_grid mx my ex ey Hdx Hex Hey e' N q r eq_refl eq_refl
              eq_refl eq_refl) as (v & Hv & HL & HH).
  set (fe := fexp 53 1024 (Zdigits2 q + e')) in *.
  set (W := 2 ^ (ey + bias)).
  assert (HW : 0 < W) by (apply Z.pow_pos_nonneg; unfold bias; lia).
  assert (Hvy : vy = Z.pos my * W) by reflexivity.
  assert (Hvx : vx * 2 ^ bias = N * 2 ^ (e' + bias) * W).
  { subst vx N W. unfold scaled.
    rewrite <- !Z.mul_assoc, <- !Z.pow_add_r by (unfold bias; lia).
    f_equal. f_equal. lia. }
  exists v, fe. split; [exact Hv|]. split; [apply fexp_ge|].
  split; [|split].
  - intros a Ha Hlt. rewrite Hvx, Hvy in Hlt.
    assert (Hlt' : N * 2 ^ (e' + bias) < 2 ^ (a + bias) * Z.pos my)
      by (apply (Z.mul_lt_mono_pos_r W); lia).
    assert (HE : 0 < 2 ^ (e' + bias))
      by (apply Z.pow_pos_nonneg; unfold bias; lia).
    assert (Hqa : q * 2 ^ (e' + bias) < 2 ^ (a + bias)).
    { apply (Z.mul_lt_mono_pos_r (Z.pos my)); [lia|].
      assert (q * Z.pos my * 2 ^ (e' + bias) ≤ N * 2 ^ (e' + bias))
        by (apply Z.mul_le_mono_nonneg_r; lia).
      lia. }
    subst fe. destruct q as [|p|p] eqn:Hqp; [| |lia].
    + specialize (Hq0 eq_refl). rewrite !fexp_unfold. cbn [Zdigits2]. lia.
    + cbn [Zdigits2]. apply fexp_mono.
      apply fexp_below; [unfold bias; lia | done | exact Hqa].
  - intros L HgL HLv. apply HL; [exact HgL|].
    rewrite Hvx, Hvy in HLv.
    apply (Z.mul_le_mono_pos_r _ _ W); lia.
  - intros H HgH HHv. apply HH; [exact HgH|].
    rewrite Hvx, Hvy in HHv.
    apply (Z.mul_lt_mono_pos_r W); lia.
Qed.

(** ** The remainder *)

Lemma on_format_grid_scaled (p : positive) (e : Z) :
  0 ≤ e + bias → fexp 53 1024 (Z.pos (digits2_pos p) + e) ≤ e →
  on_format_grid (scaled (Z.pos p) e).
Proof.
  intros He Hfe a Ha Hlo.
  assert (Hae : a ≤ Z.pos (digits2_pos p) + e).
  { destruct (digits2_pos_bounds p) as [_ Hhi].
    assert (Hlt : 2 ^ (a - 1 + bias) < 2 ^ (Z.pos (digits2_pos p) + e + bias)).
    { eapply Z.le_lt_trans; [exact Hlo|]. unfold scaled.
      replace (Z.pos (digits2_pos p) + e + bias)
        with (Z.pos (digits2_pos p) + (e + bias)) by lia.
      rewrite (Z.pow_add_r 2 (Z.pos (digits2_pos p)) (e + bias)) by lia.
      apply Z.mul_lt_mono_pos_r; [apply Z.pow_pos_nonneg; lia | done]. }
    apply Z.pow_lt_mono_r_iff in Hlt; lia. }
  pose proof (fexp_mono _ _ Hae) as Hm. pose proof (fexp_ge a) as Hg.
  exists (Z.pos p * 2 ^ (e - fexp 53 1024 a)). unfold scaled.
  rewrite <- Z.mul_assoc, <- Z.pow_add_r by (unfold bias in *; lia).
  f_equal. f_equal. lia.
Qed.

(** A number that the format holds is rounded to itself. *)
Lemma binary_round_exact (M : positive) (E : Z) :
  -1074 ≤ E ≤ 0 → fexp 53 1024 (Z.pos (digits2_pos M) + E) ≤ E →
  ∃ m e, binary_round 53 1024 false M E = S754_finite false m e
         ∧ scaled (Z.pos m) e = scaled (Z.pos M) E
         ∧ Z.pos (digits2_pos m) ≤ 53 ∧ -1074 ≤ e ≤ 0.
Proof.
  intros HE Hfe. unfold binary_round.
  pose proof (shl_align_spec M E (fexp 53 1024 (Z.pos (digits2_pos M) + E)))
    as Hal.
  pose proof (fexp_ge (Z.pos (digits2_pos M) + E)) as Hge.
  destruct (shl_align M E _) as [mz ez].
  destruct Hal as (Hez & Hval & Hdig); [unfold bias; lia|].
  assert (Hez' : ez = fexp 53 1024 (Z.pos (digits2_pos M) + E)) by lia.
  destruct (binary_round_aux_cases mz ez) as [Hexact _].
  { rewrite Hdig. lia. }
  rewrite Hexact; [|rewrite Hdig; lia|lia].
  exists mz, ez. split; [reflexivity|]. split; [exact Hval|].
  rewrite fexp_unfold in Hez'. lia.
Qed.

(** The remainder of two positive numbers is exact, and a number of the
    format. *)
Lemma rem_value (mx my : positive) (ex ey : Z) :
  Z.pos (digits2_pos mx) ≤ 53 → -1074 ≤ ex ≤ 0 →
  Z.pos (digits2_pos my) ≤ 53 → -100 ≤ ey ≤ 0 →
  let vx := scaled (Z.pos mx) ex in
  let vy := scaled (Z.pos my) ey in
  let result :=
    Float64.rem (S754_finite false mx ex) (S754_finite false my ey) in
  (vx mod vy = 0 ∧ result = S754_zero false)
  ∨ (∃ m e, result = S754_finite false m e
            ∧ scaled (Z.pos m) e = vx mod vy
            ∧ Z.pos (digits2_pos m) ≤ 53 ∧ -1074 ≤ e ≤ 0).
Proof.
  intros Hdx Hex Hdy Hey vx vy result. subst result.
  unfold Float64.rem. cbn [cond_Zopp].
  set (e := Z.min ex ey).
  set (X := Z.pos mx * 2 ^ (ex - e)). set (Y := Z.pos my * 2 ^ (ey - e)).
  assert (HX : 0 < X)
    by (subst X; apply Z.mul_pos_pos; [lia | apply Z.pow_pos_nonneg; lia]).
  assert (HY : 0 < Y)
    by (subst Y; apply Z.mul_pos_pos; [lia | apply Z.pow_pos_nonneg; lia]).
  assert (HE : 0 < 2 ^ (e + bias))
    by (apply Z.pow_pos_nonneg; unfold bias; lia).
  assert (Hvx : vx = X * 2 ^ (e + bias)).
  { subst vx X. unfold scaled.
    rewrite <- Z.mul_assoc, <- Z.pow_add_r by (unfold bias; lia).
    f_equal. f_equal. lia. }
  assert (Hvy : vy = Y * 2 ^ (e + bias)).
  { subst vy Y. unfold scaled.
    rewrite <- Z.mul_assoc, <- Z.pow_add_r by (unfold bias; lia).
    f_equal. f_equal. lia. }
  assert (Hmod : vx mod vy = X mod Y * 2 ^ (e + bias)).
  { rewrite Hvx, Hvy. apply Z.mul_mod_distr_r; lia. }
  pose proof (Z.mod_pos_bound X Y HY) as HR.
  destruct (digits2_pos_bounds mx) as [_ Hmx].
  destruct (digits2_pos_bounds my) as [_ Hmy].
  assert (Hmx53 : Z.pos mx < 2 ^ 53).
  { eapply Z.lt_le_trans; [exact Hmx|]. apply Z.pow_le_mono_r; lia. }
  assert (Hmy53 : Z.pos my < 2 ^ 53).
  { eapply Z.lt_le_trans; [exact Hmy|]. apply Z.pow_le_mono_r; lia. }
  assert (HR53 : X mod Y < 2 ^ 53).
  { destruct (Z_le_gt_dec ex ey) as [Hle|Hgt].
    - assert (X = Z.pos mx) as HXm
        by (subst X e; rewrite Z.min_l, Z.sub_diag by lia; lia).
      pose proof (Z.mod_le X Y ltac:(lia) HY). lia.
    - assert (Y = Z.pos my) as HYm
        by (subst Y e; rewrite Z.min_r, Z.sub_diag by lia; lia).
      lia. }
  destruct (X mod Y) as [|p|p] eqn:HRp; [| |lia].
  - left. split; [by rewrite Hmod | reflexivity].
  - right. cbn [binary_normalize].
    assert (Hdp : Z.pos (digits2_pos p) ≤ 53) by (apply digits_le; lia).
    destruct (binary_round_exact p e) as (m & e0 & Hres & Hval & Hdm & He0).
    { subst e. lia. }
    { rewrite fexp_unfold. subst e. lia. }
    exists m, e0. split; [exact Hres|]. split; [|split; [exact Hdm|exact He0]].
    by rewrite Hval, Hmod.
Qed.

(** ** Whole quotients *)

Lemma div_scaled (v c : Z) :
  0 ≤ v → 0 < c → v / (c * 2 ^ bias) = v / 2 ^ bias / c.
Proof.
  intros Hv Hc. rewrite Z.mul_comm.
  symmetry. apply Z.div_div; [apply Z.pow_nonzero; unfold bias; lia | lia].
Qed.

Lemma mod_scaled (v c : Z) :
  0 ≤ v → 0 < c → v mod (c * 2 ^ bias) / 2 ^ bias = (v / 2 ^ bias) mod c.
Proof.
  intros Hv Hc.
  assert (HB : 0 < 2 ^ bias) by (apply Z.pow_pos_nonneg; unfold bias; lia).
  rewrite (Z.mul_comm c), Z.rem_mul_r by lia.
  rewrite (Z.mul_comm (2 ^ bias)), Z.div_add by lia.
  rewrite (Z.div_small (v mod 2 ^ bias)) by (apply Z.mod_pos_bound; lia).
  lia.
Qed.

(** Division by a whole number [c] below [2 ^ 50]: the quotient of a number
    below [2 ^ 53], rounded to the format, has the same whole part as the
    exact quotient. *)
Section WholeQuotient.
Variables (my : positive) (ey c γ : Z).
Hypothesis Hey : -100 ≤ ey ≤ 0.
Hypothesis Hvy : scaled (Z.pos my) ey = c * 2 ^ bias.
Hypothesis Hc : 2 ^ (γ - 1) ≤ c < 2 ^ γ.
Hypothesis Hγ : 1 ≤ γ ≤ 50.
Variables (mx : positive) (ex : Z).
Hypothesis Hdx : Z.pos (digits2_pos mx) ≤ 53.
Hypothesis Hex : -1074 ≤ ex ≤ 0.
Hypothesis Hlt : scaled (Z.pos mx) ex < 2 ^ (53 + bias).

Lemma floor_div_integer :
  Binary64.floor
    (Float64.div (S754_finite false mx ex) (S754_finite false my ey))
  = Binary64.Int (scaled (Z.pos mx) ex / 2 ^ bias / c).
Proof using Hey Hvy Hc Hγ Hdx Hex Hlt.
  set (vx := scaled (Z.pos mx) ex) in *.
  set (B := 2 ^ bias) in *.
  assert (HB : 0 < B) by (apply Z.pow_pos_nonneg; unfold bias; lia).
  assert (Hcpos : 0 < c).
  { assert (0 < 2 ^ (γ - 1)) by (apply Z.pow_pos_nonneg; lia). lia. }
  assert (Hvx : 0 < vx).
  { subst vx. unfold scaled. apply Z.mul_pos_pos; [lia|].
    apply Z.pow_pos_nonneg; unfold bias; lia. }
  assert (Hgrid : on_format_grid vx).
  { apply on_format_grid_scaled; [unfold bias; lia|].
    rewrite fexp_unfold. lia. }
  assert (HcB : 0 < c * B) by (apply Z.mul_pos_pos; lia).
  assert (HBcB : B ≤ c * B) by (apply le_mul_one; lia).
  set (K := vx / (c * B)).
  assert (HK : 0 ≤ K) by (apply Z.div_pos; lia).
  assert (HKlo : K * (c * B) ≤ vx)
    by (rewrite Z.mul_comm; apply Z.mul_div_le; lia).
  assert (HKhi : vx < (K + 1) * (c * B)).
  { rewrite Z.mul_comm. apply (Z.mul_succ_div_gt vx (c * B)). lia. }
  destruct (div_grid_values mx my ex ey Hdx Hex Hey)
    as (v & fe & Hv & Hfe & Hfa & HL & HH).
  fold vx in Hfa, HL, HH. rewrite Hvy in Hfa, HL, HH. fold B in Hfa, HL, HH.
  set (g := 2 ^ (fe + bias)) in *.
  assert (Hg : 0 < g) by (apply Z.pow_pos_nonneg; unfold bias; lia).
  assert (Hfe0 : fe ≤ 0).
  { change 0 with (fexp 53 1024 53). apply Hfa; [unfold bias; lia|].
    assert (vx * B < 2 ^ (53 + bias) * B)
      by (apply Z.mul_lt_mono_pos_r; lia).
    assert (0 < 2 ^ (53 + bias)) by (apply Z.pow_pos_nonneg; unfold bias; lia).
    assert (2 ^ (53 + bias) * B ≤ 2 ^ (53 + bias) * (c * B))
      by (apply Z.mul_le_mono_nonneg_l; lia).
    lia. }
  assert (HgB : (g | B)).
  { exists (2 ^ (- fe)). subst g B.
    rewrite <- Z.pow_add_r by (unfold bias; lia). f_equal. lia. }
  assert (Hlow : K * B ≤ v).
  { apply HL; [by apply Z.divide_mul_r|].
    apply (Z.mul_le_mono_nonneg_r _ _ B) in HKlo; lia. }
  assert (Hhigh : v < (K + 1) * B).
  { destruct (Z_lt_le_dec vx (2 ^ (bias - 900))) as [Htiny|Hnormal].
    - assert (H900 : 2 * 2 ^ (bias - 900) ≤ B).
      { subst B. rewrite <- (Z.pow_succ_r 2 (bias - 900)) by (unfold bias; lia).
        apply Z.pow_le_mono_r; unfold bias; lia. }
      assert (Hpos900 : 0 < 2 ^ (bias - 900))
        by (apply Z.pow_pos_nonneg; unfold bias; lia).
      assert (HK0 : K = 0) by (subst K; apply Z.div_small; lia).
      assert (Hfe53 : fe ≤ -53).
      { change (-53) with (fexp 53 1024 0). apply Hfa; [unfold bias; lia|].
        change (2 ^ (0 + bias)) with B.
        assert (vx * B < B * B) by (apply Z.mul_lt_mono_pos_r; lia).
        assert (B * B ≤ B * (c * B)) by (apply Z.mul_le_mono_nonneg_l; lia).
        lia. }
      assert (Hhalf : v ≤ 2 ^ (bias - 1)).
      { assert (Hpow : 2 ^ (bias - 1) = 2 ^ (- 1 - fe) * g).
        { subst g. rewrite <- Z.pow_add_r by (unfold bias; lia).
          f_equal. lia. }
        assert (HB2 : B = 2 * 2 ^ (bias - 1)).
        { subst B. rewrite <- (Z.pow_succ_r 2 (bias - 1)) by (unfold bias; lia).
          f_equal; lia. }
        apply HH; [by exists (2 ^ (- 1 - fe))|].
        apply half_below_grid; [done | lia | done | lia | lia | exact HB2]. }
      assert (2 ^ (bias - 1) < B).
      { subst B. apply Z.pow_lt_mono_r; unfold bias; lia. }
      rewrite HK0. lia.
    - set (lg := Z.log2 vx).
      destruct (Z.log2_spec vx Hvx) as [Hlg1 Hlg2]. fold lg in Hlg1, Hlg2.
      assert (Hlglo : bias - 900 ≤ lg)
        by (apply Z.log2_le_pow2; [lia | done]).
      assert (Hlghi : lg < 53 + bias)
        by (apply Z.log2_lt_pow2; [lia | done]).
      set (b := lg - γ - bias + 2).
      assert (Hfeb : fe ≤ b - 53).
      { assert (Hfb : fe ≤ fexp 53 1024 b).
        { apply Hfa; [subst b; unfold bias in *; lia|].
          assert (Hx : vx < 2 ^ (b + bias) * c);
            [|apply (Z.mul_lt_mono_pos_r B) in Hx; lia].
          assert (Hpow : 2 ^ Z.succ lg = 2 ^ (b + bias) * 2 ^ (γ - 1)).
          { rewrite <- Z.pow_add_r by (subst b; unfold bias in *; lia).
            f_equal; subst b; lia. }
          assert (0 < 2 ^ (b + bias))
            by (apply Z.pow_pos_nonneg; subst b; unfold bias in *; lia).
          assert (2 ^ (b + bias) * 2 ^ (γ - 1) ≤ 2 ^ (b + bias) * c)
            by (apply Z.mul_le_mono_nonneg_l; lia).
          lia. }
        rewrite fexp_unfold in Hfb. subst b. unfold bias in *. lia. }
      set (ρ := fexp 53 1024 (lg - bias + 1)).
      assert (Hρ : lg - bias - 52 ≤ ρ ∧ ρ ≤ 0 ∧ -1074 ≤ ρ)
        by (subst ρ; rewrite fexp_unfold; unfold bias in *; lia).
      set (G := 2 ^ (ρ + bias)).
      assert (HG : 0 < G) by (apply Z.pow_pos_nonneg; unfold bias; lia).
      assert (HGvx : (G | vx)).
      { apply (Hgrid (lg - bias + 1)); [unfold bias in *; lia|].
        replace (lg - bias + 1 - 1 + bias) with lg by lia. done. }
      assert (HGB : (G | B)).
      { exists (2 ^ (- ρ)). subst G B.
        rewrite <- Z.pow_add_r by (unfold bias; lia). f_equal. lia. }
      assert (Hstep : vx + G ≤ (K + 1) * (c * B)).
      { destruct HGvx as [x' Hx']. destruct HGB as [y' Hy'].
        by apply (next_on_grid vx G B x' y' K c). }
      assert (HcgG : c * g < 2 * G).
      { assert (Hgle : g ≤ 2 ^ (b - 53 + bias)).
        { subst g. apply Z.pow_le_mono_r; [lia|]. lia. }
        assert (HGge : 2 ^ γ * 2 ^ (b - 53 + bias) ≤ 2 * G).
        { subst G. rewrite <- Z.pow_add_r, <- Z.pow_succ_r
            by (subst b; unfold bias in *; lia).
          apply Z.pow_le_mono_r; [lia|]. subst b. lia. }
        assert (0 < 2 ^ (b - 53 + bias))
          by (apply Z.pow_pos_nonneg; subst b; unfold bias in *; lia).
        assert (c * g ≤ c * 2 ^ (b - 53 + bias))
          by (apply Z.mul_le_mono_nonneg_l; lia).
        assert (c * 2 ^ (b - 53 + bias) < 2 ^ γ * 2 ^ (b - 53 + bias))
          by (apply Z.mul_lt_mono_pos_r; lia).
        lia. }
      assert (Hv' : v ≤ (K + 1) * B - g).
      { apply HH.
        - apply Z.divide_sub_r; [by apply Z.divide_mul_r | apply Z.divide_refl].
        - by apply (below_next_whole vx B c g G K). }
      lia. }
  assert (HKv : v / B = K).
  { symmetry. apply Z.div_unique with (v - K * B); lia. }
  assert (HKc : K = vx / B / c) by (subst K B; apply div_scaled; lia).
  rewrite <- HKc.
  unfold Float64.div.
  change (SFdiv Binary64.prec Binary64.emax) with (SFdiv 53 1024).
  destruct Hv as [[-> Hv0] | (p & e & -> & He & Hpv)].
  - cbn [Binary64.floor]. f_equal.
    destruct (Z.eq_dec K 0) as [|HKne]; [done|].
    assert (B ≤ K * B) by (apply le_mul_one; lia). lia.
  - rewrite floor_scaled by done. fold B. f_equal. by rewrite <- Hpv.
Qed.

End WholeQuotient.

(** ** The uptime as hours, minutes and seconds *)

Example getUptime_example : getUptime sample_uptime = "1h 1m 11s".
Proof. vm_compute. reflexivity. Qed.

Lemma of_Z_3600 :
  Binary64.of_Z 3600 = S754_finite false 7916483719987200 (-41).
Proof. reflexivity. Qed.

Lemma of_Z_60 :
  Binary64.of_Z 60 = S754_finite false 8444249301319680 (-47).
Proof. reflexivity. Qed.

Lemma scaled_3600 : scaled 7916483719987200 (-41) = 3600 * 2 ^ bias.
Proof. reflexivity. Qed.

Lemma scaled_60 : scaled 8444249301319680 (-47) = 60 * 2 ^ bias.
Proof. reflexivity. Qed.

(** What [uptime_value] and a whole part below [2 ^ 53] say about a
    positive number. *)
Lemma uptime_value_inv (m : positive) (e t : Z) :
  uptime_value (S754_finite false m e) = true →
  Binary64.floor (S754_finite false m e) = Binary64.Int t → t < 2 ^ 53 →
  Z.pos (digits2_pos m) ≤ 53 ∧ -1074 ≤ e ≤ 0
  ∧ t = scaled (Z.pos m) e / 2 ^ bias
  ∧ scaled (Z.pos m) e < 2 ^ (53 + bias).
Proof.
  intros Hb Hfl Ht. cbn [uptime_value] in Hb.
  apply bounded_inv in Hb as (He & Hd & Hcanon).
  rewrite floor_scaled in Hfl by (unfold bias; lia).
  injection Hfl as Hfl.
  assert (HB : 0 < 2 ^ bias) by (apply Z.pow_pos_nonneg; unfold bias; lia).
  assert (Hlt : scaled (Z.pos m) e < 2 ^ (53 + bias)).
  { rewrite Z.pow_add_r by (unfold bias; lia).
    pose proof (Z.mul_succ_div_gt (scaled (Z.pos m) e) (2 ^ bias) HB) as Hgt.
    rewrite Hfl in Hgt.
    assert (2 ^ bias * Z.succ t ≤ 2 ^ bias * 2 ^ 53)
      by (apply Z.mul_le_mono_nonneg_l; lia).
    lia. }
  pose proof (fexp_below m e 53 ltac:(unfold bias; lia)
                ltac:(unfold bias; lia) Hlt) as Hmag.
  split; [exact Hd|]. split; [|split; [by symmetry | exact Hlt]].
  destruct (Z.eq_dec e (-1074)) as [->|Hne]; [lia|].
  specialize (Hcanon ltac:(lia)). lia.
Qed.

Section Uptime.
Variables (m : positive) (e t : Z).
Hypothesis Hd : Z.pos (digits2_pos m) ≤ 53.
Hypothesis He : -1074 ≤ e ≤ 0.
Hypothesis Ht : t = scaled (Z.pos m) e / 2 ^ bias.
Hypothesis Hlt : scaled (Z.pos m) e < 2 ^ (53 + bias).

Lemma uptime_hours :
  Binary64.floor (Float64.div (S754_finite false m e) (Binary64.of_Z 3600))
  = Binary64.Int (t / 3600).
Proof using Hd He Ht Hlt.
  rewrite of_Z_3600, Ht.
  apply (floor_div_integer 7916483719987200 (-41) 3600 12); try done; lia.
Qed.

Lemma uptime_minutes :
  Binary64.floor
    (Float64.div (Float64.rem (S754_finite false m e) (Binary64.of_Z 3600))
       (Binary64.of_Z 60))
  = Binary64.Int (t mod 3600 / 60).
Proof using Hd He Ht Hlt.
  assert (HB : 0 < 2 ^ bias) by (apply Z.pow_pos_nonneg; unfold bias; lia).
  assert (Hv : 0 ≤ scaled (Z.pos m) e).
  { unfold scaled. apply Z.mul_nonneg_nonneg; [lia|].
    apply Z.pow_nonneg. lia. }
  rewrite of_Z_3600, of_Z_60, Ht, <- mod_scaled by lia.
  destruct (rem_value m 7916483719987200 e (-41) Hd He)
    as [[H0 ->] | (m' & e' & -> & Hval & Hd' & He')]; [by cbn | lia | |].
  - rewrite scaled_3600 in H0. rewrite H0. reflexivity.
  - rewrite scaled_3600 in Hval. rewrite <- Hval.
    apply (floor_div_integer 8444249301319680 (-47) 60 6); try done;
      try lia.
    rewrite Hval.
    pose proof (Z.mod_pos_bound (scaled (Z.pos m) e) (3600 * 2 ^ bias)
                  ltac:(lia)) as Hr.
    rewrite Z.pow_add_r by (unfold bias; lia).
    change (2 ^ 53) with 9007199254740992. lia.
Qed.

Lemma uptime_seconds :
  Binary64.floor (Float64.rem (S754_finite false m e) (Binary64.of_Z 60))
  = Binary64.Int (t mod 60).
Proof using Hd He Ht Hlt.
  assert (HB : 0 < 2 ^ bias) by (apply Z.pow_pos_nonneg; unfold bias; lia).
  assert (Hv : 0 ≤ scaled (Z.pos m) e).
  { unfold scaled. apply Z.mul_nonneg_nonneg; [lia|].
    apply Z.pow_nonneg. lia. }
  rewrite of_Z_60, Ht, <- mod_scaled by lia.
  destruct (rem_value m 8444249301319680 e (-47) Hd He)
    as [[H0 ->] | (m' & e' & -> & Hval & Hd' & He')]; [by cbn | lia | |].
  - rewrite scaled_60 in H0. rewrite H0. reflexivity.
  - rewrite scaled_60 in Hval. rewrite <- Hval.
    apply floor_scaled. unfold bias. lia.
Qed.

End Uptime.

(** X21. For every number of seconds that [process.uptime()] may return,
    zero or positive and with a whole part [t] below [2 ^ 53], the text of
    [getUptime] shows the hours, minutes and seconds of [t]: the roundings
    of the two divisions never reach the next whole number. *)
Theorem getUptime_hours_minutes_seconds (uptime : spec_float) (t : Z) :
  uptime_value uptime = true →
  Binary64.floor uptime = Binary64.Int t → t < 2 ^ 53 →
  let h := t / 3600 in
  let min := t mod 3600 / 60 in
  let sec := t mod 60 in
  getUptime uptime
  = pretty h +:+ "h " +:+ pretty min +:+ "m " +:+ pretty sec +:+ "s"
  ∧ t = 3600 * h + 60 * min + sec
  ∧ 0 ≤ h ∧ 0 ≤ min < 60 ∧ 0 ≤ sec < 60.
Proof.
  intros Hup Hfl Ht h min sec.
  assert (Ht0 : 0 ≤ t).
  { destruct uptime as [[]|[]| |[] m e]; try discriminate Hup.
    - injection Hfl as <-. lia.
    - destruct (uptime_value_inv m e t Hup Hfl Ht) as (_ & _ & -> & _).
      apply Z.div_pos; [|apply Z.pow_pos_nonneg; unfold bias; lia].
      unfold scaled. apply Z.mul_nonneg_nonneg; [lia|].
      apply Z.pow_nonneg. lia. }
  split.
  - destruct uptime as [[]|[]| |[] m e]; try discriminate Hup.
    + injection Hfl as <-. reflexivity.
    + destruct (uptime_value_inv m e t Hup Hfl Ht) as (Hd & He & Hte & Hlt).
      unfold getUptime.
      rewrite (uptime_hours m e t Hd He Hte Hlt),
        (uptime_minutes m e t Hd He Hte Hlt),
        (uptime_seconds m e t Hd He Hte Hlt).
      reflexivity.
  - subst h min sec.
    pose proof (Z.div_mod t 3600 ltac:(lia)) as H1.
    pose proof (Z.div_mod (t mod 3600) 60 ltac:(lia)) as H2.
    pose proof (Z.mod_pos_bound t 3600 ltac:(lia)) as H3.
    pose proof (Z.mod_pos_bound (t mod 3600) 60 ltac:(lia)) as H4.
    pose proof (Z.mod_pos_bound t 60 ltac:(lia)) as H5.
    assert (H6 : (t mod 3600) mod 60 = t mod 60).
    { change 3600 with (60 * 60). rewrite Z.rem_mul_r by lia.
      rewrite (Z.mul_comm 60 (t / 60 mod 60)), Z.mod_add by lia.
      apply Z.mod_mod. lia. }
    assert (0 ≤ t / 3600) by (apply Z.div_pos; lia).
    assert (0 ≤ t mod 3600 / 60) by (apply Z.div_pos; lia).
    assert (t mod 3600 / 60 < 60) by (apply Z.div_lt_upper_bound; lia).
    lia.
Qed.

Lemma getUptime_hours_minutes_seconds_witness :
  let h := 3671 / 3600 in
  let min := 3671 mod 3600 / 60 in
  let sec := 3671 mod 60 in
  getUptime sample_uptime
  = pretty h +:+ "h " +:+ pretty min +:+ "m " +:+ pretty sec +:+ "s"
  ∧ 3671 = 3600 * h + 60 * min + sec
  ∧ 0 ≤ h ∧ 0 ≤ min < 60 ∧ 0 ≤ sec < 60.
Proof.
  apply (getUptime_hours_minutes_seconds sample_uptime 3671);
    [reflexivity | reflexivity | reflexivity].
Defined.

(** ** The verification records of every reachable state *)

Lemma run_events_snoc (evs : list Event) (ev : Event) (w : World) :
  run_events (evs ++ [ev]) w = handle ev (run_events evs w).
Proof. unfold run_events. by rewrite fold_left_app. Qed.

(** Only [/start] and a shared contact touch the verification records. *)
Lemma handle_keeps_verification (ev : Event) (w : World) :
  match ev with
  | EvStart _ _ _ | EvContact _ _ _ => True
  | _ =>
      pending_verifications (db (handle ev w)) = pending_verifications (db w)
      ∧ otp_sessions (db (handle ev w)) = otp_sessions (db w)
  end.
Proof.
  destruct ev as [env from payload|env from contact|lenv from|lenv from
                 |env from|env from text|env from|env from|from];
    cbn [handle]; try exact I.
  - by rewrite getcodes_world.
  - by rewrite refresh_codes_list_world.
  - rewrite addcodes_world. by destruct (bool_decide _).
  - rewrite on_text_world. by destruct (addCodeSessions w !! Tg.id from).
  - unfold world_after. rewrite confirm_add_run.
    destruct (addCodeSessions w !! Tg.id from) as [session|]; [|done].
    destruct (build_batch env session) as [batch|]; [|done].
    by destruct (batch_commit_ok env), (send_ok env).
  - rewrite regenerate_codes_world.
    by destruct (addCodeSessions w !! Tg.id from).
  - by rewrite cancel_add_world.
Qed.

Lemma pending_from_mono (evs : list Event) (ev : Event) (key : string)
    (d : PendingVerification) :
  pending_from evs key d → pending_from (evs ++ [ev]) key d.
Proof.
  intros (Hne & env & from & Hin & Hkey). split; [exact Hne|].
  exists env, from. split; [|exact Hkey]. apply elem_of_app. by left.
Qed.

Lemma otp_session_from_mono (evs : list Event) (ev : Event) (key : string)
    (r : OtpSession) :
  otp_session_from evs key r → otp_session_from (evs ++ [ev]) key r.
Proof.
  intros (Hne & Hv & p & env & from & env' & from' & contact
          & Hs & Hpath & Hid & Hc & Hrest).
  split; [exact Hne|]. split; [exact Hv|].
  exists p, env, from, env', from', contact.
  split; [apply elem_of_app; by left|].
  split; [exact Hpath|]. split; [exact Hid|].
  split; [apply elem_of_app; by left|]. exact Hrest.
Qed.

Lemma verification_records_invariant (evs : list Event) (w0 : World) :
  pending_verifications (db w0) = ∅ → otp_sessions (db w0) = ∅ →
  (∀ key d, pending_verifications (db (run_events evs w0)) !! key = Some d →
            pending_from evs key d)
  ∧ (∀ key r, otp_sessions (db (run_events evs w0)) !! key = Some r →
              otp_session_from evs key r).
Proof.
  intros Hp0 Ho0. induction evs as [|ev evs IH] using rev_ind.
  - cbn. rewrite Hp0, Ho0. split; intros key x Hx; by rewrite lookup_empty in Hx.
  - destruct IH as [IHp IHo]. rewrite run_events_snoc.
    set (w := run_events evs w0) in *.
    pose proof (handle_keeps_verification ev w) as Hkeep.
    destruct ev as [env from payload|env from contact|lenv from|lenv from
                   |env from|env from text|env from|env from|from].
    3-9: destruct Hkeep as [-> ->]; split; intros key x Hx;
      [by apply pending_from_mono, IHp | by apply otp_session_from_mono, IHo].
    + cbn [handle]. rewrite bot_start_world.
      destruct (JS.truthy payload && db_set_ok env) eqn:Hb.
      * apply andb_true_iff in Hb as [Htruthy _].
        destruct payload as [p|]; [|discriminate Htruthy].
        assert (Hpne : p ≠ "") by (by destruct p).
        split; intros key x Hx.
        -- cbn in Hx. destruct (decide (doc_key from = key)) as [<-|Hne].
           ++ rewrite lookup_insert_eq in Hx. injection Hx as <-.
              split; [exact Hpne|]. exists env, from.
              split; [|reflexivity]. apply elem_of_app. right.
              apply list_elem_of_singleton. reflexivity.
           ++ rewrite lookup_insert_ne in Hx by done.
              by apply pending_from_mono, IHp.
        -- by apply otp_session_from_mono, IHo.
      * split; intros key x Hx;
          [by apply pending_from_mono, IHp
          |by apply otp_session_from_mono, IHo].
    + cbn [handle]. rewrite on_contact_world.
      destruct (bool_decide (Tg.user_id contact = Some (Tg.id from))) eqn:Hown;
        cbn [andb];
        [|split; intros key x Hx;
          [by apply pending_from_mono, IHp
          |by apply otp_session_from_mono, IHo]].
      apply bool_decide_eq_true_1 in Hown.
      destruct (db_get_ok env);
        [|split; intros key x Hx;
          [by apply pending_from_mono, IHp
          |by apply otp_session_from_mono, IHo]].
      destruct (pending_verifications (db w) !! doc_key from) as [pd|] eqn:Hpd;
        [|split; intros key x Hx;
          [by apply pending_from_mono, IHp
          |by apply otp_session_from_mono, IHo]].
      destruct (document_path (session_id pd)) as [path|] eqn:Hpath;
        [|split; intros key x Hx;
          [by apply pending_from_mono, IHp
          |by apply otp_session_from_mono, IHo]].
      destruct (db_set_ok env);
        [|split; intros key x Hx;
          [by apply pending_from_mono, IHp
          |by apply otp_session_from_mono, IHo]].
      destruct (IHp _ _ Hpd) as (Hsne & env0 & from0 & Hstart & Hkey).
      apply doc_key_inj in Hkey.
      assert (Hnew : ∀ key x,
                 <[path := otp_record env from contact]>
                   (otp_sessions (db w)) !! key = Some x →
                 otp_session_from
                   (evs ++ [EvContact env from contact]) key x).
      { intros key x Hx.
        destruct (decide (path = key)) as [<-|Hne].
        - rewrite lookup_insert_eq in Hx. injection Hx as <-.
          split; [exact (document_path_nonempty _ _ Hpath)|].
          split; [reflexivity|].
          exists (session_id pd), env0, from0, env, from, contact.
          split; [apply elem_of_app; by left|].
          split; [exact Hpath|].
          split; [intros Hid; rewrite (document_path_id _ Hid) in Hpath;
                  by injection Hpath|].
          split; [apply elem_of_app; right;
                  by apply list_elem_of_singleton|].
          split; [exact Hkey|]. split; [exact Hkey|].
          split; [by rewrite Hown, Hkey|]. split; reflexivity.
        - rewrite lookup_insert_ne in Hx by done.
          by apply otp_session_from_mono, IHo. }
      destruct (db_delete_ok env); cbn; split; try exact Hnew.
      * intros key x Hx. apply lookup_delete_Some in Hx as [_ Hx].
        by apply pending_from_mono, IHp.
      * intros key x Hx. by apply pending_from_mono, IHp.
Qed.

(** X22. Every OTP session in the store, after any sequence of events from
    an empty store and whatever the surroundings decide, goes back to a
    [/start] and a shared contact: its key is not empty and is the path
    that [doc] makes of the payload of a [/start], which is the payload
    itself when that is a document id; the Telegram id it names is that of
    the user who sent that [/start], and the same user shared a contact of
    their own, whose phone number is the one stored; the code is the one
    made at that share; and the bot has not marked it verified. *)
Theorem otp_sessions_come_from_start_and_own_contact
    (evs : list Event) (w0 : World) (key : string) (r : OtpSession) :
  pending_verifications (db w0) = ∅ → otp_sessions (db w0) = ∅ →
  otp_sessions (db (run_events evs w0)) !! key = Some r →
  otp_session_from evs key r.
Proof.
  intros Hp0 Ho0.
  apply (proj2 (verification_records_invariant evs w0 Hp0 Ho0)).
Qed.

Lemma otp_sessions_come_from_start_and_own_contact_witness :
  otp_session_from
    [EvStart env_ok alice (Some "abc"); EvContact env_ok alice alice_contact]
    "abc" (otp_record env_ok alice alice_contact).
Proof.
  apply (otp_sessions_come_from_start_and_own_contact
           [EvStart env_ok alice (Some "abc");
            EvContact env_ok alice alice_contact]
           empty_world "abc" (otp_record env_ok alice alice_contact)
           eq_refl eq_refl).
  reflexivity.
Defined.

(** X23. Every pending record and every code in the store is well formed,
    after any sequence of events from an empty store in which the values of
    [Math.random()] are numbers from 0 up to 1: a pending record holds a
    non-empty payload that its user sent with [/start]; the code of an OTP
    session is six digits denoting a number from 100000 to 999999. *)
Theorem stored_verification_records_well_formed
    (evs : list Event) (w0 : World) :
  pending_verifications (db w0) = ∅ → otp_sessions (db w0) = ∅ →
  Forall event_random_ok evs →
  (∀ key d, pending_verifications (db (run_events evs w0)) !! key = Some d →
            pending_from evs key d)
  ∧ (∀ key r, otp_sessions (db (run_events evs w0)) !! key = Some r →
              ∃ n, 100000 ≤ n ≤ 999999 ∧ decimal_numeral (otp r) = Some n
                   ∧ String.length (otp r) = 6%nat).
Proof.
  intros Hp0 Ho0 Hrand.
  destruct (verification_records_invariant evs w0 Hp0 Ho0) as [Hp Ho].
  split; [exact Hp|]. intros key r Hr.
  destruct (Ho key r Hr)
    as (_ & _ & p & env & from & env' & from' & contact
        & _ & _ & _ & Hc & _ & _ & _ & _ & Hotp).
  rewrite Forall_forall in Hrand. specialize (Hrand _ Hc). cbn in Hrand.
  destruct (generateOTP_value (random env') Hrand) as (n & Hn & Hgen).
  destruct (pretty_six_digits n Hn) as (Hlen & _ & Hnum).
  exists n. rewrite Hotp, Hgen. by split.
Qed.

Lemma stored_verification_records_well_formed_witness :
  (∀ key d,
     pending_verifications
       (db (run_events
              [EvStart env_ok alice (Some "abc");
               EvContact env_ok alice alice_contact] empty_world)) !! key
     = Some d →
     pending_from
       [EvStart env_ok alice (Some "abc");
        EvContact env_ok alice alice_contact] key d)
  ∧ (∀ key r,
       otp_sessions
         (db (run_events
                [EvStart env_ok alice (Some "abc");
                 EvContact env_ok alice alice_contact] empty_world)) !! key
       = Some r →
       ∃ n, 100000 ≤ n ≤ 999999 ∧ decimal_numeral (otp r) = Some n
            ∧ String.length (otp r) = 6%nat).
Proof.
  apply (stored_verification_records_well_formed
           [EvStart env_ok alice (Some "abc");
            EvContact env_ok alice alice_contact] empty_world
           eq_refl eq_refl).
  repeat constructor.
Defined.
